(** * cgol: Conway's Game of Life on a 16x16 LED panel (cgol.ino)

    A shallow embedding of the sketch [src/cgol/cgol.ino] and the
    verification of its generation step, periodicity detector, page
    selector and display driver.

    Target board: Seeed Xiao M0 (SAMD21), where [int], [unsigned int],
    [long] and [unsigned long] are all 32 bits wide.

    The globals of the sketch are the fields of one record [state],
    threaded through every function.  What the collaborators answer
    ([analogRead], [millis], the button, the encoder, [random]) enters as
    arguments or, for [random], as a stream held in the state; what the
    sketch asks of them ([setRow], [setIntensity], [delay]) is appended to
    the trace [out].  Serial output and the ripple animation of [setup()]
    are left out: no global read by the modelled functions depends on
    them. *)

From Stdlib Require Import ZArith Lia Bool List.
From stdpp Require Import base numbers list.
Import ListNotations.
Local Open Scope Z_scope.

(** ** Arduino core primitives

    The macros and helpers of the Arduino core that the sketch calls
    ([Arduino.h], [WMath.cpp]); they are not part of the repository and
    are written here after their definitions in the core. *)
Module Arduino.

(** Value of a 32-bit [unsigned int] / [unsigned long] expression. *)
Definition uint (z : Z) : Z := z mod 2 ^ 32.

(** Value of a 32-bit [int] / [long] expression (two's complement). *)
Definition sint (z : Z) : Z := (z + 2 ^ 31) mod 2 ^ 32 - 2 ^ 31.

(** [#define bitRead(value, bit) (((value) >> (bit)) & 0x01)] *)
Definition bitRead (value bit : Z) : Z := Z.land (Z.shiftr value bit) 1.

(** [#define bitSet(value, bit) ((value) |= (1UL << (bit)))] *)
Definition bitSet (value bit : Z) : Z :=
  uint (Z.lor value (uint (Z.shiftl 1 bit))).

(** [#define bitClear(value, bit) ((value) &= ~(1UL << (bit)))] *)
Definition bitClear (value bit : Z) : Z :=
  uint (Z.land value (uint (Z.lnot (uint (Z.shiftl 1 bit))))).

(** [#define bitWrite(value, bit, bitvalue)
      ((bitvalue) ? bitSet(value, bit) : bitClear(value, bit))] *)
Definition bitWrite (value bit bitvalue : Z) : Z :=
  if bitvalue =? 0 then bitClear value bit else bitSet value bit.

(** [#define constrain(amt,low,high)
      ((amt)<(low)?(low):((amt)>(high)?(high):(amt)))] *)
Definition constrain (amt low high : Z) : Z :=
  if amt <? low then low else if amt >? high then high else amt.

(** [long map(long x, long in_min, long in_max, long out_min, long out_max)
     { return (x - in_min) * (out_max - out_min) / (in_max - in_min) + out_min; }]
    C division truncates towards zero. *)
Definition map (x in_min in_max out_min out_max : Z) : Z :=
  sint (sint (sint (sint (x - in_min) * sint (out_max - out_min))
                ÷ sint (in_max - in_min)) + out_min).

(** [memcmp] over two whole arrays of the same size.  The sketch only
    tests the result against 0, so every nonzero result is given as 1. *)
Definition memcmp (p q : list Z) : Z := if bool_decide (p = q) then 0 else 1.

(** [for (int i = lo; i < hi; i++) body] as a state transformer. *)
Definition for_loop {S : Type} (lo hi : nat) (body : nat -> S -> S) (st : S) : S :=
  fold_left (fun acc i => body i acc) (seq lo (hi - lo)) st.

End Arduino.

Import Arduino.

(** ** Grid geometry (section VARIABLES of the sketch) *)

Definition x : nat := 2.            (* number of modules, x axis *)
Definition y : nat := 2.            (* number of modules, y axis *)
Definition s : nat := 8.            (* module size in leds *)
Definition n : nat := (y * s)%nat.  (* led grid y *)
Definition m : nat := (x * s)%nat.  (* led grid x *)

(** [unsigned int u[n][x]]: [n] rows of [x = 2] words; word 0 drives the
    left module of the row, word 1 the right one. *)
Abbreviation grid := (list (Z * Z)).

(** [u[i][j]] for [j] in 0..1. *)
Definition at2 (u : grid) (i j : nat) : Z :=
  if (j =? 0)%nat then fst (u !!! i) else snd (u !!! i).

(** [u[i][j] = v]. *)
Definition set2 (u : grid) (i j : nat) (v : Z) : grid :=
  if (j =? 0)%nat then <[i := (v, snd (u !!! i))]> u
  else <[i := (fst (u !!! i), v)]> u.

Definition zero_grid : grid := replicate n (0, 0).
Definition zero_rows : list Z := replicate n 0.

(** ** The generation step: [rules()] *)

(** [(a[i][0] << 8) + a[i][1]] in [unsigned int] arithmetic. *)
Definition pack (u : grid) (i : nat) : Z :=
  uint (uint (Z.shiftl (at2 u i 0) 8) + at2 u i 1).

(** First loop of [rules()] (and the loop of [checkPeriodic()]): the
    16x1 copy of the grid.  The scratch arrays [aTemp], [aTemp2] are
    rewritten in full on every call, so they are local values here. *)
Definition pack_rows (u : grid) : list Z :=
  for_loop 0 n (fun i t => <[i := pack u i]> t) zero_rows.

(** The sum [total] of the eight [bitRead]s around row [i], bit [k]. *)
Definition total (aTemp : list Z) (i k : nat) : Z :=
  let up := ((i + (n - 1)) mod n)%nat in
  let dn := ((i + 1) mod n)%nat in
  let lf := Z.of_nat ((k + (m - 1)) mod m) in
  let rt := Z.of_nat ((k + 1) mod m) in
  bitRead (aTemp !!! up) lf + bitRead (aTemp !!! i) lf + bitRead (aTemp !!! dn) lf
  + bitRead (aTemp !!! up) (Z.of_nat k) + bitRead (aTemp !!! dn) (Z.of_nat k)
  + bitRead (aTemp !!! up) rt + bitRead (aTemp !!! i) rt + bitRead (aTemp !!! dn) rt.

(** Body of the inner loop of [rules()]: reads [aTemp], writes [aTemp2]. *)
Definition rules_cell (aTemp : list Z) (i k : nat) (aTemp2 : list Z) : list Z :=
  let t := total aTemp i k in
  if bitRead (aTemp !!! i) (Z.of_nat k) =? 1 then
    if (t <? 2) || (t >? 3)
    then <[i := bitWrite (aTemp2 !!! i) (Z.of_nat k) 0]> aTemp2
    else aTemp2
  else
    if t =? 3
    then <[i := bitWrite (aTemp2 !!! i) (Z.of_nat k) 1]> aTemp2
    else aTemp2.

(** The two nested loops over [i] and [k]. *)
Definition rules_sweep (aTemp aTemp2 : list Z) : list Z :=
  for_loop 0 n (fun i => for_loop 0 m (fun k => rules_cell aTemp i k)) aTemp2.

(** Last loop of [rules()]: [a[i][0] = aTemp2[i] >> 8; a[i][1] = aTemp2[i] & 255]. *)
Definition unpack_rows (aTemp2 : list Z) (u : grid) : grid :=
  for_loop 0 n
    (fun i u => set2 (set2 u i 0 (Z.shiftr (aTemp2 !!! i) 8)) i 1
                     (Z.land (aTemp2 !!! i) 255)) u.

(** The grid computed by one call of [rules()]. *)
Definition step (u : grid) : grid :=
  let aTemp := pack_rows u in
  let aTemp2 := aTemp in
  unpack_rows (rules_sweep aTemp aTemp2) u.

(** ** Pre-loaded patterns *)

(** The byte written [0b b7 b6 b5 b4 b3 b2 b1 b0] in the sketch. *)
Definition B (b7 b6 b5 b4 b3 b2 b1 b0 : Z) : Z :=
  128 * b7 + 64 * b6 + 32 * b5 + 16 * b4 + 8 * b3 + 4 * b2 + 2 * b1 + b0.

Definition p1 : grid :=
  [ (B 0 0 0 0 0 0 0 0, B 0 0 0 0 0 0 0 0); (B 0 0 0 0 0 0 0 0, B 0 0 0 0 0 0 0 0);
    (B 0 0 0 0 0 0 0 0, B 0 0 0 0 0 0 0 0); (B 0 0 1 1 1 0 0 0, B 0 0 0 0 0 0 0 0);
    (B 0 0 0 0 1 0 0 0, B 0 0 0 0 0 0 0 0); (B 0 0 0 1 0 0 0 0, B 0 0 0 0 0 0 0 0);
    (B 0 0 0 0 0 0 0 0, B 0 0 0 0 0 0 0 0); (B 0 0 0 0 0 0 0 0, B 0 0 0 0 0 0 0 0);
    (B 0 0 0 0 0 0 0 0, B 0 0 0 0 0 0 0 0); (B 0 0 0 0 0 0 0 0, B 0 0 0 0 0 0 0 0);
    (B 0 0 0 0 0 0 0 0, B 0 0 0 0 0 0 0 0); (B 0 0 0 0 0 0 0 0, B 0 0 0 0 0 0 0 0);
    (B 0 0 0 0 0 0 0 0, B 0 0 0 0 0 0 0 0); (B 0 0 0 0 0 0 0 0, B 0 0 0 0 0 0 0 0);
    (B 0 0 0 0 0 0 0 0, B 0 0 0 0 0 0 0 0); (B 0 0 0 0 0 0 0 0, B 0 0 0 0 0 0 0 0) ].

Definition p2 : grid :=
  [ (B 0 0 0 0 0 0 0 0, B 0 0 0 0 0 0 0 0); (B 0 0 0 0 0 0 0 0, B 0 0 0 0 0 0 0 0);
    (B 0 0 0 0 0 0 0 0, B 0 0 0 0 0 0 0 0); (B 0 0 0 0 0 0 0 0, B 0 0 0 0 0 0 0 0);
    (B 0 0 0 0 0 1 0 1, B 1 0 0 0 0 0 0 0); (B 0 0 0 0 1 0 0 0, B 0 0 0 1 0 0 0 0);
    (B 0 0 0 1 1 0 0 0, B 1 0 0 1 0 0 0 0); (B 1 1 0 1 0 0 0 0, B 0 1 1 0 0 0 0 0);
    (B 1 1 0 1 0 0 0 0, B 0 1 1 0 0 0 0 0); (B 0 0 0 1 1 0 0 0, B 1 0 0 1 0 0 0 0);
    (B 0 0 0 0 1 0 0 0, B 0 0 0 1 0 0 0 0); (B 0 0 0 0 0 1 0 1, B 1 0 0 0 0 0 0 0);
    (B 0 0 0 0 0 0 0 0, B 0 0 0 0 0 0 0 0); (B 0 0 0 0 0 0 0 0, B 0 0 0 0 0 0 0 0);
    (B 0 0 0 0 0 0 0 0, B 0 0 0 0 0 0 0 0); (B 0 0 0 0 0 0 0 0, B 0 0 0 0 0 0 0 0) ].

Definition p3 : grid :=
  [ (B 0 0 0 0 0 0 0 0, B 0 0 0 0 0 0 0 0); (B 0 0 0 0 0 0 0 0, B 0 0 0 0 0 0 0 0);
    (B 0 0 0 0 0 0 0 0, B 0 0 0 0 0 0 0 0); (B 0 0 0 0 0 0 0 0, B 0 0 0 0 0 0 0 0);
    (B 0 0 0 1 1 1 0 0, B 0 1 1 1 0 0 0 0); (B 0 0 1 0 0 0 1 0, B 1 0 0 0 1 0 0 0);
    (B 0 0 1 0 0 0 1 0, B 1 0 0 0 1 0 0 0); (B 0 1 0 1 1 1 1 0, B 1 1 1 1 0 1 0 0);
    (B 0 1 1 0 0 0 0 0, B 0 0 0 0 1 1 0 0); (B 0 0 0 0 0 0 0 0, B 0 0 0 0 0 0 0 0);
    (B 0 0 0 0 0 0 0 0, B 0 0 0 0 0 0 0 0); (B 0 0 0 0 0 1 1 0, B 1 1 0 0 0 0 0 0);
    (B 0 0 0 0 1 0 1 0, B 1 0 1 0 0 0 0 0); (B 0 0 0 0 0 1 0 0, B 0 1 0 0 0 0 0 0);
    (B 0 0 0 0 0 0 0 0, B 0 0 0 0 0 0 0 0); (B 0 0 0 0 0 0 0 0, B 0 0 0 0 0 0 0 0) ].

(** ** Global state

    The globals of the sketch that some function writes, the trace of
    the calls made to the display driver, and the random source. *)

(** Calls that leave the sketch: [mat.setRow(addr, row, value)] with its
    [byte] argument, [mat.setIntensity(addr, intensity)] and [delay(ms)]. *)
Inductive event : Type :=
| setRow (addr row : nat) (value : Z)
| setIntensity (addr : nat) (intensity : Z)
| delay (ms : Z).

Record state : Type := mkState {
  potVal : Z;  (* variable for potentiometer *)
  brightness : Z;
  refreshRate : Z;  (* refresh rate in ms *)
  periodic : bool;  (* true when a random grid becomes periodic *)
  current : Z;
  previous : Z;
  timeoutCurrent : Z;
  timeoutPrevious : Z;
  patternSel : Z;  (* pattern select controlled with encoder *)
  counter : Z;  (* counter for saving random patterns *)
  g : Z;  (* generation counter *)
  a : grid;  (* LED matrix *)
  mem : grid;  (* memory for saving new patterns *)
  r1 : list Z;  (* previous grids for checking periodicity *)
  r2 : list Z;
  r3 : list Z;
  r4 : list Z;
  r64 : list Z;
  p4 : grid;  (* grids for saving random patterns *)
  p5 : grid;
  p6 : grid;
  out : list event;  (* calls issued to the display driver and delay(), oldest first *)
  rand : nat -> Z  (* the values random() is going to return, next one at 0 *)
}.

Definition set_potVal (v : Z) (st : state) : state :=
  mkState v (brightness st) (refreshRate st) (periodic st) (current st)
    (previous st) (timeoutCurrent st) (timeoutPrevious st) (patternSel st)
    (counter st) (g st) (a st) (mem st) (r1 st) (r2 st) (r3 st) (r4 st)
    (r64 st) (p4 st) (p5 st) (p6 st) (out st) (rand st).

Definition set_brightness (v : Z) (st : state) : state :=
  mkState (potVal st) v (refreshRate st) (periodic st) (current st)
    (previous st) (timeoutCurrent st) (timeoutPrevious st) (patternSel st)
    (counter st) (g st) (a st) (mem st) (r1 st) (r2 st) (r3 st) (r4 st)
    (r64 st) (p4 st) (p5 st) (p6 st) (out st) (rand st).

Definition set_refreshRate (v : Z) (st : state) : state :=
  mkState (potVal st) (brightness st) v (periodic st) (current st)
    (previous st) (timeoutCurrent st) (timeoutPrevious st) (patternSel st)
    (counter st) (g st) (a st) (mem st) (r1 st) (r2 st) (r3 st) (r4 st)
    (r64 st) (p4 st) (p5 st) (p6 st) (out st) (rand st).

Definition set_periodic (v : bool) (st : state) : state :=
  mkState (potVal st) (brightness st) (refreshRate st) v (current st)
    (previous st) (timeoutCurrent st) (timeoutPrevious st) (patternSel st)
    (counter st) (g st) (a st) (mem st) (r1 st) (r2 st) (r3 st) (r4 st)
    (r64 st) (p4 st) (p5 st) (p6 st) (out st) (rand st).

Definition set_current (v : Z) (st : state) : state :=
  mkState (potVal st) (brightness st) (refreshRate st) (periodic st) v
    (previous st) (timeoutCurrent st) (timeoutPrevious st) (patternSel st)
    (counter st) (g st) (a st) (mem st) (r1 st) (r2 st) (r3 st) (r4 st)
    (r64 st) (p4 st) (p5 st) (p6 st) (out st) (rand st).

Definition set_previous (v : Z) (st : state) : state :=
  mkState (potVal st) (brightness st) (refreshRate st) (periodic st)
    (current st) v (timeoutCurrent st) (timeoutPrevious st) (patternSel st)
    (counter st) (g st) (a st) (mem st) (r1 st) (r2 st) (r3 st) (r4 st)
    (r64 st) (p4 st) (p5 st) (p6 st) (out st) (rand st).

Definition set_timeoutCurrent (v : Z) (st : state) : state :=
  mkState (potVal st) (brightness st) (refreshRate st) (periodic st)
    (current st) (previous st) v (timeoutPrevious st) (patternSel st)
    (counter st) (g st) (a st) (mem st) (r1 st) (r2 st) (r3 st) (r4 st)
    (r64 st) (p4 st) (p5 st) (p6 st) (out st) (rand st).

Definition set_timeoutPrevious (v : Z) (st : state) : state :=
  mkState (potVal st) (brightness st) (refreshRate st) (periodic st)
    (current st) (previous st) (timeoutCurrent st) v (patternSel st)
    (counter st) (g st) (a st) (mem st) (r1 st) (r2 st) (r3 st) (r4 st)
    (r64 st) (p4 st) (p5 st) (p6 st) (out st) (rand st).

Definition set_patternSel (v : Z) (st : state) : state :=
  mkState (potVal st) (brightness st) (refreshRate st) (periodic st)
    (current st) (previous st) (timeoutCurrent st) (timeoutPrevious st) v
    (counter st) (g st) (a st) (mem st) (r1 st) (r2 st) (r3 st) (r4 st)
    (r64 st) (p4 st) (p5 st) (p6 st) (out st) (rand st).

Definition set_counter (v : Z) (st : state) : state :=
  mkState (potVal st) (brightness st) (refreshRate st) (periodic st)
    (current st) (previous st) (timeoutCurrent st) (timeoutPrevious st)
    (patternSel st) v (g st) (a st) (mem st) (r1 st) (r2 st) (r3 st) (r4 st)
    (r64 st) (p4 st) (p5 st) (p6 st) (out st) (rand st).

Definition set_g (v : Z) (st : state) : state :=
  mkState (potVal st) (brightness st) (refreshRate st) (periodic st)
    (current st) (previous st) (timeoutCurrent st) (timeoutPrevious st)
    (patternSel st) (counter st) v (a st) (mem st) (r1 st) (r2 st) (r3 st)
    (r4 st) (r64 st) (p4 st) (p5 st) (p6 st) (out st) (rand st).

Definition set_a (v : grid) (st : state) : state :=
  mkState (potVal st) (brightness st) (refreshRate st) (periodic st)
    (current st) (previous st) (timeoutCurrent st) (timeoutPrevious st)
    (patternSel st) (counter st) (g st) v (mem st) (r1 st) (r2 st) (r3 st)
    (r4 st) (r64 st) (p4 st) (p5 st) (p6 st) (out st) (rand st).

Definition set_mem (v : grid) (st : state) : state :=
  mkState (potVal st) (brightness st) (refreshRate st) (periodic st)
    (current st) (previous st) (timeoutCurrent st) (timeoutPrevious st)
    (patternSel st) (counter st) (g st) (a st) v (r1 st) (r2 st) (r3 st)
    (r4 st) (r64 st) (p4 st) (p5 st) (p6 st) (out st) (rand st).

Definition set_r1 (v : list Z) (st : state) : state :=
  mkState (potVal st) (brightness st) (refreshRate st) (periodic st)
    (current st) (previous st) (timeoutCurrent st) (timeoutPrevious st)
    (patternSel st) (counter st) (g st) (a st) (mem st) v (r2 st) (r3 st)
    (r4 st) (r64 st) (p4 st) (p5 st) (p6 st) (out st) (rand st).

Definition set_r2 (v : list Z) (st : state) : state :=
  mkState (potVal st) (brightness st) (refreshRate st) (periodic st)
    (current st) (previous st) (timeoutCurrent st) (timeoutPrevious st)
    (patternSel st) (counter st) (g st) (a st) (mem st) (r1 st) v (r3 st)
    (r4 st) (r64 st) (p4 st) (p5 st) (p6 st) (out st) (rand st).

Definition set_r3 (v : list Z) (st : state) : state :=
  mkState (potVal st) (brightness st) (refreshRate st) (periodic st)
    (current st) (previous st) (timeoutCurrent st) (timeoutPrevious st)
    (patternSel st) (counter st) (g st) (a st) (mem st) (r1 st) (r2 st) v
    (r4 st) (r64 st) (p4 st) (p5 st) (p6 st) (out st) (rand st).

Definition set_r4 (v : list Z) (st : state) : state :=
  mkState (potVal st) (brightness st) (refreshRate st) (periodic st)
    (current st) (previous st) (timeoutCurrent st) (timeoutPrevious st)
    (patternSel st) (counter st) (g st) (a st) (mem st) (r1 st) (r2 st)
    (r3 st) v (r64 st) (p4 st) (p5 st) (p6 st) (out st) (rand st).

Definition set_r64 (v : list Z) (st : state) : state :=
  mkState (potVal st) (brightness st) (refreshRate st) (periodic st)
    (current st) (previous st) (timeoutCurrent st) (timeoutPrevious st)
    (patternSel st) (counter st) (g st) (a st) (mem st) (r1 st) (r2 st)
    (r3 st) (r4 st) v (p4 st) (p5 st) (p6 st) (out st) (rand st).

Definition set_p4 (v : grid) (st : state) : state :=
  mkState (potVal st) (brightness st) (refreshRate st) (periodic st)
    (current st) (previous st) (timeoutCurrent st) (timeoutPrevious st)
    (patternSel st) (counter st) (g st) (a st) (mem st) (r1 st) (r2 st)
    (r3 st) (r4 st) (r64 st) v (p5 st) (p6 st) (out st) (rand st).

Definition set_p5 (v : grid) (st : state) : state :=
  mkState (potVal st) (brightness st) (refreshRate st) (periodic st)
    (current st) (previous st) (timeoutCurrent st) (timeoutPrevious st)
    (patternSel st) (counter st) (g st) (a st) (mem st) (r1 st) (r2 st)
    (r3 st) (r4 st) (r64 st) (p4 st) v (p6 st) (out st) (rand st).

Definition set_p6 (v : grid) (st : state) : state :=
  mkState (potVal st) (brightness st) (refreshRate st) (periodic st)
    (current st) (previous st) (timeoutCurrent st) (timeoutPrevious st)
    (patternSel st) (counter st) (g st) (a st) (mem st) (r1 st) (r2 st)
    (r3 st) (r4 st) (r64 st) (p4 st) (p5 st) v (out st) (rand st).

Definition set_out (v : list event) (st : state) : state :=
  mkState (potVal st) (brightness st) (refreshRate st) (periodic st)
    (current st) (previous st) (timeoutCurrent st) (timeoutPrevious st)
    (patternSel st) (counter st) (g st) (a st) (mem st) (r1 st) (r2 st)
    (r3 st) (r4 st) (r64 st) (p4 st) (p5 st) (p6 st) v (rand st).

Definition set_rand (v : nat -> Z) (st : state) : state :=
  mkState (potVal st) (brightness st) (refreshRate st) (periodic st)
    (current st) (previous st) (timeoutCurrent st) (timeoutPrevious st)
    (patternSel st) (counter st) (g st) (a st) (mem st) (r1 st) (r2 st)
    (r3 st) (r4 st) (r64 st) (p4 st) (p5 st) (p6 st) (out st) v.

(** Constants of the sketch that are never assigned. *)
Definition minSpeed : Z := 42.
Definition maxSpeed : Z := 2500.
Definition periodicTimeout : Z := 5000.
Definition lim : Z := 9.

(** ** Display: [updateDisplay], [updateDisplayScan] *)

(** [mat.setRow(addr, row, value)]: the value is passed as a [byte]. *)
Definition mat_setRow (addr row : nat) (value : Z) (st : state) : state :=
  set_out (out st ++ [setRow addr row (value mod 256)]) st.

Definition mat_setIntensity (addr : nat) (intensity : Z) (st : state) : state :=
  set_out (out st ++ [setIntensity addr intensity]) st.

Definition do_delay (ms : Z) (st : state) : state :=
  set_out (out st ++ [delay (uint ms)]) st.

Definition updateDisplay (u : grid) (st : state) : state :=
  for_loop 0 s
    (fun i st =>
       let st := mat_setRow 0 i (at2 u (i + 8) 1) st in
       let st := mat_setRow 1 i (at2 u (i + 8) 0) st in
       let st := mat_setRow 2 i (at2 u i 1) st in
       mat_setRow 3 i (at2 u i 0) st) st.

Definition updateDisplayScan (u : grid) (st : state) : state :=
  let z := sint (map (refreshRate st) 42 1000 0 50) in
  let st :=
    for_loop 0 s
      (fun i st =>
         let st := mat_setRow 2 i (at2 u i 1) st in
         let st := mat_setRow 3 i (at2 u i 0) st in
         do_delay (z ÷ 2) st) st in
  for_loop 0 s
    (fun i st =>
       let st := mat_setRow 0 i (at2 u (i + 8) 1) st in
       let st := mat_setRow 1 i (at2 u (i + 8) 0) st in
       do_delay (z ÷ 2) st) st.

(** ** Random grids: [generateData] *)

(** [random(howbig)]: the next value of the generator, reduced to
    [0 .. howbig-1]. *)
Definition random (howbig : Z) (st : state) : Z * state :=
  (rand st 0%nat mod howbig, set_rand (fun k => rand st (S k)) st).

Definition generateData (st : state) : state :=
  for_loop 0 n
    (fun i =>
       for_loop 0 x
         (fun j st =>
            let '(rando, st) := random 256 st in
            let st := set_a (set2 (a st) i j rando) st in
            set_mem (set2 (mem st) i j rando) st)) st.

(** ** The generation step on the state: [rules] *)

Definition rules (st : state) : state :=
  let st := set_a (step (a st)) st in
  let st := updateDisplayScan (a st) st in
  set_g (sint (g st + 1)) st.

(** ** Periodicity detector: [checkPeriodic] *)

Definition checkPeriodic (st : state) : state :=
  let st := set_r4 (r3 st) st in
  let st := set_r3 (r2 st) st in
  let st := set_r2 (r1 st) st in
  let st := set_r1 (pack_rows (a st)) st in
  let check1 := memcmp (r1 st) (r2 st) in
  let check2 := memcmp (r1 st) (r3 st) in
  let check3 := memcmp (r1 st) (r4 st) in
  let st :=
    if Z.rem (g st) 64 =? 0 then
      let check64 := memcmp (r1 st) (r64 st) in
      let st :=
        if check64 =? 0
        then set_timeoutPrevious (timeoutCurrent st) (set_periodic true st)
        else st in
      set_r64 (r1 st) st
    else st in
  if (check1 =? 0) || (check2 =? 0) || (check3 =? 0)
  then set_timeoutPrevious (timeoutCurrent st) (set_periodic true st)
  else st.

(** ** Page selection: [patterns], [pattern], [readButt] *)

Definition patterns (st : state) : state :=
  if patternSel st =? 0 then
    let st := set_periodic false st in
    let st := generateData st in
    let st := updateDisplay (a st) st in
    set_previous (current st) st
  else if patternSel st =? 1 then
    let st := set_a p1 st in
    let st := updateDisplay (a st) st in
    set_previous (current st) st
  else if patternSel st =? 2 then
    let st := set_a p2 st in
    let st := updateDisplay (a st) st in
    set_previous (current st) st
  else if patternSel st =? 3 then
    let st := set_a p3 st in
    let st := updateDisplay (a st) st in
    let st := set_periodic false st in
    set_previous (current st) st
  else if patternSel st =? 4 then
    let st := set_a (p4 st) st in
    let st := updateDisplay (a st) st in
    let st := set_periodic false st in
    set_previous (current st) st
  else if patternSel st =? 5 then
    let st := set_a (p5 st) st in
    let st := updateDisplay (a st) st in
    let st := set_periodic false st in
    set_previous (current st) st
  else if patternSel st =? 6 then
    let st := set_a (p6 st) st in
    let st := updateDisplay (a st) st in
    let st := set_periodic false st in
    set_previous (current st) st
  else st.

(** Result of [enc.process()] (Rotary library). *)
Inductive enc_result : Type := DIR_NONE | DIR_CW | DIR_CCW.

(** Interrupt handler of the two encoder lines. *)
Definition pattern (result : enc_result) (st : state) : state :=
  match result with
  | DIR_CW =>
      let st := set_patternSel (sint (patternSel st + 1)) st in
      let st := set_patternSel (constrain (patternSel st) 0 lim) st in
      patterns st
  | DIR_CCW =>
      let st := set_patternSel (sint (patternSel st - 1)) st in
      let st := set_patternSel (constrain (patternSel st) 0 lim) st in
      patterns st
  | DIR_NONE => st
  end.

(** [readButt()]; [wasPressed] is the answer of [butt1.wasPressed()]. *)
Definition readButt (wasPressed : bool) (st : state) : state :=
  if wasPressed then
    if patternSel st =? 0 then
      let c := Z.rem (counter st) 3 in
      if c =? 0 then
        let st := set_p4 (mem st) st in
        let st := set_counter (sint (counter st + 1)) st in
        let st := set_patternSel 4 st in
        patterns st
      else if c =? 1 then
        let st := set_p5 (mem st) st in
        let st := set_counter (sint (counter st + 1)) st in
        let st := set_patternSel 5 st in
        patterns st
      else if c =? 2 then
        let st := set_p6 (mem st) st in
        let st := set_counter (sint (counter st + 1)) st in
        let st := set_patternSel 6 st in
        patterns st
      else st
    else
      let st := set_patternSel 0 st in
      patterns st
  else st.

(** ** Potentiometer: [readPot]

    [reading] is the answer of [analogRead(pot)], [pressedFor] the answer
    of [butt1.pressedFor(buttonLongPress)]. *)
Definition readPot (reading : Z) (pressedFor : bool) (st : state) : state :=
  let st := set_potVal reading st in
  let st := set_refreshRate (sint (map (potVal st) 970 10 minSpeed maxSpeed)) st in
  let st := set_refreshRate (constrain (refreshRate st) 42 2500) st in
  if pressedFor then
    let st := set_brightness (sint (map (potVal st) 0 970 0 15)) st in
    for_loop 0 (x * y) (fun i st => mat_setIntensity i (brightness st) st) st
  else st.

(** ** Main loop *)

(** The block of [loop()] run when a refresh period has elapsed;
    [now] is the reading of [millis()] taken for [timeoutCurrent]. *)
Definition tick (now : Z) (st : state) : state :=
  let st := rules st in
  let st := set_previous (current st) st in
  let st := set_timeoutCurrent now st in
  if negb (periodic st) then checkPeriodic st
  else if uint (timeoutCurrent st - timeoutPrevious st) >=? periodicTimeout
       then patterns st
       else st.

(** Answers of the collaborators during one pass of [loop()]. *)
Record inputs : Type := mkInputs {
  in_analogRead : Z;
  in_pressedFor : bool;
  in_wasPressed : bool;
  in_millis : Z;
  in_millis_tick : Z
}.

Definition loop (i : inputs) (st : state) : state :=
  let st := readPot (in_analogRead i) (in_pressedFor i) st in
  let st := readButt (in_wasPressed i) st in
  let st := set_current (in_millis i) st in
  let st :=
    if uint (current st - previous st) >=? uint (refreshRate st)
    then tick (in_millis_tick i) st
    else st in
  do_delay 1 st.

(** The globals as the sketch initialises them, with the random source
    [rnd]; arrays without initialiser are zero. *)
Definition globals0 (rnd : nat -> Z) : state :=
  {| potVal := 0; brightness := 0; refreshRate := 100; periodic := false;
     current := 0; previous := 0; timeoutCurrent := 0; timeoutPrevious := 0;
     patternSel := 1; counter := 0; g := 0;
     a := zero_grid; mem := zero_grid;
     r1 := zero_rows; r2 := zero_rows; r3 := zero_rows; r4 := zero_rows;
     r64 := zero_rows;
     p4 := zero_grid; p5 := zero_grid; p6 := zero_grid;
     out := []; rand := rnd |}.

(** The end of [setup()], after the display initialisation and the
    ripple animation: [memcpy(a, p1, sizeof(a)); updateDisplay(a);
    previous = millis(); timeoutPrevious = millis();]. *)
Definition setup_end (now1 now2 : Z) (st : state) : state :=
  let st := set_a p1 st in
  let st := updateDisplay (a st) st in
  let st := set_previous now1 st in
  set_timeoutPrevious now2 st.

Definition boot (rnd : nat -> Z) : state := setup_end 0 0 (globals0 rnd).

(** ** Ripple animation: [rip], [updateDisplayRipple], [rippleTest] *)

(** [unsigned int rip[15][n][x]]: the fifteen masks of the animation. *)
Definition rip : list (list (Z * Z)) :=
[
  [ (B 0 0 0 0 0 0 0 0, B 0 0 0 0 0 0 0 0); (B 0 0 0 0 0 0 0 0, B 0 0 0 0 0 0 0 0);
    (B 0 0 0 0 0 0 0 0, B 0 0 0 0 0 0 0 0); (B 0 0 0 0 0 0 0 0, B 0 0 0 0 0 0 0 0);
    (B 0 0 0 0 0 0 0 0, B 0 0 0 0 0 0 0 0); (B 0 0 0 0 0 0 0 0, B 0 0 0 0 0 0 0 0);
    (B 0 0 0 0 0 0 0 0, B 0 0 0 0 0 0 0 0); (B 0 0 0 0 0 0 0 1, B 1 0 0 0 0 0 0 0);
    (B 0 0 0 0 0 0 0 1, B 1 0 0 0 0 0 0 0); (B 0 0 0 0 0 0 0 0, B 0 0 0 0 0 0 0 0);
    (B 0 0 0 0 0 0 0 0, B 0 0 0 0 0 0 0 0); (B 0 0 0 0 0 0 0 0, B 0 0 0 0 0 0 0 0);
    (B 0 0 0 0 0 0 0 0, B 0 0 0 0 0 0 0 0); (B 0 0 0 0 0 0 0 0, B 0 0 0 0 0 0 0 0);
    (B 0 0 0 0 0 0 0 0, B 0 0 0 0 0 0 0 0); (B 0 0 0 0 0 0 0 0, B 0 0 0 0 0 0 0 0) ];

  [ (B 0 0 0 0 0 0 0 0, B 0 0 0 0 0 0 0 0); (B 0 0 0 0 0 0 0 0, B 0 0 0 0 0 0 0 0);
    (B 0 0 0 0 0 0 0 0, B 0 0 0 0 0 0 0 0); (B 0 0 0 0 0 0 0 0, B 0 0 0 0 0 0 0 0);
    (B 0 0 0 0 0 0 0 0, B 0 0 0 0 0 0 0 0); (B 0 0 0 0 0 0 0 0, B 0 0 0 0 0 0 0 0);
    (B 0 0 0 0 0 0 0 1, B 1 0 0 0 0 0 0 0); (B 0 0 0 0 0 0 1 1, B 1 1 0 0 0 0 0 0);
    (B 0 0 0 0 0 0 1 1, B 1 1 0 0 0 0 0 0); (B 0 0 0 0 0 0 0 1, B 1 0 0 0 0 0 0 0);
    (B 0 0 0 0 0 0 0 0, B 0 0 0 0 0 0 0 0); (B 0 0 0 0 0 0 0 0, B 0 0 0 0 0 0 0 0);
    (B 0 0 0 0 0 0 0 0, B 0 0 0 0 0 0 0 0); (B 0 0 0 0 0 0 0 0, B 0 0 0 0 0 0 0 0);
    (B 0 0 0 0 0 0 0 0, B 0 0 0 0 0 0 0 0); (B 0 0 0 0 0 0 0 0, B 0 0 0 0 0 0 0 0) ];

  [ (B 0 0 0 0 0 0 0 0, B 0 0 0 0 0 0 0 0); (B 0 0 0 0 0 0 0 0, B 0 0 0 0 0 0 0 0);
    (B 0 0 0 0 0 0 0 0, B 0 0 0 0 0 0 0 0); (B 0 0 0 0 0 0 0 0, B 0 0 0 0 0 0 0 0);
    (B 0 0 0 0 0 0 0 0, B 0 0 0 0 0 0 0 0); (B 0 0 0 0 0 0 0 1, B 1 0 0 0 0 0 0 0);
    (B 0 0 0 0 0 0 1 1, B 1 1 0 0 0 0 0 0); (B 0 0 0 0 0 1 1 1, B 1 1 1 0 0 0 0 0);
    (B 0 0 0 0 0 1 1 1, B 1 1 1 0 0 0 0 0); (B 0 0 0 0 0 0 1 1, B 1 1 0 0 0 0 0 0);
    (B 0 0 0 0 0 0 0 1, B 1 0 0 0 0 0 0 0); (B 0 0 0 0 0 0 0 0, B 0 0 0 0 0 0 0 0);
    (B 0 0 0 0 0 0 0 0, B 0 0 0 0 0 0 0 0); (B 0 0 0 0 0 0 0 0, B 0 0 0 0 0 0 0 0);
    (B 0 0 0 0 0 0 0 0, B 0 0 0 0 0 0 0 0); (B 0 0 0 0 0 0 0 0, B 0 0 0 0 0 0 0 0) ];

  [ (B 0 0 0 0 0 0 0 0, B 0 0 0 0 0 0 0 0); (B 0 0 0 0 0 0 0 0, B 0 0 0 0 0 0 0 0);
    (B 0 0 0 0 0 0 0 0, B 0 0 0 0 0 0 0 0); (B 0 0 0 0 0 0 0 0, B 0 0 0 0 0 0 0 0);
    (B 0 0 0 0 0 0 0 1, B 1 0 0 0 0 0 0 0); (B 0 0 0 0 0 0 1 1, B 1 1 0 0 0 0 0 0);
    (B 0 0 0 0 0 1 1 1, B 1 1 1 0 0 0 0 0); (B 0 0 0 0 1 1 1 1, B 1 1 1 1 0 0 0 0);
    (B 0 0 0 0 1 1 1 1, B 1 1 1 1 0 0 0 0); (B 0 0 0 0 0 1 1 1, B 1 1 1 0 0 0 0 0);
    (B 0 0 0 0 0 0 1 1, B 1 1 0 0 0 0 0 0); (B 0 0 0 0 0 0 0 1, B 1 0 0 0 0 0 0 0);
    (B 0 0 0 0 0 0 0 0, B 0 0 0 0 0 0 0 0); (B 0 0 0 0 0 0 0 0, B 0 0 0 0 0 0 0 0);
    (B 0 0 0 0 0 0 0 0, B 0 0 0 0 0 0 0 0); (B 0 0 0 0 0 0 0 0, B 0 0 0 0 0 0 0 0) ];

  [ (B 0 0 0 0 0 0 0 0, B 0 0 0 0 0 0 0 0); (B 0 0 0 0 0 0 0 0, B 0 0 0 0 0 0 0 0);
    (B 0 0 0 0 0 0 0 0, B 0 0 0 0 0 0 0 0); (B 0 0 0 0 0 0 0 1, B 1 0 0 0 0 0 0 0);
    (B 0 0 0 0 0 0 1 1, B 1 1 0 0 0 0 0 0); (B 0 0 0 0 0 1 1 1, B 1 1 1 0 0 0 0 0);
    (B 0 0 0 0 1 1 1 1, B 1 1 1 1 0 0 0 0); (B 0 0 0 1 1 1 1 1, B 1 1 1 1 1 0 0 0);
    (B 0 0 0 1 1 1 1 1, B 1 1 1 1 1 0 0 0); (B 0 0 0 0 1 1 1 1, B 1 1 1 1 0 0 0 0);
    (B 0 0 0 0 0 1 1 1, B 1 1 1 0 0 0 0 0); (B 0 0 0 0 0 0 1 1, B 1 1 0 0 0 0 0 0);
    (B 0 0 0 0 0 0 0 1, B 1 0 0 0 0 0 0 0); (B 0 0 0 0 0 0 0 0, B 0 0 0 0 0 0 0 0);
    (B 0 0 0 0 0 0 0 0, B 0 0 0 0 0 0 0 0); (B 0 0 0 0 0 0 0 0, B 0 0 0 0 0 0 0 0) ];

  [ (B 0 0 0 0 0 0 0 0, B 0 0 0 0 0 0 0 0); (B 0 0 0 0 0 0 0 0, B 0 0 0 0 0 0 0 0);
    (B 0 0 0 0 0 0 0 1, B 1 0 0 0 0 0 0 0); (B 0 0 0 0 0 0 1 1, B 1 1 0 0 0 0 0 0);
    (B 0 0 0 0 0 1 1 1, B 1 1 1 0 0 0 0 0); (B 0 0 0 0 1 1 1 1, B 1 1 1 1 0 0 0 0);
    (B 0 0 0 1 1 1 1 1, B 1 1 1 1 1 0 0 0); (B 0 0 1 1 1 1 1 1, B 1 1 1 1 1 1 0 0);
    (B 0 0 1 1 1 1 1 1, B 1 1 1 1 1 1 0 0); (B 0 0 0 1 1 1 1 1, B 1 1 1 1 1 0 0 0);
    (B 0 0 0 0 1 1 1 1, B 1 1 1 1 0 0 0 0); (B 0 0 0 0 0 1 1 1, B 1 1 1 0 0 0 0 0);
    (B 0 0 0 0 0 0 1 1, B 1 1 0 0 0 0 0 0); (B 0 0 0 0 0 0 0 1, B 1 0 0 0 0 0 0 0);
    (B 0 0 0 0 0 0 0 0, B 0 0 0 0 0 0 0 0); (B 0 0 0 0 0 0 0 0, B 0 0 0 0 0 0 0 0) ];

  [ (B 0 0 0 0 0 0 0 0, B 0 0 0 0 0 0 0 0); (B 0 0 0 0 0 0 0 1, B 1 0 0 0 0 0 0 0);
    (B 0 0 0 0 0 0 1 1, B 1 1 0 0 0 0 0 0); (B 0 0 0 0 0 1 1 1, B 1 1 1 0 0 0 0 0);
    (B 0 0 0 0 1 1 1 1, B 1 1 1 1 0 0 0 0); (B 0 0 0 1 1 1 1 1, B 1 1 1 1 1 0 0 0);
    (B 0 0 1 1 1 1 1 1, B 1 1 1 1 1 1 0 0); (B 0 1 1 1 1 1 1 1, B 1 1 1 1 1 1 1 0);
    (B 0 1 1 1 1 1 1 1, B 1 1 1 1 1 1 1 0); (B 0 0 1 1 1 1 1 1, B 1 1 1 1 1 1 0 0);
    (B 0 0 0 1 1 1 1 1, B 1 1 1 1 1 0 0 0); (B 0 0 0 0 1 1 1 1, B 1 1 1 1 0 0 0 0);
    (B 0 0 0 0 0 1 1 1, B 1 1 1 0 0 0 0 0); (B 0 0 0 0 0 0 1 1, B 1 1 0 0 0 0 0 0);
    (B 0 0 0 0 0 0 0 1, B 1 0 0 0 0 0 0 0); (B 0 0 0 0 0 0 0 0, B 0 0 0 0 0 0 0 0) ];

  [ (B 0 0 0 0 0 0 0 1, B 1 0 0 0 0 0 0 0); (B 0 0 0 0 0 0 1 1, B 1 1 0 0 0 0 0 0);
    (B 0 0 0 0 0 1 1 1, B 1 1 1 0 0 0 0 0); (B 0 0 0 0 1 1 1 1, B 1 1 1 1 0 0 0 0);
    (B 0 0 0 1 1 1 1 1, B 1 1 1 1 1 0 0 0); (B 0 0 1 1 1 1 1 1, B 1 1 1 1 1 1 0 0);
    (B 0 1 1 1 1 1 1 1, B 1 1 1 1 1 1 1 0); (B 1 1 1 1 1 1 1 1, B 1 1 1 1 1 1 1 1);
    (B 1 1 1 1 1 1 1 1, B 1 1 1 1 1 1 1 1); (B 0 1 1 1 1 1 1 1, B 1 1 1 1 1 1 1 0);
    (B 0 0 1 1 1 1 1 1, B 1 1 1 1 1 1 0 0); (B 0 0 0 1 1 1 1 1, B 1 1 1 1 1 0 0 0);
    (B 0 0 0 0 1 1 1 1, B 1 1 1 1 0 0 0 0); (B 0 0 0 0 0 1 1 1, B 1 1 1 0 0 0 0 0);
    (B 0 0 0 0 0 0 1 1, B 1 1 0 0 0 0 0 0); (B 0 0 0 0 0 0 0 1, B 1 0 0 0 0 0 0 0) ];

  [ (B 0 0 0 0 0 0 1 1, B 1 1 0 0 0 0 0 0); (B 0 0 0 0 0 1 1 1, B 1 1 1 0 0 0 0 0);
    (B 0 0 0 0 1 1 1 1, B 1 1 1 1 0 0 0 0); (B 0 0 0 1 1 1 1 1, B 1 1 1 1 1 0 0 0);
    (B 0 0 1 1 1 1 1 1, B 1 1 1 1 1 1 0 0); (B 0 1 1 1 1 1 1 1, B 1 1 1 1 1 1 1 0);
    (B 1 1 1 1 1 1 1 1, B 1 1 1 1 1 1 1 1); (B 1 1 1 1 1 1 1 1, B 1 1 1 1 1 1 1 1);
    (B 1 1 1 1 1 1 1 1, B 1 1 1 1 1 1 1 1); (B 1 1 1 1 1 1 1 1, B 1 1 1 1 1 1 1 1);
    (B 0 1 1 1 1 1 1 1, B 1 1 1 1 1 1 1 0); (B 0 0 1 1 1 1 1 1, B 1 1 1 1 1 1 0 0);
    (B 0 0 0 1 1 1 1 1, B 1 1 1 1 1 0 0 0); (B 0 0 0 0 1 1 1 1, B 1 1 1 1 0 0 0 0);
    (B 0 0 0 0 0 1 1 1, B 1 1 1 0 0 0 0 0); (B 0 0 0 0 0 0 1 1, B 1 1 0 0 0 0 0 0) ];

  [ (B 0 0 0 0 0 1 1 1, B 1 1 1 0 0 0 0 0); (B 0 0 0 0 1 1 1 1, B 1 1 1 1 0 0 0 0);
    (B 0 0 0 1 1 1 1 1, B 1 1 1 1 1 0 0 0); (B 0 0 1 1 1 1 1 1, B 1 1 1 1 1 1 0 0);
    (B 0 1 1 1 1 1 1 1, B 1 1 1 1 1 1 1 0); (B 1 1 1 1 1 1 1 1, B 1 1 1 1 1 1 1 1);
    (B 1 1 1 1 1 1 1 1, B 1 1 1 1 1 1 1 1); (B 1 1 1 1 1 1 1 1, B 1 1 1 1 1 1 1 1);
    (B 1 1 1 1 1 1 1 1, B 1 1 1 1 1 1 1 1); (B 1 1 1 1 1 1 1 1, B 1 1 1 1 1 1 1 1);
    (B 1 1 1 1 1 1 1 1, B 1 1 1 1 1 1 1 1); (B 0 1 1 1 1 1 1 1, B 1 1 1 1 1 1 1 0);
    (B 0 0 1 1 1 1 1 1, B 1 1 1 1 1 1 0 0); (B 0 0 0 1 1 1 1 1, B 1 1 1 1 1 0 0 0);
    (B 0 0 0 0 1 1 1 1, B 1 1 1 1 0 0 0 0); (B 0 0 0 0 0 1 1 1, B 1 1 1 0 0 0 0 0) ];

  [ (B 0 0 0 0 1 1 1 1, B 1 1 1 1 0 0 0 0); (B 0 0 0 1 1 1 1 1, B 1 1 1 1 1 0 0 0);
    (B 0 0 1 1 1 1 1 1, B 1 1 1 1 1 1 0 0); (B 0 1 1 1 1 1 1 1, B 1 1 1 1 1 1 1 0);
    (B 1 1 1 1 1 1 1 1, B 1 1 1 1 1 1 1 1); (B 1 1 1 1 1 1 1 1, B 1 1 1 1 1 1 1 1);
    (B 1 1 1 1 1 1 1 1, B 1 1 1 1 1 1 1 1); (B 1 1 1 1 1 1 1 1, B 1 1 1 1 1 1 1 1);
    (B 1 1 1 1 1 1 1 1, B 1 1 1 1 1 1 1 1); (B 1 1 1 1 1 1 1 1, B 1 1 1 1 1 1 1 1);
    (B 1 1 1 1 1 1 1 1, B 1 1 1 1 1 1 1 1); (B 1 1 1 1 1 1 1 1, B 1 1 1 1 1 1 1 1);
    (B 0 1 1 1 1 1 1 1, B 1 1 1 1 1 1 1 0); (B 0 0 1 1 1 1 1 1, B 1 1 1 1 1 1 0 0);
    (B 0 0 0 1 1 1 1 1, B 1 1 1 1 1 0 0 0); (B 0 0 0 0 1 1 1 1, B 1 1 1 1 0 0 0 0) ];

  [ (B 0 0 0 1 1 1 1 1, B 1 1 1 1 1 0 0 0); (B 0 0 1 1 1 1 1 1, B 1 1 1 1 1 1 0 0);
    (B 0 1 1 1 1 1 1 1, B 1 1 1 1 1 1 1 0); (B 1 1 1 1 1 1 1 1, B 1 1 1 1 1 1 1 1);
    (B 1 1 1 1 1 1 1 1, B 1 1 1 1 1 1 1 1); (B 1 1 1 1 1 1 1 1, B 1 1 1 1 1 1 1 1);
    (B 1 1 1 1 1 1 1 1, B 1 1 1 1 1 1 1 1); (B 1 1 1 1 1 1 1 1, B 1 1 1 1 1 1 1 1);
    (B 1 1 1 1 1 1 1 1, B 1 1 1 1 1 1 1 1); (B 1 1 1 1 1 1 1 1, B 1 1 1 1 1 1 1 1);
    (B 1 1 1 1 1 1 1 1, B 1 1 1 1 1 1 1 1); (B 1 1 1 1 1 1 1 1, B 1 1 1 1 1 1 1 1);
    (B 1 1 1 1 1 1 1 1, B 1 1 1 1 1 1 1 1); (B 0 1 1 1 1 1 1 1, B 1 1 1 1 1 1 1 0);
    (B 0 0 1 1 1 1 1 1, B 1 1 1 1 1 1 0 0); (B 0 0 0 1 1 1 1 1, B 1 1 1 1 1 0 0 0) ];

  [ (B 0 0 1 1 1 1 1 1, B 1 1 1 1 1 1 0 0); (B 0 1 1 1 1 1 1 1, B 1 1 1 1 1 1 1 0);
    (B 1 1 1 1 1 1 1 1, B 1 1 1 1 1 1 1 1); (B 1 1 1 1 1 1 1 1, B 1 1 1 1 1 1 1 1);
    (B 1 1 1 1 1 1 1 1, B 1 1 1 1 1 1 1 1); (B 1 1 1 1 1 1 1 1, B 1 1 1 1 1 1 1 1);
    (B 1 1 1 1 1 1 1 1, B 1 1 1 1 1 1 1 1); (B 1 1 1 1 1 1 1 1, B 1 1 1 1 1 1 1 1);
    (B 1 1 1 1 1 1 1 1, B 1 1 1 1 1 1 1 1); (B 1 1 1 1 1 1 1 1, B 1 1 1 1 1 1 1 1);
    (B 1 1 1 1 1 1 1 1, B 1 1 1 1 1 1 1 1); (B 1 1 1 1 1 1 1 1, B 1 1 1 1 1 1 1 1);
    (B 1 1 1 1 1 1 1 1, B 1 1 1 1 1 1 1 1); (B 1 1 1 1 1 1 1 1, B 1 1 1 1 1 1 1 1);
    (B 0 1 1 1 1 1 1 1, B 1 1 1 1 1 1 1 0); (B 0 0 1 1 1 1 1 1, B 1 1 1 1 1 1 0 0) ];

  [ (B 0 1 1 1 1 1 1 1, B 1 1 1 1 1 1 1 0); (B 1 1 1 1 1 1 1 1, B 1 1 1 1 1 1 1 1);
    (B 1 1 1 1 1 1 1 1, B 1 1 1 1 1 1 1 1); (B 1 1 1 1 1 1 1 1, B 1 1 1 1 1 1 1 1);
    (B 1 1 1 1 1 1 1 1, B 1 1 1 1 1 1 1 1); (B 1 1 1 1 1 1 1 1, B 1 1 1 1 1 1 1 1);
    (B 1 1 1 1 1 1 1 1, B 1 1 1 1 1 1 1 1); (B 1 1 1 1 1 1 1 1, B 1 1 1 1 1 1 1 1);
    (B 1 1 1 1 1 1 1 1, B 1 1 1 1 1 1 1 1); (B 1 1 1 1 1 1 1 1, B 1 1 1 1 1 1 1 1);
    (B 1 1 1 1 1 1 1 1, B 1 1 1 1 1 1 1 1); (B 1 1 1 1 1 1 1 1, B 1 1 1 1 1 1 1 1);
    (B 1 1 1 1 1 1 1 1, B 1 1 1 1 1 1 1 1); (B 1 1 1 1 1 1 1 1, B 1 1 1 1 1 1 1 1);
    (B 1 1 1 1 1 1 1 1, B 1 1 1 1 1 1 1 1); (B 0 1 1 1 1 1 1 1, B 1 1 1 1 1 1 1 0) ];

  [ (B 1 1 1 1 1 1 1 1, B 1 1 1 1 1 1 1 1); (B 1 1 1 1 1 1 1 1, B 1 1 1 1 1 1 1 1);
    (B 1 1 1 1 1 1 1 1, B 1 1 1 1 1 1 1 1); (B 1 1 1 1 1 1 1 1, B 1 1 1 1 1 1 1 1);
    (B 1 1 1 1 1 1 1 1, B 1 1 1 1 1 1 1 1); (B 1 1 1 1 1 1 1 1, B 1 1 1 1 1 1 1 1);
    (B 1 1 1 1 1 1 1 1, B 1 1 1 1 1 1 1 1); (B 1 1 1 1 1 1 1 1, B 1 1 1 1 1 1 1 1);
    (B 1 1 1 1 1 1 1 1, B 1 1 1 1 1 1 1 1); (B 1 1 1 1 1 1 1 1, B 1 1 1 1 1 1 1 1);
    (B 1 1 1 1 1 1 1 1, B 1 1 1 1 1 1 1 1); (B 1 1 1 1 1 1 1 1, B 1 1 1 1 1 1 1 1);
    (B 1 1 1 1 1 1 1 1, B 1 1 1 1 1 1 1 1); (B 1 1 1 1 1 1 1 1, B 1 1 1 1 1 1 1 1);
    (B 1 1 1 1 1 1 1 1, B 1 1 1 1 1 1 1 1); (B 1 1 1 1 1 1 1 1, B 1 1 1 1 1 1 1 1) ]
].

(** First loop nest of [updateDisplayRipple(u)]: what it leaves in the
    array [ripMem].  In the sketch [ripMem] is a global that only this
    function uses; the nest writes each of its entries before the display
    loop reads any, so the state does not carry it and the value is
    computed here from the zero-initialised array ([ripMem_fill] below is
    the same nest run on what the array held before). *)
Definition ripMem_of (u : grid) : list (list (Z * Z)) :=
  for_loop 0 15
    (fun q =>
       for_loop 0 n
         (fun i =>
            for_loop 0 x
              (fun j (ripMem : list (list (Z * Z))) =>
                 <[q := set2 (ripMem !!! q) i j
                          (Z.land (at2 u i j) (at2 (rip !!! q) i j))]> ripMem)))
    (replicate 15 zero_grid).

(** The same loop nest on the global array: [rm] is what [ripMem] held
    when [updateDisplayRipple(u)] was called. *)
Definition ripMem_fill (u : grid) (rm : list (list (Z * Z))) : list (list (Z * Z)) :=
  for_loop 0 15
    (fun q =>
       for_loop 0 n
         (fun i =>
            for_loop 0 x
              (fun j (ripMem : list (list (Z * Z))) =>
                 <[q := set2 (ripMem !!! q) i j
                          (Z.land (at2 u i j) (at2 (rip !!! q) i j))]> ripMem)))
    rm.

(** [updateDisplayRipple(u)]. *)
Definition updateDisplayRipple (u : grid) (st : state) : state :=
  let z := sint (map (refreshRate st) 42 1000 0 20) in
  let ripMem := ripMem_of u in
  for_loop 0 15
    (fun q st =>
       let st :=
         for_loop 0 s
           (fun i st =>
              let st := mat_setRow 0 i (at2 (ripMem !!! q) (i + 8) 1) st in
              let st := mat_setRow 1 i (at2 (ripMem !!! q) (i + 8) 0) st in
              let st := mat_setRow 2 i (at2 (ripMem !!! q) i 1) st in
              mat_setRow 3 i (at2 (ripMem !!! q) i 0) st) st in
       do_delay z st) st.

(** [rippleTest()]: the masks themselves, 50 ms apart. *)
Definition rippleTest (st : state) : state :=
  for_loop 0 15
    (fun q st =>
       let st :=
         for_loop 0 s
           (fun i st =>
              let st := mat_setRow 0 i (at2 (rip !!! q) (i + 8) 1) st in
              let st := mat_setRow 1 i (at2 (rip !!! q) (i + 8) 0) st in
              let st := mat_setRow 2 i (at2 (rip !!! q) i 1) st in
              mat_setRow 3 i (at2 (rip !!! q) i 0) st) st in
       do_delay 50 st) st.

(** * Vocabulary of the specification

    Notions used to state the properties: what a function may write,
    logical cells and their neighbourhood, what the display shows, and
    the events the properties range over. *)

(** The display routines only extend the trace. *)
Definition writes_out_only (st st' : state) : Prop :=
  exists o, st' = set_out o st.

(** [generateData] writes [a], [mem] and draws from the random source. *)
Definition writes_grid_only (st st' : state) : Prop :=
  exists a' mem' rand', st' = set_rand rand' (set_mem mem' (set_a a' st)).

(** [patterns] writes at most [periodic], [a], [mem], [previous], the
    trace and the random source. *)
Definition writes_page_only (st st' : state) : Prop :=
  exists per a' mem' prev o rand',
    st' = set_previous prev (set_out o (set_rand rand' (set_mem mem'
            (set_a a' (set_periodic per st))))).

(** A sample random source, for the concrete runs. *)
Definition rnd0 : nat -> Z := fun k => Z.of_nat (k * 37 + 11).

(** The newest grid matches one of the three older ring entries. *)
Definition ring_hit (st : state) : bool :=
  bool_decide (pack_rows (a st) = r1 st)
  || bool_decide (pack_rows (a st) = r2 st)
  || bool_decide (pack_rows (a st) = r3 st).

(** The generation count is a multiple of 64 and the newest grid matches
    the checkpoint. *)
Definition checkpoint_hit (st : state) : bool :=
  (Z.rem (g st) 64 =? 0) && bool_decide (pack_rows (a st) = r64 st).

(** The encoder events handled one after the other. *)
Definition turn (evs : list enc_result) (st : state) : state :=
  fold_left (fun st result => pattern result st) evs st.

(** The grid that a dispatch on page 1..6 loads. *)
Definition page_grid (st : state) : grid :=
  if patternSel st =? 1 then p1
  else if patternSel st =? 2 then p2
  else if patternSel st =? 3 then p3
  else if patternSel st =? 4 then p4 st
  else if patternSel st =? 5 then p5 st
  else p6 st.

(** One press of the encoder button. *)
Definition press (st : state) : state := readButt true st.

(** Logical cell of a grid: row [r], column [c], column 0 being the
    most significant bit of word 0 and column 15 the least significant
    bit of word 1. *)
Definition cell (u : grid) (r c : nat) : bool :=
  if (c <? 8)%nat then Z.testbit (at2 u r 0) (Z.of_nat (7 - c))
  else Z.testbit (at2 u r 1) (Z.of_nat (15 - c)).

(** The row byte that a module holds after a trace of calls: the value
    of the last [setRow] for this module and row. *)
Fixpoint last_row (tr : list event) (addr row : nat) : option Z :=
  match tr with
  | [] => None
  | ev :: tr' =>
      match last_row tr' addr row with
      | Some v => Some v
      | None =>
          match ev with
          | setRow addr' row' v =>
              if (addr' =? addr)%nat && (row' =? row)%nat then Some v else None
          | _ => None
          end
      end
  end.

(** State of the LED in column [col] of a module row; the MAX7219 driver
    shows the most significant bit of a row byte in column 0. *)
Definition lit (tr : list event) (addr row col : nat) : bool :=
  match last_row tr addr row with
  | Some v => Z.testbit v (Z.of_nat (7 - col))
  | None => false
  end.

(** The calls of one [updateDisplay(u)], in the order they are made. *)
Definition frame_writes (u : grid) : list event :=
  flat_map (fun i => [ setRow 0 i (at2 u (i + 8) 1 mod 256);
                       setRow 1 i (at2 u (i + 8) 0 mod 256);
                       setRow 2 i (at2 u i 1 mod 256);
                       setRow 3 i (at2 u i 0 mod 256) ]) (seq 0 s).

(** The module that shows logical cell [(r, c)]: modules are numbered
    from the bottom right, 3 being the top left one. *)
Definition tile_of (r c : nat) : nat := (3 - (2 * (r / 8) + c / 8))%nat.

(** A [setRow] call whose row byte has some bit set. *)
Definition sets_a_bit (ev : event) : bool :=
  match ev with
  | setRow _ _ v => negb (v =? 0)
  | _ => false
  end.

(** The grid whose only live cell is the logical cell (0,0). *)
Definition single_cell_00 : grid := <[0%nat := (B 1 0 0 0 0 0 0 0, 0)]> zero_grid.

(** The blinker: three cells in a row. *)
Definition blinker : grid :=
  <[5%nat := (B 0 0 0 0 1 1 1 0, B 0 0 0 0 0 0 0 0)]> zero_grid.

(** What the inner loop body does to the word [aTemp2[i]]. *)
Definition cell_update (aTemp : list Z) (i k : nat) (row : Z) : Z :=
  let t := total aTemp i k in
  if bitRead (aTemp !!! i) (Z.of_nat k) =? 1 then
    if (t <? 2) || (t >? 3) then bitWrite row (Z.of_nat k) 0 else row
  else
    if t =? 3 then bitWrite row (Z.of_nat k) 1 else row.

(** Bit [k] of row [i] in the next generation, from the snapshot. *)
Definition next_bit (aTemp : list Z) (i k : nat) : bool :=
  if Z.testbit (aTemp !!! i) (Z.of_nat k)
  then (total aTemp i k =? 2) || (total aTemp i k =? 3)
  else total aTemp i k =? 3.

(** A 16x16 grid: sixteen rows of two bytes. *)
Definition wf_grid (u : grid) : Prop :=
  length u = 16%nat
  /\ Forall (fun w => 0 <= fst w < 256 /\ 0 <= snd w < 256) u.

(** Row [r] of the next generation, as a word. *)
Definition next_row (u : grid) (r : nat) : Z :=
  for_loop 0 m (cell_update (pack_rows u) r) (pack_rows u !!! r).

(** Index on the torus: [z mod 16]. *)
Definition wrap16 (z : Z) : nat := Z.to_nat (z mod 16).

(** The eight neighbours of cell [(r, c)]: rows [r-1, r, r+1] and
    columns [c-1, c, c+1] modulo 16, the cell itself left out. *)
Definition neighbours (r c : nat) : list (nat * nat) :=
  let R := Z.of_nat r in
  let C := Z.of_nat c in
  [ (wrap16 (R - 1), wrap16 (C - 1)); (wrap16 (R - 1), c); (wrap16 (R - 1), wrap16 (C + 1));
    (r, wrap16 (C - 1)); (r, wrap16 (C + 1));
    (wrap16 (R + 1), wrap16 (C - 1)); (wrap16 (R + 1), c); (wrap16 (R + 1), wrap16 (C + 1)) ].

(** Number of live cells among the neighbours. *)
Definition live_neighbours (u : grid) (r c : nat) : nat :=
  length (List.filter (fun p => cell u (fst p) (snd p)) (neighbours r c)).

(** Conway's rule for one cell. *)
Definition life (alive : bool) (count : nat) : bool :=
  if alive then (count =? 2)%nat || (count =? 3)%nat else (count =? 3)%nat.

(** ** Vocabulary for the further properties *)

(** The grid made of the next 32 values of a random source, two per row. *)
Definition random_grid (rnd : nat -> Z) : grid :=
  List.map (fun i => (rnd (2 * i)%nat mod 256, rnd (2 * i + 1)%nat mod 256)) (seq 0 16).

(** A packed grid: sixteen 16-bit rows. *)
Definition wf_rows (r : list Z) : Prop :=
  length r = 16%nat /\ Forall (fun v => 0 <= v < 2 ^ 16) r.

(** What every state met while the sketch runs satisfies. *)
Definition wf_state (st : state) : Prop :=
  (wf_grid (a st) /\ wf_grid (mem st))
  /\ (wf_grid (p4 st) /\ wf_grid (p5 st) /\ wf_grid (p6 st))
  /\ (wf_rows (r1 st) /\ wf_rows (r2 st) /\ wf_rows (r3 st) /\ wf_rows (r4 st)
      /\ wf_rows (r64 st))
  /\ 0 <= patternSel st <= 9
  /\ 42 <= refreshRate st <= 2500.

(** The panel shows the grid [a]. *)
Definition shows (st : state) : Prop :=
  forall r c, (r < 16)%nat -> (c < 16)%nat ->
              lit (out st) (tile_of r c) (r mod 8) (c mod 8) = cell (a st) r c.

(** Total time asked of [delay] in a trace, in ms. *)
Fixpoint pause (tr : list event) : Z :=
  match tr with
  | [] => 0
  | delay ms :: tr' => ms + pause tr'
  | _ :: tr' => pause tr'
  end.

(** Passes through the refresh block, one per [millis()] reading. *)
Definition run_ticks (nows : list Z) (st : state) : state :=
  fold_left (fun st t => tick t st) nows st.

(** Distance of a row or column index from the centre of the panel. *)
Definition centre_dist (i : nat) : nat := if (i <? 8)%nat then (7 - i)%nat else (i - 8)%nat.

(** The cells within diamond distance [q] of the centre. *)
Definition in_diamond (q r c : nat) : bool := (centre_dist r + centre_dist c <=? q)%nat.

(** A grid with every cell live. *)
Definition full_grid : grid := replicate 16 (255, 255).

(** A period-three oscillator (the pulsar). *)
Definition pulsar : grid :=
  [ (B 0 0 0 0 0 0 0 0, B 0 0 0 0 0 0 0 0); (B 0 0 0 0 1 1 1 0, B 0 0 1 1 1 0 0 0);
    (B 0 0 0 0 0 0 0 0, B 0 0 0 0 0 0 0 0); (B 0 0 1 0 0 0 0 1, B 0 1 0 0 0 0 1 0);
    (B 0 0 1 0 0 0 0 1, B 0 1 0 0 0 0 1 0); (B 0 0 1 0 0 0 0 1, B 0 1 0 0 0 0 1 0);
    (B 0 0 0 0 1 1 1 0, B 0 0 1 1 1 0 0 0); (B 0 0 0 0 0 0 0 0, B 0 0 0 0 0 0 0 0);
    (B 0 0 0 0 1 1 1 0, B 0 0 1 1 1 0 0 0); (B 0 0 1 0 0 0 0 1, B 0 1 0 0 0 0 1 0);
    (B 0 0 1 0 0 0 0 1, B 0 1 0 0 0 0 1 0); (B 0 0 1 0 0 0 0 1, B 0 1 0 0 0 0 1 0);
    (B 0 0 0 0 0 0 0 0, B 0 0 0 0 0 0 0 0); (B 0 0 0 0 1 1 1 0, B 0 0 1 1 1 0 0 0);
    (B 0 0 0 0 0 0 0 0, B 0 0 0 0 0 0 0 0); (B 0 0 0 0 0 0 0 0, B 0 0 0 0 0 0 0 0) ].

(** A still life: the 2x2 block. *)
Definition block : grid :=
  <[7%nat := (B 0 0 0 0 0 0 0 1, B 1 0 0 0 0 0 0 0)]>
    (<[8%nat := (B 0 0 0 0 0 0 0 1, B 1 0 0 0 0 0 0 0)]> zero_grid).

(** The calls of one [updateDisplayScan(u)] with scan pause [z], in the
    order they are made: the upper modules row by row, then the lower. *)
Definition scan_writes (z : Z) (u : grid) : list event :=
  flat_map (fun i => [ setRow 2 i (at2 u i 1 mod 256);
                       setRow 3 i (at2 u i 0 mod 256);
                       delay (uint (z ÷ 2)) ]) (seq 0 s)
  ++ flat_map (fun i => [ setRow 0 i (at2 u (i + 8) 1 mod 256);
                          setRow 1 i (at2 u (i + 8) 0 mod 256);
                          delay (uint (z ÷ 2)) ]) (seq 0 s).

(** Frame [q] of the ripple animation of [u]: the grid masked by [rip[q]]. *)
Definition ripple_frame (u : grid) (q : nat) : grid :=
  List.map (fun i => (Z.land (at2 u i 0) (at2 (rip !!! q) i 0),
                      Z.land (at2 u i 1) (at2 (rip !!! q) i 1))) (seq 0 16).

(** A trace without its [delay] events. *)
Definition display_calls (tr : list event) : list event :=
  List.filter (fun ev => match ev with delay _ => false | _ => true end) tr.

(** The shape of [unsigned int ripMem[15][n][x]]: fifteen grids of
    sixteen rows. *)
Definition ripMem_shape (rm : list (list (Z * Z))) : Prop :=
  length rm = 15%nat /\ Forall (fun f => length f = 16%nat) rm.

(** The writable slots and the save cursor. *)
Definition slots (st : state) : grid * grid * grid * Z :=
  (p4 st, p5 st, p6 st, counter st).

(** Grid [v] is grid [u] moved on the torus: cell [(r, c)] of [v] is cell
    [(r + dr, c + dc)] of [u], indices modulo 16. *)
Definition shifted (dr dc : Z) (u v : grid) : Prop :=
  forall r c, (r < 16)%nat -> (c < 16)%nat ->
              cell v r c = cell u (wrap16 (Z.of_nat r + dr)) (wrap16 (Z.of_nat c + dc)).

(** * Verification *)

(** ** Loops *)

Lemma fold_left_invariant {S A : Type} (P : S -> Prop) (f : S -> A -> S) (l : list A) :
  (forall i st, In i l -> P st -> P (f st i)) ->
  forall st, P st -> P (fold_left f l st).
Proof.
  induction l as [|i l IH]; intros Hf st Hst; simpl; [exact Hst|].
  apply IH.
  - intros j st' Hj. apply Hf. now right.
  - apply Hf; [now left | exact Hst].
Qed.

Lemma for_loop_invariant {S : Type} (P : S -> Prop) lo hi (body : nat -> S -> S) st :
  P st ->
  (forall i st, (lo <= i < hi)%nat -> P st -> P (body i st)) ->
  P (for_loop lo hi body st).
Proof.
  intros Hst Hbody. unfold for_loop.
  apply fold_left_invariant; [|exact Hst].
  intros i st' Hi. apply Hbody. apply in_seq in Hi. lia.
Qed.

Lemma for_loop_empty {S : Type} lo (body : nat -> S -> S) st :
  for_loop lo lo body st = st.
Proof. unfold for_loop. now rewrite Nat.sub_diag. Qed.

Lemma for_loop_S {S : Type} lo hi (body : nat -> S -> S) st :
  (lo <= hi)%nat ->
  for_loop lo (Datatypes.S hi) body st = body hi (for_loop lo hi body st).
Proof.
  intros Hle. unfold for_loop.
  replace (Datatypes.S hi - lo)%nat with (Datatypes.S (hi - lo)) by lia.
  rewrite seq_S, fold_left_app. simpl.
  now replace (lo + (hi - lo))%nat with hi by lia.
Qed.

(** Reduction of the field accessors over the field updates. *)
Ltac state_simpl :=
  cbn [set_potVal set_brightness set_refreshRate set_periodic set_current
       set_previous set_timeoutCurrent set_timeoutPrevious set_patternSel
       set_counter set_g set_a set_mem set_r1 set_r2 set_r3 set_r4 set_r64
       set_p4 set_p5 set_p6 set_out set_rand potVal brightness refreshRate
       periodic current previous timeoutCurrent timeoutPrevious patternSel
       counter g a mem r1 r2 r3 r4 r64 p4 p5 p6 out rand].

(** The same on a state given by its constructor. *)
Ltac state_cbv :=
  cbv [set_potVal set_brightness set_refreshRate set_periodic set_current
       set_previous set_timeoutCurrent set_timeoutPrevious set_patternSel
       set_counter set_g set_a set_mem set_r1 set_r2 set_r3 set_r4 set_r64
       set_p4 set_p5 set_p6 set_out set_rand potVal brightness refreshRate
       periodic current previous timeoutCurrent timeoutPrevious patternSel
       counter g a mem r1 r2 r3 r4 r64 p4 p5 p6 out rand].

(** ** Frame properties: which globals a function writes *)

Lemma writes_out_only_refl st : writes_out_only st st.
Proof. exists (out st). now destruct st. Qed.

Lemma writes_out_only_trans st1 st2 st3 :
  writes_out_only st1 st2 -> writes_out_only st2 st3 -> writes_out_only st1 st3.
Proof. intros [o1 ->] [o2 ->]. now exists o2. Qed.

Lemma mat_setRow_frame addr row v st : writes_out_only st (mat_setRow addr row v st).
Proof. now eexists. Qed.

Lemma do_delay_frame ms st : writes_out_only st (do_delay ms st).
Proof. now eexists. Qed.

Lemma mat_setIntensity_frame addr v st : writes_out_only st (mat_setIntensity addr v st).
Proof. now eexists. Qed.

Create HintDb frame.
#[local] Hint Resolve writes_out_only_refl mat_setRow_frame do_delay_frame
  mat_setIntensity_frame : frame.

Ltac frame_chain :=
  repeat (eapply writes_out_only_trans; [eassumption|]);
  repeat first
    [ apply writes_out_only_refl
    | apply mat_setRow_frame
    | apply do_delay_frame
    | eapply writes_out_only_trans; [|apply mat_setRow_frame]
    | eapply writes_out_only_trans; [|apply do_delay_frame] ].

Lemma updateDisplay_frame u st : writes_out_only st (updateDisplay u st).
Proof.
  unfold updateDisplay.
  apply (for_loop_invariant (writes_out_only st)); [auto with frame|].
  intros i st' _ H. frame_chain.
Qed.

Lemma updateDisplayScan_frame u st : writes_out_only st (updateDisplayScan u st).
Proof.
  unfold updateDisplayScan.
  apply (for_loop_invariant (writes_out_only st)).
  - apply (for_loop_invariant (writes_out_only st)); [auto with frame|].
    intros i st' _ H. frame_chain.
  - intros i st' _ H. frame_chain.
Qed.

Lemma generateData_frame st : writes_grid_only st (generateData st).
Proof.
  unfold generateData.
  apply (for_loop_invariant (writes_grid_only st)).
  - exists (a st), (mem st), (rand st). now destruct st.
  - intros i st1 _ H1.
    apply (for_loop_invariant (writes_grid_only st)); [exact H1|].
    intros j st2 _ (a2 & m2 & r2' & ->). simpl. now eexists _, _, _.
Qed.

Lemma patterns_frame st : writes_page_only st (patterns st).
Proof.
  unfold patterns, writes_page_only. cbv zeta.
  repeat match goal with
         | |- context [if ?c then _ else _] => destruct c
         end;
    try (destruct (generateData_frame (set_periodic false st)) as (a' & m' & r' & Hg);
         rewrite Hg in *; clear Hg);
    try (match goal with
         | |- context [updateDisplay ?u ?st0] =>
             destruct (updateDisplay_frame u st0) as [o ->]
         end);
    destruct st; state_cbv; now eexists _, _, _, _, _, _.
Qed.

Ltac use_frames :=
  cbv zeta;
  repeat match goal with
    | |- context [updateDisplayScan ?u ?st0] =>
        let o := fresh "o" in
        destruct (updateDisplayScan_frame u st0) as [o ->]
    | |- context [updateDisplay ?u ?st0] =>
        let o := fresh "o" in
        destruct (updateDisplay_frame u st0) as [o ->]
    | |- context [generateData ?st0] =>
        let a' := fresh "a'" in
        let m' := fresh "m'" in
        let r' := fresh "r'" in
        destruct (generateData_frame st0) as (a' & m' & r' & ->)
    end.

(** [rules] replaces the grid by its successor, extends the trace and
    counts the generation. *)
Lemma rules_eq st :
  exists o, rules st = set_g (sint (g st + 1)) (set_out o (set_a (step (a st)) st)).
Proof. unfold rules. use_frames. now exists o. Qed.

Lemma a_rules st : a (rules st) = step (a st).
Proof. destruct (rules_eq st) as [o ->]. reflexivity. Qed.

(** ** The detector *)

Lemma memcmp_0 p q : (memcmp p q =? 0) = bool_decide (p = q).
Proof. unfold memcmp. now destruct (bool_decide (p = q)). Qed.

Lemma checkPeriodic_eq st :
  checkPeriodic st =
  let hit := ring_hit st || checkpoint_hit st in
  set_timeoutPrevious (if hit then timeoutCurrent st else timeoutPrevious st)
    (set_periodic (periodic st || hit)
       (set_r64 (if Z.rem (g st) 64 =? 0 then pack_rows (a st) else r64 st)
          (set_r1 (pack_rows (a st))
             (set_r2 (r1 st) (set_r3 (r2 st) (set_r4 (r3 st) st)))))).
Proof.
  unfold checkPeriodic, ring_hit, checkpoint_hit. cbv zeta.
  rewrite !memcmp_0. destruct st; state_cbv.
  destruct (Z.rem g0 64 =? 0); state_cbv; rewrite ?memcmp_0; state_cbv;
    repeat match goal with
      | |- context [bool_decide ?P] => destruct (bool_decide P)
      end; cbv [orb andb]; state_cbv; try reflexivity;
    destruct periodic0; reflexivity.
Qed.

(** ** Page selector: the encoder *)

Lemma patternSel_patterns st : patternSel (patterns st) = patternSel st.
Proof. destruct (patterns_frame st) as (? & ? & ? & ? & ? & ? & ->). reflexivity. Qed.

Lemma sint_small z : - 2 ^ 31 <= z < 2 ^ 31 -> sint z = z.
Proof. intros H. unfold sint. rewrite Z.mod_small; lia. Qed.

Lemma constrain_clamp amt low high :
  low <= high -> constrain amt low high = Z.max low (Z.min high amt).
Proof.
  intros H. unfold constrain. rewrite Z.gtb_ltb.
  destruct (Z.ltb_spec amt low), (Z.ltb_spec high amt); lia.
Qed.

Lemma pattern_CW st :
  0 <= patternSel st <= 9 ->
  patternSel (pattern DIR_CW st) = Z.max 0 (Z.min 9 (patternSel st + 1)).
Proof.
  intros H. unfold pattern. cbv zeta. rewrite patternSel_patterns.
  state_simpl. rewrite sint_small by lia. now apply constrain_clamp.
Qed.

Lemma pattern_CCW st :
  0 <= patternSel st <= 9 ->
  patternSel (pattern DIR_CCW st) = Z.max 0 (Z.min 9 (patternSel st - 1)).
Proof.
  intros H. unfold pattern. cbv zeta. rewrite patternSel_patterns.
  state_simpl. rewrite sint_small by lia. now apply constrain_clamp.
Qed.

Lemma pattern_range result st :
  0 <= patternSel st <= 9 -> 0 <= patternSel (pattern result st) <= 9.
Proof.
  intros H. destruct result.
  - exact H.
  - rewrite pattern_CW by exact H. lia.
  - rewrite pattern_CCW by exact H. lia.
Qed.

Lemma turn_range evs : forall st,
  0 <= patternSel st <= 9 -> 0 <= patternSel (turn evs st) <= 9.
Proof.
  induction evs as [|r evs IH]; intros st H; [exact H|].
  apply IH, pattern_range, H.
Qed.

Lemma iter_CW k : forall st,
  0 <= patternSel st <= 9 ->
  patternSel (Nat.iter k (pattern DIR_CW) st) = Z.min 9 (patternSel st + Z.of_nat k).
Proof.
  induction k as [|k IH]; intros st H.
  - simpl. lia.
  - rewrite Nat.iter_succ_r, IH by (apply pattern_range, H).
    rewrite pattern_CW by exact H. lia.
Qed.

(** C7. Every encoder step sets the page to [clamp (page + delta) 0 9],
    with [delta = +1] clockwise and [-1] counterclockwise; along any
    sequence of events the page stays in [0, 9]; ten clockwise steps
    from page 0 end at 9. *)
Theorem pattern_page_in_range (st : state) (evs : list enc_result) :
  0 <= patternSel st <= 9 ->
  patternSel (pattern DIR_CW st) = Z.max 0 (Z.min lim (patternSel st + 1))
  /\ patternSel (pattern DIR_CCW st) = Z.max 0 (Z.min lim (patternSel st - 1))
  /\ 0 <= patternSel (turn evs st) <= 9
  /\ (patternSel st = 0 -> patternSel (Nat.iter 10 (pattern DIR_CW) st) = 9).
Proof.
  intros H. repeat split.
  - now apply pattern_CW.
  - now apply pattern_CCW.
  - now apply turn_range.
  - now apply turn_range.
  - intros H0. rewrite iter_CW by exact H. rewrite H0. reflexivity.
Qed.

Lemma pattern_page_in_range_witness :
  let st := set_patternSel 0 (boot rnd0) in
  0 <= patternSel (turn [DIR_CW; DIR_CCW; DIR_CCW; DIR_CW] st) <= 9
  /\ patternSel (Nat.iter 10 (pattern DIR_CW) st) = 9.
Proof.
  intros st.
  assert (H : 0 <= patternSel st <= 9) by (change (patternSel st) with 0; lia).
  destruct (pattern_page_in_range st [DIR_CW; DIR_CCW; DIR_CCW; DIR_CW] H)
    as (_ & _ & Hr & H10).
  split; [exact Hr | apply H10; reflexivity].
Defined.

(** ** Page dispatch and the detector *)

(** The settled flag after a dispatch: cleared on pages 0 and 3..6,
    kept on every other page. *)
Lemma patterns_periodic st :
  periodic (patterns st) =
  if (patternSel st =? 0) || (3 <=? patternSel st) && (patternSel st <=? 6)
  then false else periodic st.
Proof.
  unfold patterns.
  repeat match goal with
    | |- context [patternSel st =? ?k] => destruct (Z.eqb_spec (patternSel st) k) as [->|]
    end; use_frames; try reflexivity.
  destruct (Z.leb_spec 3 (patternSel st)), (Z.leb_spec (patternSel st) 6);
    try reflexivity; lia.
Qed.

Lemma patterns_inert st :
  7 <= patternSel st -> patterns st = st.
Proof.
  intros H. unfold patterns.
  repeat match goal with
    | |- context [patternSel st =? ?k] => destruct (Z.eqb_spec (patternSel st) k)
    end; try lia. reflexivity.
Qed.

Lemma periodic_rules st : periodic (rules st) = periodic st.
Proof. destruct (rules_eq st) as [o ->]. reflexivity. Qed.

(** A pass through the refresh block while the flag is down is one
    generation followed by one observation. *)
Lemma tick_observing now st :
  periodic st = false ->
  tick now st =
  checkPeriodic (set_timeoutCurrent now (set_previous (current (rules st)) (rules st))).
Proof.
  intros H. unfold tick. cbv zeta.
  destruct (rules_eq st) as [o ->]. state_simpl. now rewrite H.
Qed.

Lemma orb_bool_decide_true (P Q R : Prop) `{!Decision P, !Decision Q, !Decision R} (c : bool) (S : Prop) :
  (c = true <-> S) ->
  (bool_decide P || bool_decide Q || bool_decide R || c = true
   <-> P \/ Q \/ R \/ S).
Proof.
  intros Hc. rewrite !orb_true_iff, !bool_decide_eq_true, Hc. tauto.
Qed.

(** C9. The all-dead grid is a fixed point of the generation step, as a
    grid and as the grid left in [a] by [rules()]. *)
Theorem step_all_dead_fixed_point :
  step zero_grid = zero_grid
  /\ forall st, a (rules (set_a zero_grid st)) = zero_grid.
Proof.
  assert (H : step zero_grid = zero_grid) by (vm_compute; reflexivity).
  split; [exact H|]. intros st. rewrite a_rules. exact H.
Qed.

(** C10. A page dispatch leaves the four ring grids, the checkpoint and
    the generation counter as they were and changes the settled flag
    only by clearing it; so the first observation of a regenerated random
    grid is compared with the ring and the checkpoint of the previous run. *)
Theorem patterns_keeps_detector_history (st : state) (now : Z) :
  (r1 (patterns st) = r1 st /\ r2 (patterns st) = r2 st /\ r3 (patterns st) = r3 st
   /\ r4 (patterns st) = r4 st /\ r64 (patterns st) = r64 st /\ g (patterns st) = g st)
  /\ (periodic (patterns st) = periodic st \/ periodic (patterns st) = false)
  /\ let st0 := patterns (set_patternSel 0 st) in
     let st1 := tick now st0 in
     periodic st0 = false
     /\ r1 st1 = pack_rows (step (a st0))
     /\ r2 st1 = r1 st /\ r3 st1 = r2 st /\ r4 st1 = r3 st
     /\ (periodic st1 = true <->
         r1 st1 = r1 st \/ r1 st1 = r2 st \/ r1 st1 = r3 st
         \/ (Z.rem (sint (g st + 1)) 64 = 0 /\ r1 st1 = r64 st)).
Proof.
  split; [|split].
  - destruct (patterns_frame st) as (? & ? & ? & ? & ? & ? & ->). now repeat split.
  - rewrite patterns_periodic. destruct (_ || _); auto.
  - intros st0 st1.
    assert (H0 : periodic st0 = false) by (unfold st0; now rewrite patterns_periodic).
    split; [exact H0|].
    unfold st1. rewrite (tick_observing _ _ H0), checkPeriodic_eq. cbv zeta.
    destruct (rules_eq st0) as [o ->].
    unfold ring_hit, checkpoint_hit.
    revert H0. unfold st0. clear st0 st1.
    destruct (patterns_frame (set_patternSel 0 st))
      as (per & x0 & m' & pv & o' & rd & ->).
    state_simpl. intros ->. rewrite orb_false_l.
    repeat split; try reflexivity; intros H.
    + apply orb_bool_decide_true
        with (S := Z.rem (sint (g st + 1)) 64 = 0
                   /\ pack_rows (step x0) = r64 st) in H; [exact H|].
      rewrite andb_true_iff, Z.eqb_eq, bool_decide_eq_true. tauto.
    + apply orb_bool_decide_true
        with (S := Z.rem (sint (g st + 1)) 64 = 0
                   /\ pack_rows (step x0) = r64 st); [|exact H].
      rewrite andb_true_iff, Z.eqb_eq, bool_decide_eq_true. tauto.
Qed.

(** C3 (as the sketch has it). A dispatch on page 0, 3, 4, 5 or 6 leaves
    the settled flag false; on the reserved pages 7..9 the dispatch does
    nothing at all, so the flag keeps its value. *)
Theorem patterns_resets_periodic (st : state) :
  0 <= patternSel st <= 9 -> patternSel st <> 1 -> patternSel st <> 2 ->
  if 7 <=? patternSel st then patterns st = st
  else periodic (patterns st) = false.
Proof.
  intros Hr H1 H2. destruct (Z.leb_spec 7 (patternSel st)).
  - now apply patterns_inert.
  - rewrite patterns_periodic.
    destruct (Z.eqb_spec (patternSel st) 0); [reflexivity|].
    destruct (Z.leb_spec 3 (patternSel st)), (Z.leb_spec (patternSel st) 6);
      try reflexivity; lia.
Qed.

Lemma patterns_resets_periodic_witness :
  let st := set_periodic true (set_patternSel 3 (boot rnd0)) in
  periodic st = true /\ periodic (patterns st) = false.
Proof.
  intros st. split; [reflexivity|].
  apply (patterns_resets_periodic st); change (patternSel st) with 3; lia.
Defined.

(** C3, as stated, fails: the glider of page 1 is flagged after 128
    generations, and the dispatch on page 1 keeps the flag; the same
    holds on page 2 and on the reserved page 7. *)
Lemma patterns_keeps_periodic_on_pages_1_2_7 :
  let st := Nat.iter 128 (tick 0) (boot rnd0) in
  patternSel st = 1 /\ periodic st = true /\ periodic (patterns st) = true
  /\ periodic (patterns (set_patternSel 2 st)) = true
  /\ periodic (patterns (set_patternSel 7 st)) = true.
Proof. vm_compute. repeat split. Qed.

(** ** Potentiometer *)

Lemma map_speed reading :
  0 <= reading <= 1023 ->
  sint (map reading 970 10 minSpeed maxSpeed)
  = (reading - 970) * (2500 - 42) ÷ (10 - 970) + 42.
Proof.
  intros H. unfold map, minSpeed, maxSpeed.
  assert (Hq : -136 <= (reading - 970) * 2458 ÷ -960 <= 2484).
  { change (-960) with (- (960)). rewrite Z.quot_opp_r by lia.
    pose proof (Z.quot_le_mono ((reading - 970) * 2458) 130274 960
                  ltac:(lia) ltac:(lia)) as Hhi.
    pose proof (Z.quot_le_mono (-2384260) ((reading - 970) * 2458) 960
                  ltac:(lia) ltac:(lia)) as Hlo.
    change (130274 ÷ 960) with 135 in Hhi.
    change (-2384260 ÷ 960) with (-2483) in Hlo. lia. }
  change (2500 - 42) with 2458. change (10 - 970) with (-960).
  rewrite (sint_small (reading - 970)) by lia.
  rewrite (sint_small 2458) by lia.
  rewrite (sint_small (-960)) by lia.
  rewrite (sint_small ((reading - 970) * 2458)) by lia.
  set (q := (reading - 970) * 2458 ÷ -960) in *. clearbody q.
  rewrite (sint_small q) by lia.
  rewrite !(sint_small (q + 42)) by lia. reflexivity.
Qed.

Lemma map_brightness reading :
  0 <= reading <= 1023 ->
  sint (map reading 0 970 0 15) = reading * 15 / 970.
Proof.
  intros H. unfold map.
  assert (Hq : 0 <= reading * 15 / 970 <= 15).
  { split; [apply Z.div_pos; lia|].
    enough (reading * 15 / 970 < 16) by lia.
    apply Z.div_lt_upper_bound; lia. }
  change (15 - 0) with 15. change (970 - 0) with 970.
  rewrite Z.sub_0_r.
  rewrite (sint_small reading) by lia.
  rewrite (sint_small 15) by lia.
  rewrite (sint_small 970) by lia.
  rewrite (sint_small (reading * 15)) by lia.
  rewrite Z.quot_div_nonneg by lia.
  rewrite Z.add_0_r.
  set (q := reading * 15 / 970) in *. clearbody q.
  rewrite !(sint_small q) by lia. reflexivity.
Qed.

(** C8 (as the sketch has it). Every poll remaps the reading into the
    tick period, bounded to [42, 2500] ms, whether the button is held or
    not; while the button is held the reading is remapped into the
    brightness as well, within 0..15, and sent to the four modules; while
    it is not held the brightness and the display are left alone. *)
Theorem readPot_effect (reading : Z) (pressedFor : bool) (st : state) :
  0 <= reading <= 1023 ->
  let st' := readPot reading pressedFor st in
  refreshRate st'
  = Z.max 42 (Z.min 2500 ((reading - 970) * (2500 - 42) ÷ (10 - 970) + 42))
  /\ 42 <= refreshRate st' <= 2500
  /\ if pressedFor then
       brightness st' = reading * 15 / 970
       /\ 0 <= brightness st' <= 15
       /\ out st' = out st ++ [setIntensity 0 (brightness st');
                               setIntensity 1 (brightness st');
                               setIntensity 2 (brightness st');
                               setIntensity 3 (brightness st')]
     else brightness st' = brightness st /\ out st' = out st.
Proof.
  intros H st'.
  assert (Hb : 0 <= reading * 15 / 970 <= 15).
  { split; [apply Z.div_pos; lia|].
    enough (reading * 15 / 970 < 16) by lia.
    apply Z.div_lt_upper_bound; lia. }
  assert (Hr : refreshRate st'
               = Z.max 42 (Z.min 2500 ((reading - 970) * (2500 - 42) ÷ (10 - 970) + 42))).
  { unfold st', readPot. cbv zeta. state_simpl.
    rewrite map_speed, constrain_clamp by lia.
    destruct pressedFor; [|reflexivity].
    rewrite map_brightness by lia.
    destruct st; reflexivity. }
  split; [exact Hr|]. split; [rewrite Hr; lia|].
  unfold st', readPot. cbv zeta. state_simpl.
  destruct pressedFor.
  - rewrite map_brightness by lia. destruct st. cbn.
    repeat split; try lia. now rewrite <- !app_assoc.
  - split; reflexivity.
Qed.

Lemma readPot_effect_witness :
  let st' := readPot 485 true (boot rnd0) in
  42 <= refreshRate st' <= 2500 /\ brightness st' = 7.
Proof.
  intros st'.
  destruct (readPot_effect 485 true (boot rnd0)) as (_ & Hr & Hb & _); [lia|].
  split; [exact Hr | exact Hb].
Defined.

(** C8, as stated, fails: a poll made while the button is held changes
    the tick period. *)
Lemma readPot_held_changes_refreshRate :
  let st := readPot 500 false (boot rnd0) in
  refreshRate st = 1245
  /\ refreshRate (readPot 10 true st) = 2500
  /\ brightness (readPot 10 true st) = 0.
Proof. vm_compute. repeat split. Qed.

(** ** Page selector: the button *)

Lemma patterns_load st :
  1 <= patternSel st <= 6 ->
  exists per o,
    patterns st
    = set_previous (current st) (set_periodic per (set_out o (set_a (page_grid st) st))).
Proof.
  intros H. unfold patterns, page_grid.
  repeat match goal with
    | |- context [patternSel st =? ?k] => destruct (Z.eqb_spec (patternSel st) k)
    end; try lia; use_frames;
    [exists (periodic st), o | exists (periodic st), o | exists false, o
    | exists false, o | exists false, o | exists false, o ];
    destruct st; reflexivity.
Qed.

Lemma patterns_random st :
  patternSel st = 0 ->
  exists a' mem' rand' o,
    patterns st
    = set_previous (current st)
        (set_out o (set_rand rand' (set_mem mem' (set_a a' (set_periodic false st))))).
Proof.
  intros H. unfold patterns. rewrite H. change (0 =? 0) with true. cbv iota.
  use_frames. exists a', m', r', o. destruct st; reflexivity.
Qed.

Lemma press_on_page_0 st :
  patternSel st = 0 -> 0 <= counter st < 2 ^ 31 - 1 ->
  patternSel (press st) = 4 + counter st mod 3
  /\ counter (press st) = counter st + 1
  /\ a (press st) = mem st
  /\ mem (press st) = mem st
  /\ p4 (press st) = (if counter st mod 3 =? 0 then mem st else p4 st)
  /\ p5 (press st) = (if counter st mod 3 =? 1 then mem st else p5 st)
  /\ p6 (press st) = (if counter st mod 3 =? 2 then mem st else p6 st).
Proof.
  intros Hp Hc. unfold press, readButt. rewrite Hp.
  change (0 =? 0) with true. cbv iota zeta.
  rewrite Z.rem_mod_nonneg by lia.
  assert (Hm : counter st mod 3 = 0 \/ counter st mod 3 = 1 \/ counter st mod 3 = 2)
    by (pose proof (Z.mod_pos_bound (counter st) 3); lia).
  destruct Hm as [Hm|[Hm|Hm]]; rewrite Hm; cbn [Z.eqb Pos.eqb];
    match goal with
    | |- context [patterns ?s0] =>
        destruct (patterns_load s0) as (per & o & ->); [state_simpl; lia|]
    end;
    unfold page_grid; state_simpl; cbn [Z.eqb Pos.eqb Z.add Pos.add];
    rewrite sint_small by lia;
    repeat split; reflexivity.
Qed.

Lemma press_on_other_page st :
  patternSel st <> 0 ->
  patternSel (press st) = 0
  /\ p4 (press st) = p4 st /\ p5 (press st) = p5 st /\ p6 (press st) = p6 st
  /\ counter (press st) = counter st.
Proof.
  intros Hp. unfold press, readButt.
  destruct (Z.eqb_spec (patternSel st) 0); [contradiction|].
  cbv iota zeta.
  destruct (patterns_random (set_patternSel 0 st)) as (a' & m' & r' & o & ->);
    [reflexivity|].
  now repeat split.
Qed.

Lemma mem_observation st : mem (checkPeriodic (rules st)) = mem st.
Proof.
  rewrite checkPeriodic_eq. cbv zeta.
  destruct (rules_eq st) as [o ->]. reflexivity.
Qed.

(** ** Display mapping *)

Lemma updateDisplay_out u st :
  out (updateDisplay u st) = out st ++ frame_writes u.
Proof.
  destruct st.
  cbv [updateDisplay frame_writes for_loop s Nat.sub seq fold_left flat_map
       mat_setRow set_out out].
  rewrite <- !app_assoc. reflexivity.
Qed.

Lemma last_row_app tr1 tr2 addr row :
  last_row (tr1 ++ tr2) addr row =
  match last_row tr2 addr row with
  | Some v => Some v
  | None => last_row tr1 addr row
  end.
Proof.
  induction tr1 as [|ev tr1 IH]; simpl.
  - now destruct (last_row tr2 addr row).
  - rewrite IH. now destruct (last_row tr2 addr row).
Qed.

Lemma last_row_frame u r c :
  (r < 16)%nat -> (c < 16)%nat ->
  last_row (frame_writes u) (tile_of r c) (r mod 8)
  = Some (at2 u r (c / 8) mod 256).
Proof.
  intros Hr Hc.
  assert (Hc8 : (c / 8 = 0 \/ c / 8 = 1)%nat).
  { destruct (Nat.lt_ge_cases c 8).
    - left. now apply Nat.div_small.
    - right. assert (c / 8 < 2)%nat by (apply Nat.Div0.div_lt_upper_bound; lia).
      assert (1 <= c / 8)%nat by (apply (Nat.Div0.div_le_mono 8 c 8); lia).
      change (8 / 8)%nat with 1%nat in *. lia. }
  unfold tile_of.
  do 16 (destruct r as [|r]; [destruct Hc8 as [->| ->]; reflexivity|]).
  lia.
Qed.

(** C4 (as the sketch has it). [updateDisplay] shows logical cell
    [(r, c)] in module [3 - (2 * row-half + col-half)], row [r mod 8],
    column [c mod 8], whatever was shown before; for the grid whose only
    live cell is (0,0) the calls set exactly one bit: module 3, row 0,
    column 0. *)
Theorem updateDisplay_mapping (u : grid) (st : state) (r c : nat) :
  (r < 16)%nat -> (c < 16)%nat ->
  lit (out (updateDisplay u st)) (3 - (2 * (r / 8) + c / 8)) (r mod 8) (c mod 8)
  = cell u r c
  /\ (forall i j, cell single_cell_00 i j = true -> (i < 16)%nat -> (j < 16)%nat ->
                  i = 0%nat /\ j = 0%nat)
  /\ List.filter sets_a_bit (frame_writes single_cell_00)
     = [setRow 3 0 (B 1 0 0 0 0 0 0 0)]
  /\ out (updateDisplay single_cell_00 st) = out st ++ frame_writes single_cell_00.
Proof.
  intros Hr Hc. split; [|split; [|split]].
  - unfold lit. rewrite updateDisplay_out, last_row_app.
    fold (tile_of r c). rewrite (last_row_frame u r c Hr Hc).
    unfold cell. destruct (Nat.ltb_spec c 8) as [H8|H8].
    + rewrite (Nat.div_small c 8), (Nat.mod_small c 8) by lia.
      change 256 with (2 ^ 8). apply Z.mod_pow2_bits_low. lia.
    + assert (E : (c = 8 + c mod 8)%nat).
      { rewrite (Nat.div_mod_eq c 8) at 1.
        assert (c / 8 < 2)%nat by (apply Nat.Div0.div_lt_upper_bound; lia).
        assert (1 <= c / 8)%nat by (apply (Nat.Div0.div_le_mono 8 c 8); lia).
        change (8 / 8)%nat with 1%nat in *. lia. }
      assert (E1 : (c / 8 = 1)%nat).
      { rewrite E. rewrite (Nat.div_add_l 1 8) by lia.
        rewrite Nat.div_small by (apply Nat.mod_upper_bound; lia). reflexivity. }
      rewrite E1. replace (15 - c)%nat with (7 - c mod 8)%nat by lia.
      change 256 with (2 ^ 8). apply Z.mod_pow2_bits_low.
      pose proof (Nat.mod_upper_bound c 8). lia.
  - intros i j H Hi Hj.
    do 16 (destruct i as [|i]; [do 16 (destruct j as [|j]; [try discriminate H; auto|]); lia|]).
    lia.
  - reflexivity.
  - apply updateDisplay_out.
Qed.

Lemma updateDisplay_mapping_witness :
  lit (out (updateDisplay p1 (globals0 rnd0))) 3 3 2 = cell p1 3 2
  /\ cell p1 3 2 = true.
Proof.
  split; [|reflexivity].
  apply (updateDisplay_mapping p1 (globals0 rnd0) 3 2); lia.
Defined.

(** C4, as stated, fails: with the single live cell (0,0), module 0
    (index 2 * 0 + 0) gets no set bit and the bit is shown by module 3. *)
Lemma single_cell_shown_by_tile_3 :
  let tr := out (updateDisplay single_cell_00 (globals0 rnd0)) in
  cell single_cell_00 0 0 = true
  /\ lit tr 0 0 0 = false
  /\ lit tr 3 0 0 = true
  /\ In (setRow 3 0 128) tr
  /\ forall v, In (setRow 0 0 v) tr -> v = 0.
Proof.
  vm_compute. repeat split; auto 40.
  intros v H.
  repeat (destruct H as [H|H]; [try discriminate H; now inversion H|]).
  contradiction.
Qed.

(** ** Observations of the detector *)

(** What one pass through the refresh block leaves in the detector while
    the flag is down. *)
Lemma tick_observation t st :
  periodic st = false ->
  a (tick t st) = step (a st)
  /\ g (tick t st) = sint (g st + 1)
  /\ r1 (tick t st) = pack_rows (step (a st))
  /\ r2 (tick t st) = r1 st
  /\ r3 (tick t st) = r2 st
  /\ r4 (tick t st) = r3 st
  /\ r64 (tick t st)
     = (if Z.rem (sint (g st + 1)) 64 =? 0 then pack_rows (step (a st)) else r64 st)
  /\ periodic (tick t st)
     = (bool_decide (pack_rows (step (a st)) = r1 st)
        || bool_decide (pack_rows (step (a st)) = r2 st)
        || bool_decide (pack_rows (step (a st)) = r3 st)
        || (Z.rem (sint (g st + 1)) 64 =? 0)
           && bool_decide (pack_rows (step (a st)) = r64 st)).
Proof.
  intros H. rewrite (tick_observing _ _ H), checkPeriodic_eq. cbv zeta.
  unfold ring_hit, checkpoint_hit.
  destruct (rules_eq st) as [o ->]. state_simpl. rewrite H.
  repeat split; reflexivity.
Qed.

(** While the flag is down, a pass raises it exactly when one of the two
    comparisons of [checkPeriodic] matches on the grid that [rules()]
    has just left: the ring comparison or the checkpoint comparison. *)
Lemma tick_flag_cause t st :
  periodic st = false ->
  periodic (tick t st) = ring_hit (rules st) || checkpoint_hit (rules st).
Proof.
  intros H. destruct (tick_observation t st H) as (_ & _ & _ & _ & _ & _ & _ & P).
  rewrite P. unfold ring_hit, checkpoint_hit.
  destruct (rules_eq st) as [o ->]. state_simpl. reflexivity.
Qed.

(** C6. From a grid of period two the flag is raised by the third
    observation at the latest (so within four), and it is raised by the
    comparisons of the newest grid only: at the first and at the second
    observation the flag goes up if and only if the grid just computed
    matches one of the three ring entries (or, at a multiple of 64, the
    checkpoint); when neither has raised it, the ring comparison matches
    at the third observation, the newest grid being equal to the ring
    entry two generations back. *)
Theorem period_two_flagged (st : state) (t1 t2 t3 : Z) :
  periodic st = false ->
  step (step (a st)) = a st ->
  (periodic (tick t1 st) = true
   \/ periodic (tick t2 (tick t1 st)) = true
   \/ (periodic (tick t3 (tick t2 (tick t1 st))) = true
       /\ r1 (tick t3 (tick t2 (tick t1 st))) = r3 (tick t3 (tick t2 (tick t1 st)))))
  /\ (periodic (tick t1 st) = true
      <-> ring_hit (rules st) = true \/ checkpoint_hit (rules st) = true)
  /\ (periodic (tick t1 st) = false ->
      (periodic (tick t2 (tick t1 st)) = true
       <-> ring_hit (rules (tick t1 st)) = true
           \/ checkpoint_hit (rules (tick t1 st)) = true)
      /\ (periodic (tick t2 (tick t1 st)) = false ->
          ring_hit (rules (tick t2 (tick t1 st))) = true
          /\ pack_rows (a (rules (tick t2 (tick t1 st))))
             = r2 (rules (tick t2 (tick t1 st)))
          /\ r2 (rules (tick t2 (tick t1 st))) = pack_rows (step (a st))
          /\ periodic (tick t3 (tick t2 (tick t1 st))) = true
          /\ r1 (tick t3 (tick t2 (tick t1 st)))
             = r3 (tick t3 (tick t2 (tick t1 st))))).
Proof.
  intros H0 H2.
  pose proof (tick_flag_cause t1 st H0) as C1.
  destruct (tick_observation t1 st H0) as (A1 & _ & R11 & _ & _ & _ & _ & _).
  revert C1 A1 R11. generalize (tick t1 st). intros st1 C1 A1 R11.
  assert (K1 : periodic st1 = true
               <-> ring_hit (rules st) = true \/ checkpoint_hit (rules st) = true)
    by (rewrite C1; apply orb_true_iff).
  assert (K2 : periodic st1 = false ->
      (periodic (tick t2 st1) = true
       <-> ring_hit (rules st1) = true \/ checkpoint_hit (rules st1) = true)
      /\ (periodic (tick t2 st1) = false ->
          ring_hit (rules (tick t2 st1)) = true
          /\ pack_rows (a (rules (tick t2 st1))) = r2 (rules (tick t2 st1))
          /\ r2 (rules (tick t2 st1)) = pack_rows (step (a st))
          /\ periodic (tick t3 (tick t2 st1)) = true
          /\ r1 (tick t3 (tick t2 st1)) = r3 (tick t3 (tick t2 st1)))).
  { intros P1.
    pose proof (tick_flag_cause t2 st1 P1) as C2.
    destruct (tick_observation t2 st1 P1) as (A2 & _ & R12 & R22 & _ & _ & _ & _).
    revert C2 A2 R12 R22. generalize (tick t2 st1). intros st2 C2 A2 R12 R22.
    split; [rewrite C2; apply orb_true_iff|].
    intros P2.
    pose proof (tick_flag_cause t3 st2 P2) as C3.
    destruct (tick_observation t3 st2 P2) as (A3 & _ & R13 & R23 & R33 & _ & _ & _).
    assert (E2 : pack_rows (step (a st2)) = r2 st2) by congruence.
    assert (E3 : r2 st2 = pack_rows (step (a st))) by congruence.
    assert (Hr : ring_hit (rules st2) = true
                 /\ pack_rows (a (rules st2)) = r2 (rules st2)
                 /\ r2 (rules st2) = pack_rows (step (a st))).
    { unfold ring_hit. destruct (rules_eq st2) as [o ->]. state_simpl.
      rewrite (bool_decide_eq_true_2 _ E2), orb_true_r. now repeat split. }
    destruct Hr as (Hr1 & Hr2 & Hr3).
    revert C3 R13 R33. generalize (tick t3 st2). intros st3 C3 R13 R33.
    split; [exact Hr1|]. split; [exact Hr2|]. split; [exact Hr3|].
    split; [rewrite C3, Hr1; reflexivity | congruence]. }
  split; [|split; [exact K1 | exact K2]].
  destruct (periodic st1) eqn:P1; [now left|right].
  destruct (K2 eq_refl) as (_ & K3).
  destruct (periodic (tick t2 st1)) eqn:P2; [now left|right].
  destruct (K3 eq_refl) as (_ & _ & _ & P3 & E). now split.
Qed.

Lemma period_two_flagged_witness :
  let st := set_a blinker (globals0 rnd0) in
  step blinker <> blinker
  /\ periodic (tick 10 st) = false
  /\ periodic (tick 20 (tick 10 st)) = false
  /\ ring_hit (rules (tick 20 (tick 10 st))) = true
  /\ periodic (tick 30 (tick 20 (tick 10 st))) = true
  /\ r1 (tick 30 (tick 20 (tick 10 st))) = r3 (tick 30 (tick 20 (tick 10 st))).
Proof.
  intros st. split; [vm_compute; discriminate|].
  assert (P1 : periodic (tick 10 st) = false) by (vm_compute; reflexivity).
  assert (P2 : periodic (tick 20 (tick 10 st)) = false) by (vm_compute; reflexivity).
  destruct (period_two_flagged st 10 20 30) as (_ & _ & K).
  - reflexivity.
  - vm_compute. reflexivity.
  - destruct (K P1) as (_ & K3). destruct (K3 P2) as (Hr & _ & _ & P3 & E).
    split; [exact P1|]. split; [exact P2|]. split; [exact Hr|].
    split; [exact P3 | exact E].
Defined.

(** The glider of page 1, run from boot: the checkpoint is still empty
    when generation 64 is observed, and holds generation 64 when
    generation 128 is. *)
Lemma glider_run :
  let b := boot rnd0 in
  r64 (Nat.iter 63 (tick 0) b) = zero_rows
  /\ periodic (Nat.iter 64 (tick 0) b) = false
  /\ r64 (Nat.iter 64 (tick 0) b) = pack_rows p1
  /\ periodic (Nat.iter 127 (tick 0) b) = false
  /\ g (Nat.iter 128 (tick 0) b) = 128
  /\ r1 (Nat.iter 128 (tick 0) b) = pack_rows p1
  /\ periodic (Nat.iter 128 (tick 0) b) = true.
Proof. vm_compute. repeat split. Qed.

(** C2 (as the sketch has it). When the generation counted by an
    observation is a multiple of 64, the flag is raised exactly when the
    new grid equals the checkpoint [r64] left by the previous such
    observation (all zero after boot) or one of the three older ring
    entries, and the new grid becomes the checkpoint.  The glider seeded
    at boot is therefore not flagged at generation 64; it is flagged at
    generation 128. *)
Theorem checkpoint_flags_on_match (st : state) (t : Z) :
  periodic st = false ->
  Z.rem (sint (g st + 1)) 64 = 0 ->
  (periodic (tick t st) = true <->
   r1 (tick t st) = r64 st \/ r1 (tick t st) = r1 st
   \/ r1 (tick t st) = r2 st \/ r1 (tick t st) = r3 st)
  /\ r1 (tick t st) = pack_rows (a (tick t st))
  /\ r64 (tick t st) = r1 (tick t st)
  /\ let b := boot rnd0 in
     r64 (Nat.iter 63 (tick 0) b) = zero_rows
     /\ periodic (Nat.iter 64 (tick 0) b) = false
     /\ r64 (Nat.iter 64 (tick 0) b) = pack_rows p1
     /\ periodic (Nat.iter 127 (tick 0) b) = false
     /\ g (Nat.iter 128 (tick 0) b) = 128
     /\ r1 (Nat.iter 128 (tick 0) b) = pack_rows p1
     /\ periodic (Nat.iter 128 (tick 0) b) = true.
Proof.
  intros H0 Hg.
  destruct (tick_observation t st H0) as (A1 & _ & R1 & _ & _ & _ & R64 & P1).
  apply Z.eqb_eq in Hg. rewrite Hg in R64, P1. rewrite andb_true_l in P1.
  set (st1 := tick t st) in *. clearbody st1.
  split; [|split; [|split]].
  - rewrite P1, R1, !orb_true_iff, !bool_decide_eq_true. tauto.
  - now rewrite R1, A1.
  - now rewrite R64, R1.
  - exact glider_run.
Qed.

Lemma checkpoint_flags_on_match_witness :
  let st := Nat.iter 63 (tick 0) (boot rnd0) in
  g st = 63
  /\ (periodic (tick 0 st) = true <->
      r1 (tick 0 st) = r64 st \/ r1 (tick 0 st) = r1 st
      \/ r1 (tick 0 st) = r2 st \/ r1 (tick 0 st) = r3 st).
Proof.
  intros st.
  assert (Hg : g st = 63) by (vm_compute; reflexivity).
  split; [exact Hg|].
  apply (checkpoint_flags_on_match st 0).
  - vm_compute. reflexivity.
  - rewrite Hg. reflexivity.
Defined.

(** C2, as stated, fails: the glider seeded at boot has, at generation
    64, exactly the bit pattern of generation 0, and is not flagged. *)
Lemma glider_not_flagged_at_generation_64 :
  let b := boot rnd0 in
  let st := Nat.iter 64 (tick 0) b in
  g b = 0 /\ a b = p1
  /\ g st = 64 /\ a st = a b
  /\ periodic st = false.
Proof. vm_compute. repeat split. Qed.

(** ** The generation step: bits *)

Lemma uint_range z : 0 <= uint z < 2 ^ 32.
Proof. unfold uint. apply Z.mod_pos_bound. lia. Qed.

Lemma uint_small z : 0 <= z < 2 ^ 32 -> uint z = z.
Proof. intros H. unfold uint. now apply Z.mod_small. Qed.

Lemma testbit_uint z j : Z.testbit (uint z) j = (j <? 32) && Z.testbit z j.
Proof. unfold uint. apply Z.testbit_mod_pow2. lia. Qed.

Lemma testbit_high v j : 0 <= v < 2 ^ 32 -> 32 <= j -> Z.testbit v j = false.
Proof.
  intros Hv Hj. rewrite <- (uint_small v Hv), testbit_uint.
  destruct (Z.ltb_spec j 32); [lia|reflexivity].
Qed.

Lemma bitRead_testbit v b : 0 <= b -> bitRead v b = Z.b2z (Z.testbit v b).
Proof.
  intros Hb. unfold bitRead.
  change 1 with (Z.ones 1) at 1. rewrite Z.land_ones by lia.
  change (2 ^ 1) with 2. rewrite <- Z.bit0_mod, Z.shiftr_spec by lia.
  reflexivity.
Qed.

Lemma testbit_shiftl_1 k j : 0 <= k -> Z.testbit (Z.shiftl 1 k) j = (k =? j).
Proof. intros Hk. rewrite Z.shiftl_1_l. now apply Z.pow2_bits_eqb. Qed.

Lemma bitWrite_testbit v k b j :
  0 <= v < 2 ^ 32 -> 0 <= k < 32 -> 0 <= j ->
  Z.testbit (bitWrite v k b) j = if j =? k then negb (b =? 0) else Z.testbit v j.
Proof.
  intros Hv Hk Hj. unfold bitWrite, bitClear, bitSet.
  destruct (Z.ltb_spec j 32) as [Hlt|Hge].
  - destruct (b =? 0); cbn [negb];
      rewrite !testbit_uint, ?Z.land_spec, ?Z.lor_spec, ?testbit_uint,
              ?Z.lnot_spec, ?testbit_uint, ?testbit_shiftl_1 by lia;
      rewrite (Z.eqb_sym k j);
      destruct (Z.ltb_spec j 32); try lia;
      destruct (j =? k), (Z.testbit v j); reflexivity.
  - destruct (Z.eqb_spec j k); [lia|].
    rewrite (testbit_high v j Hv Hge).
    destruct (b =? 0); rewrite testbit_uint;
      destruct (Z.ltb_spec j 32); try lia; reflexivity.
Qed.

Lemma bitWrite_range v k b : 0 <= bitWrite v k b < 2 ^ 32.
Proof. unfold bitWrite, bitClear, bitSet. destruct (b =? 0); apply uint_range. Qed.

(** ** The generation step: one row *)

Lemma rules_cell_row aTemp i k (aTemp2 : list Z) :
  (i < length aTemp2)%nat ->
  rules_cell aTemp i k aTemp2 = <[i := cell_update aTemp i k (aTemp2 !!! i)]> aTemp2.
Proof.
  intros Hi. unfold rules_cell, cell_update. cbv zeta.
  assert (Hid : <[i := aTemp2 !!! i]> aTemp2 = aTemp2).
  { apply list_insert_id. now apply list_lookup_lookup_total_lt. }
  repeat match goal with
    | |- context [if ?c then _ else _] => destruct c
    end; auto.
Qed.

Lemma inner_loop_row aTemp i K : forall aTemp2 : list Z,
  (i < length aTemp2)%nat ->
  for_loop 0 K (fun k => rules_cell aTemp i k) aTemp2
  = <[i := for_loop 0 K (cell_update aTemp i) (aTemp2 !!! i)]> aTemp2.
Proof.
  induction K as [|K IH]; intros aTemp2 Hi.
  - rewrite !for_loop_empty. symmetry. apply list_insert_id.
    now apply list_lookup_lookup_total_lt.
  - rewrite !for_loop_S by lia. rewrite IH by exact Hi.
    rewrite rules_cell_row by (rewrite length_insert; exact Hi).
    rewrite list_lookup_total_insert_eq by exact Hi.
    apply list_insert_insert_eq.
Qed.

Lemma cell_update_range aTemp i k row :
  0 <= row < 2 ^ 32 -> 0 <= cell_update aTemp i k row < 2 ^ 32.
Proof.
  intros H. unfold cell_update. cbv zeta.
  repeat match goal with
    | |- context [if ?c then _ else _] => destruct c
    end; auto using bitWrite_range.
Qed.

Lemma row_loop_range aTemp i K row :
  0 <= row < 2 ^ 32 -> 0 <= for_loop 0 K (cell_update aTemp i) row < 2 ^ 32.
Proof.
  intros H. apply (for_loop_invariant (fun v => 0 <= v < 2 ^ 32)); [exact H|].
  intros k v _. apply cell_update_range.
Qed.

Lemma b2z_range b : 0 <= Z.b2z b <= 1.
Proof. destruct b; cbn; lia. Qed.

Lemma total_range aTemp i k : 0 <= total aTemp i k <= 8.
Proof.
  unfold total. cbv zeta. rewrite !bitRead_testbit by lia.
  repeat match goal with
    | |- context [Z.b2z ?b] =>
        pose proof (b2z_range b); generalize dependent (Z.b2z b); intros
    end.
  lia.
Qed.

Lemma row_loop_bits aTemp i K :
  0 <= aTemp !!! i < 2 ^ 32 -> (K <= 32)%nat ->
  forall j,
  Z.testbit (for_loop 0 K (cell_update aTemp i) (aTemp !!! i)) (Z.of_nat j)
  = if (j <? K)%nat then next_bit aTemp i j
    else Z.testbit (aTemp !!! i) (Z.of_nat j).
Proof.
  intros Hv. induction K as [|K IH]; intros HK j.
  - now rewrite for_loop_empty.
  - rewrite for_loop_S by lia.
    pose proof (row_loop_range aTemp i K _ Hv) as Hrow.
    specialize (IH ltac:(lia)).
    set (row := for_loop 0 K (cell_update aTemp i) (aTemp !!! i)) in *.
    clearbody row.
    pose proof (total_range aTemp i K) as Ht.
    assert (HK' : Z.testbit row (Z.of_nat K) = Z.testbit (aTemp !!! i) (Z.of_nat K)).
    { rewrite IH. destruct (Nat.ltb_spec K K); [lia|reflexivity]. }
    assert (Hj : j <> K -> forall b,
               Z.testbit (bitWrite row (Z.of_nat K) b) (Z.of_nat j)
               = Z.testbit row (Z.of_nat j)).
    { intros Hne b. rewrite bitWrite_testbit by lia.
      destruct (Z.eqb_spec (Z.of_nat j) (Z.of_nat K)); [lia|reflexivity]. }
    assert (Hw : forall b,
               Z.testbit (bitWrite row (Z.of_nat K) b) (Z.of_nat K) = negb (b =? 0)).
    { intros b. rewrite bitWrite_testbit by lia. now rewrite Z.eqb_refl. }
    unfold cell_update. cbv zeta. rewrite bitRead_testbit by lia.
    destruct (Nat.eq_dec j K) as [->|Hne].
    + destruct (Nat.ltb_spec K (S K)); [|lia].
      unfold next_bit.
      destruct (Z.testbit (aTemp !!! i) (Z.of_nat K)) eqn:Hb; cbn [Z.b2z Z.eqb Pos.eqb].
      * destruct (Z.ltb_spec (total aTemp i K) 2), (Z.eqb_spec (total aTemp i K) 2),
          (Z.eqb_spec (total aTemp i K) 3); try lia; rewrite ?Z.gtb_ltb; cbn [orb];
          rewrite ?Hw; try reflexivity;
          destruct (Z.ltb_spec 3 (total aTemp i K)); try lia;
          rewrite ?Hw, ?HK'; reflexivity.
      * destruct (Z.eqb_spec (total aTemp i K) 3); rewrite ?Hw, ?HK'; reflexivity.
    + assert (E : (j <? S K)%nat = (j <? K)%nat).
      { destruct (Nat.ltb_spec j (S K)), (Nat.ltb_spec j K); try reflexivity; lia. }
      rewrite E, <- IH.
      repeat match goal with
        | |- context [if ?c then _ else _] => destruct c
        end; rewrite ?Hj by exact Hne; reflexivity.
Qed.

(** ** The generation step: the arrays *)

(** A loop whose pass [i] rewrites entry [i] from its old value. *)
Lemma for_loop_rows {A : Type} `{!Inhabited A} (h : nat -> A -> A)
      (body : nat -> list A -> list A) (l : list A) N :
  (forall i (l' : list A), (i < N)%nat -> length l' = length l ->
                           body i l' = <[i := h i (l' !!! i)]> l') ->
  (N <= length l)%nat ->
  length (for_loop 0 N body l) = length l
  /\ forall i, for_loop 0 N body l !!! i
               = if (i <? N)%nat then h i (l !!! i) else l !!! i.
Proof.
  induction N as [|N IH]; intros Hbody HN.
  - rewrite for_loop_empty. split; [reflexivity|]. intros i. reflexivity.
  - rewrite for_loop_S by lia.
    destruct IH as [IHlen IHget]; [intros; apply Hbody; lia|lia|].
    rewrite Hbody by (lia || exact IHlen).
    split; [now rewrite length_insert|].
    intros i. destruct (Nat.eq_dec i N) as [->|Hne].
    + rewrite list_lookup_total_insert_eq by lia. rewrite IHget.
      destruct (Nat.ltb_spec N N), (Nat.ltb_spec N (S N)); try lia. reflexivity.
    + rewrite list_lookup_total_insert_ne by lia. rewrite IHget.
      destruct (Nat.ltb_spec i N), (Nat.ltb_spec i (S N)); try lia; reflexivity.
Qed.

Lemma pack_rows_spec u :
  length (pack_rows u) = 16%nat
  /\ forall i, (i < 16)%nat -> pack_rows u !!! i = pack u i.
Proof.
  unfold pack_rows.
  destruct (for_loop_rows (fun i _ => pack u i)
              (fun i t => <[i := pack u i]> t) zero_rows n) as [Hlen Hget].
  - reflexivity.
  - reflexivity.
  - split; [exact Hlen|]. intros i Hi. rewrite Hget.
    change n with 16%nat. destruct (Nat.ltb_spec i 16); [reflexivity|lia].
Qed.

Lemma rules_sweep_spec aTemp (aTemp2 : list Z) :
  length aTemp2 = 16%nat ->
  forall i, (i < 16)%nat ->
  rules_sweep aTemp aTemp2 !!! i = for_loop 0 m (cell_update aTemp i) (aTemp2 !!! i).
Proof.
  intros Hlen i Hi. unfold rules_sweep.
  destruct (for_loop_rows (fun i v => for_loop 0 m (cell_update aTemp i) v)
              (fun i => for_loop 0 m (fun k => rules_cell aTemp i k)) aTemp2 n)
    as [_ Hget].
  - intros j l' Hj Hl'. apply inner_loop_row. rewrite Hl', Hlen.
    change n with 16%nat in Hj. exact Hj.
  - rewrite Hlen. reflexivity.
  - rewrite Hget. change n with 16%nat.
    destruct (Nat.ltb_spec i 16); [reflexivity|lia].
Qed.

Lemma set2_row (u : grid) i v0 v1 :
  set2 (set2 u i 0 v0) i 1 v1 = <[i := (v0, v1)]> u.
Proof.
  unfold set2. cbn [Nat.eqb].
  destruct (Nat.lt_ge_cases i (length u)) as [Hi|Hi].
  - rewrite list_lookup_total_insert_eq by exact Hi. cbn [fst].
    apply list_insert_insert_eq.
  - now rewrite !list_insert_ge by (rewrite ?length_insert; lia).
Qed.

Lemma unpack_rows_spec (aTemp2 : list Z) (u : grid) :
  length u = 16%nat ->
  length (unpack_rows aTemp2 u) = 16%nat
  /\ forall i, (i < 16)%nat ->
               unpack_rows aTemp2 u !!! i
               = (Z.shiftr (aTemp2 !!! i) 8, Z.land (aTemp2 !!! i) 255).
Proof.
  intros Hlen. unfold unpack_rows.
  destruct (for_loop_rows
              (fun i (_ : Z * Z) => (Z.shiftr (aTemp2 !!! i) 8, Z.land (aTemp2 !!! i) 255))
              (fun i u => set2 (set2 u i 0 (Z.shiftr (aTemp2 !!! i) 8)) i 1
                               (Z.land (aTemp2 !!! i) 255)) u n) as [Hl Hget].
  - intros i l' _ _. apply set2_row.
  - rewrite Hlen. reflexivity.
  - split; [now rewrite Hl|]. intros i Hi. rewrite Hget.
    change n with 16%nat. destruct (Nat.ltb_spec i 16); [reflexivity|lia].
Qed.

(** ** The generation step: cells *)

Lemma wf_grid_row u i :
  wf_grid u -> (i < 16)%nat ->
  0 <= at2 u i 0 < 256 /\ 0 <= at2 u i 1 < 256.
Proof.
  intros [Hlen Hall] Hi. unfold at2. cbn [Nat.eqb].
  apply (Forall_lookup_total_1 _ _ i) in Hall; [exact Hall|lia].
Qed.

Lemma pack_wf u i :
  wf_grid u -> (i < 16)%nat ->
  pack u i = at2 u i 0 * 2 ^ 8 + at2 u i 1 /\ 0 <= pack u i < 2 ^ 16.
Proof.
  intros Hwf Hi. destruct (wf_grid_row u i Hwf Hi) as [H0 H1].
  unfold pack. rewrite Z.shiftl_mul_pow2 by lia.
  rewrite (uint_small (_ * _)) by lia. rewrite uint_small by lia. lia.
Qed.

Lemma pack_testbit u i k :
  wf_grid u -> (i < 16)%nat -> (k < 16)%nat ->
  Z.testbit (pack u i) (Z.of_nat k)
  = if (k <? 8)%nat then Z.testbit (at2 u i 1) (Z.of_nat k)
    else Z.testbit (at2 u i 0) (Z.of_nat (k - 8)).
Proof.
  intros Hwf Hi Hk. destruct (wf_grid_row u i Hwf Hi) as [H0 H1].
  destruct (pack_wf u i Hwf Hi) as [-> _].
  destruct (Nat.ltb_spec k 8) as [H8|H8].
  - rewrite <- (Z.mod_pow2_bits_low _ 8) by lia.
    rewrite Z.add_comm, Z.mod_add by lia. now rewrite Z.mod_small by lia.
  - replace (Z.of_nat k) with (Z.of_nat (k - 8) + 8) by lia.
    rewrite <- Z.div_pow2_bits by lia.
    rewrite Z.div_add_l by lia. rewrite (Z.div_small (at2 u i 1)) by lia.
    now rewrite Z.add_0_r.
Qed.

(** A logical cell is bit [15 - c] of the packed row. *)
Lemma cell_pack u r c :
  wf_grid u -> (r < 16)%nat -> (c < 16)%nat ->
  cell u r c = Z.testbit (pack u r) (Z.of_nat (15 - c)).
Proof.
  intros Hwf Hr Hc. rewrite pack_testbit by (assumption || lia). unfold cell.
  destruct (Nat.ltb_spec c 8), (Nat.ltb_spec (15 - c) 8); try lia.
  - now replace (15 - c - 8)%nat with (7 - c)%nat by lia.
  - reflexivity.
Qed.

Lemma step_row u r :
  length u = 16%nat -> (r < 16)%nat ->
  step u !!! r = (Z.shiftr (next_row u r) 8, Z.land (next_row u r) 255).
Proof.
  intros Hlen Hr. unfold step. cbv zeta.
  destruct (unpack_rows_spec (rules_sweep (pack_rows u) (pack_rows u)) u Hlen)
    as [_ Hget].
  rewrite Hget by exact Hr.
  destruct (pack_rows_spec u) as [Hpl _].
  unfold next_row. rewrite rules_sweep_spec by assumption. reflexivity.
Qed.

Lemma cell_step u r c :
  wf_grid u -> (r < 16)%nat -> (c < 16)%nat ->
  cell (step u) r c = next_bit (pack_rows u) r (15 - c).
Proof.
  intros Hwf Hr Hc. destruct (pack_rows_spec u) as [Hpl Hpg].
  destruct (pack_wf u r Hwf Hr) as [_ Hrange].
  assert (Hbits : Z.testbit (next_row u r) (Z.of_nat (15 - c))
                  = next_bit (pack_rows u) r (15 - c)).
  { unfold next_row. rewrite row_loop_bits.
    - change m with 16%nat. destruct (Nat.ltb_spec (15 - c) 16); [reflexivity|lia].
    - rewrite Hpg by exact Hr. lia.
    - change m with 16%nat. lia. }
  rewrite <- Hbits. unfold cell, at2. cbn [Nat.eqb].
  rewrite step_row by (apply Hwf || exact Hr). cbn [fst snd].
  destruct (Nat.ltb_spec c 8).
  - rewrite Z.shiftr_spec by lia. f_equal. lia.
  - change 255 with (Z.ones 8). rewrite Z.land_spec, Z.ones_spec_low by lia.
    now rewrite andb_true_r.
Qed.

(** ** The generation step: the neighbourhood *)

Lemma wrap16_lt z : (wrap16 z < 16)%nat.
Proof. unfold wrap16. pose proof (Z.mod_pos_bound z 16). lia. Qed.

Lemma index_up i : (i < 16)%nat -> ((i + (n - 1)) mod n)%nat = wrap16 (Z.of_nat i - 1).
Proof. intros H. do 16 (destruct i as [|i]; [reflexivity|]). lia. Qed.

Lemma index_down i : (i < 16)%nat -> ((i + 1) mod n)%nat = wrap16 (Z.of_nat i + 1).
Proof. intros H. do 16 (destruct i as [|i]; [reflexivity|]). lia. Qed.

Lemma bit_left c :
  (c < 16)%nat ->
  (((15 - c) + (m - 1)) mod m)%nat = (15 - wrap16 (Z.of_nat c + 1))%nat.
Proof. intros H. do 16 (destruct c as [|c]; [reflexivity|]). lia. Qed.

Lemma bit_right c :
  (c < 16)%nat ->
  (((15 - c) + 1) mod m)%nat = (15 - wrap16 (Z.of_nat c - 1))%nat.
Proof. intros H. do 16 (destruct c as [|c]; [reflexivity|]). lia. Qed.

Lemma snapshot_bit u r c :
  wf_grid u -> (r < 16)%nat -> (c < 16)%nat ->
  Z.testbit (pack_rows u !!! r) (Z.of_nat (15 - c)) = cell u r c.
Proof.
  intros Hwf Hr Hc. destruct (pack_rows_spec u) as [_ Hget].
  rewrite Hget by exact Hr. symmetry. now apply cell_pack.
Qed.

Lemma count_cons {A : Type} (f : A -> bool) (x0 : A) (l : list A) :
  Z.of_nat (length (List.filter f (x0 :: l)))
  = Z.b2z (f x0) + Z.of_nat (length (List.filter f l)).
Proof. cbn [List.filter]. destruct (f x0); cbn [length Z.b2z]; lia. Qed.

Lemma total_live_neighbours u r c :
  wf_grid u -> (r < 16)%nat -> (c < 16)%nat ->
  total (pack_rows u) r (15 - c) = Z.of_nat (live_neighbours u r c).
Proof.
  intros Hwf Hr Hc. unfold total. cbv zeta.
  rewrite !bitRead_testbit by lia.
  rewrite index_up, index_down, bit_left, bit_right by assumption.
  pose proof (wrap16_lt (Z.of_nat r - 1)) as Hu.
  pose proof (wrap16_lt (Z.of_nat r + 1)) as Hd.
  pose proof (wrap16_lt (Z.of_nat c - 1)) as Hl.
  pose proof (wrap16_lt (Z.of_nat c + 1)) as Hg.
  rewrite !snapshot_bit by (assumption || lia).
  unfold live_neighbours, neighbours. cbv zeta.
  rewrite !count_cons. cbn [List.filter length fst snd Z.of_nat]. lia.
Qed.

Lemma bits_small v :
  0 <= v -> (forall j, (16 <= j)%nat -> Z.testbit v (Z.of_nat j) = false) ->
  v < 2 ^ 16.
Proof.
  intros Hv Hbits.
  enough (E : v = v mod 2 ^ 16) by (rewrite E; apply Z.mod_pos_bound; lia).
  apply Z.bits_inj'. intros k Hk. rewrite Z.testbit_mod_pow2 by lia.
  destruct (Z.ltb_spec k 16); [reflexivity|]. cbn [andb].
  rewrite <- (Z2Nat.id k) by lia. apply Hbits. lia.
Qed.

Lemma next_row_range u r :
  wf_grid u -> (r < 16)%nat -> 0 <= next_row u r < 2 ^ 16.
Proof.
  intros Hwf Hr. destruct (pack_rows_spec u) as [_ Hget].
  destruct (pack_wf u r Hwf Hr) as [_ Hp].
  assert (H32 : 0 <= pack_rows u !!! r < 2 ^ 32) by (rewrite Hget by exact Hr; lia).
  assert (Hrow : 0 <= next_row u r < 2 ^ 32)
    by (unfold next_row; apply row_loop_range; exact H32).
  split; [lia|].
  apply bits_small; [lia|]. intros j Hj.
  unfold next_row. rewrite row_loop_bits by (assumption || (change m with 16%nat; lia)).
  change m with 16%nat. destruct (Nat.ltb_spec j 16); [lia|].
  rewrite Hget by exact Hr.
  destruct (Z.testbit (pack u r) (Z.of_nat j)) eqn:E; [|reflexivity].
  exfalso. apply Z.testbit_true in E; [|lia].
  assert (2 ^ 16 <= 2 ^ Z.of_nat j) by (apply Z.pow_le_mono_r; lia).
  rewrite Z.div_small in E by lia. discriminate.
Qed.

Lemma step_length u : length u = 16%nat -> length (step u) = 16%nat.
Proof. intros Hlen. unfold step. cbv zeta. now apply unpack_rows_spec. Qed.

Lemma wf_grid_step u : wf_grid u -> wf_grid (step u).
Proof.
  intros Hwf. pose proof Hwf as [Hlen _].
  pose proof (step_length u Hlen) as Hl.
  split; [exact Hl|].
  refine (Forall_lookup_total_2 _ _ _). intros i Hi.
  assert (Hi' : (i < 16)%nat) by lia.
  rewrite step_row by assumption. cbn [fst snd].
  pose proof (next_row_range u i Hwf Hi') as Hr.
  rewrite Z.shiftr_div_pow2 by lia.
  change 255 with (Z.ones 8). rewrite Z.land_ones by lia.
  pose proof (Z.mod_pos_bound (next_row u i) (2 ^ 8) ltac:(lia)).
  assert (next_row u i / 2 ^ 8 < 256) by (apply Z.div_lt_upper_bound; lia).
  assert (0 <= next_row u i / 2 ^ 8) by (apply Z.div_pos; lia).
  lia.
Qed.

(** C1. In a 16x16 grid, every cell of the next generation is given by
    Conway's rule on the old generation: a live cell stays live exactly
    when 2 or 3 of its eight neighbours on the torus are live, a dead
    cell becomes live exactly when 3 are; all counts are taken in the old
    grid, and the result is again a 16x16 grid, the one [rules()] leaves
    in [a]. *)
Theorem step_life_rule (u : grid) (r c : nat) :
  wf_grid u -> (r < 16)%nat -> (c < 16)%nat ->
  cell (step u) r c = life (cell u r c) (live_neighbours u r c)
  /\ wf_grid (step u)
  /\ forall st, a st = u -> a (rules st) = step u.
Proof.
  intros Hwf Hr Hc. split; [|split].
  - rewrite cell_step by assumption. unfold next_bit, life.
    rewrite snapshot_bit, total_live_neighbours by assumption.
    set (k := live_neighbours u r c).
    assert (E2 : (Z.of_nat k =? 2) = (k =? 2)%nat)
      by (destruct (Z.eqb_spec (Z.of_nat k) 2), (Nat.eqb_spec k 2); lia || reflexivity).
    assert (E3 : (Z.of_nat k =? 3) = (k =? 3)%nat)
      by (destruct (Z.eqb_spec (Z.of_nat k) 3), (Nat.eqb_spec k 3); lia || reflexivity).
    now rewrite E2, E3.
  - now apply wf_grid_step.
  - intros st <-. apply a_rules.
Qed.

Lemma step_life_rule_witness :
  wf_grid p1
  /\ cell p1 2 3 = false /\ live_neighbours p1 2 3 = 3%nat
  /\ cell (step p1) 2 3 = life (cell p1 2 3) (live_neighbours p1 2 3).
Proof.
  assert (Hwf : wf_grid p1).
  { split; [reflexivity|].
    unfold p1. repeat (constructor; [unfold B; cbn [fst snd]; lia|]).
    constructor. }
  split; [exact Hwf|]. split; [reflexivity|]. split; [reflexivity|].
  apply (step_life_rule p1 2 3 Hwf); lia.
Defined.

(** * Further properties *)

(** Reduction of the field accessors in a hypothesis. *)
Ltac state_simpl_in H :=
  cbn [set_potVal set_brightness set_refreshRate set_periodic set_current
       set_previous set_timeoutCurrent set_timeoutPrevious set_patternSel
       set_counter set_g set_a set_mem set_r1 set_r2 set_r3 set_r4 set_r64
       set_p4 set_p5 set_p6 set_out set_rand potVal brightness refreshRate
       periodic current previous timeoutCurrent timeoutPrevious patternSel
       counter g a mem r1 r2 r3 r4 r64 p4 p5 p6 out rand] in H.

(** ** Random grids *)

Lemma generateData_row i st :
  for_loop 0 x
    (fun j st =>
       let '(rando, st) := random 256 st in
       let st := set_a (set2 (a st) i j rando) st in
       set_mem (set2 (mem st) i j rando) st) st
  = set_rand (fun k => rand st (S (S k)))
      (set_mem (<[i := (rand st 0%nat mod 256, rand st 1%nat mod 256)]> (mem st))
         (set_a (<[i := (rand st 0%nat mod 256, rand st 1%nat mod 256)]> (a st)) st)).
Proof.
  destruct st. cbv [for_loop x Nat.sub seq fold_left random]. state_cbv.
  rewrite !set2_row. reflexivity.
Qed.

Lemma list_eq_total {A : Type} `{!Inhabited A} (l1 l2 : list A) :
  length l1 = length l2 ->
  (forall i, (i < length l1)%nat -> l1 !!! i = l2 !!! i) ->
  l1 = l2.
Proof.
  intros Hlen Hget. apply list_eq. intros i.
  destruct (Nat.lt_ge_cases i (length l1)) as [Hi|Hi].
  - rewrite (list_lookup_lookup_total_lt l1 i Hi).
    rewrite (list_lookup_lookup_total_lt l2 i) by lia.
    now rewrite Hget.
  - rewrite !lookup_ge_None_2 by lia. reflexivity.
Qed.

Lemma random_grid_row rnd i :
  (i < 16)%nat ->
  random_grid rnd !!! i = (rnd (2 * i)%nat mod 256, rnd (2 * i + 1)%nat mod 256).
Proof. intros H. do 16 (destruct i as [|i]; [reflexivity|]). lia. Qed.

Lemma wf_random_grid rnd : wf_grid (random_grid rnd).
Proof.
  split; [reflexivity|]. unfold random_grid.
  apply List.Forall_forall. intros w Hw. apply in_map_iff in Hw.
  destruct Hw as (i & <- & _). cbn [fst snd].
  split; apply Z.mod_pos_bound; lia.
Qed.

Lemma generateData_rows N : forall st,
  (N <= 16)%nat -> length (a st) = 16%nat -> length (mem st) = 16%nat ->
  exists a' m' rd',
    for_loop 0 N
      (fun i =>
         for_loop 0 x
           (fun j st =>
              let '(rando, st) := random 256 st in
              let st := set_a (set2 (a st) i j rando) st in
              set_mem (set2 (mem st) i j rando) st)) st
    = set_rand rd' (set_mem m' (set_a a' st))
    /\ (length a' = 16%nat /\ length m' = 16%nat)
    /\ (forall i, (i < N)%nat ->
                  a' !!! i = (rand st (2 * i)%nat mod 256, rand st (2 * i + 1)%nat mod 256)
                  /\ m' !!! i = a' !!! i)
    /\ forall k, rd' k = rand st (2 * N + k)%nat.
Proof.
  induction N as [|N IH]; intros st HN Ha Hm.
  - rewrite for_loop_empty. exists (a st), (mem st), (rand st).
    split; [now destruct st|]. split; [now split|]. split; [intros i Hi; lia|].
    intros k. reflexivity.
  - rewrite for_loop_S by lia.
    destruct (IH st ltac:(lia) Ha Hm) as (a1 & m1 & rd1 & -> & [Ha1 Hm1] & Hrows & Hrd).
    rewrite generateData_row. state_simpl.
    exists (<[N := (rd1 0%nat mod 256, rd1 1%nat mod 256)]> a1),
           (<[N := (rd1 0%nat mod 256, rd1 1%nat mod 256)]> m1),
           (fun k => rd1 (S (S k))).
    split; [now destruct st|].
    split; [now rewrite !length_insert|].
    split.
    + intros i Hi. destruct (Nat.eq_dec i N) as [->|Hne].
      * rewrite !list_lookup_total_insert_eq by lia.
        rewrite !Hrd. split; [|reflexivity].
        now replace (2 * N + 0)%nat with (2 * N)%nat by lia.
      * rewrite !list_lookup_total_insert_ne by lia. apply Hrows. lia.
    + intros k. rewrite Hrd. f_equal. lia.
Qed.

(** X1. [generateData] fills the grid and the seed memory with the same
    bytes, the next 32 values of the random source taken two per row and
    reduced modulo 256; the result is a 16x16 grid and the source has
    advanced by exactly 32 values. *)
Theorem generateData_seed (st : state) :
  length (a st) = 16%nat -> length (mem st) = 16%nat ->
  a (generateData st) = random_grid (rand st)
  /\ mem (generateData st) = a (generateData st)
  /\ wf_grid (a (generateData st))
  /\ forall k, rand (generateData st) k = rand st (32 + k)%nat.
Proof.
  intros Ha Hm.
  destruct (generateData_rows n st (Nat.le_refl 16) Ha Hm)
    as (a1 & m1 & rd1 & H & [Ha1 Hm1] & Hrows & Hrd).
  assert (H' : generateData st = set_rand rd1 (set_mem m1 (set_a a1 st))) by exact H.
  rewrite H'. clear H H'.
  change n with 16%nat in Hrows, Hrd. state_simpl.
  assert (E : a1 = random_grid (rand st)).
  { apply list_eq_total; [now rewrite Ha1|]. intros i Hi.
    rewrite random_grid_row by lia. apply Hrows. lia. }
  assert (E' : m1 = a1).
  { apply list_eq_total; [lia|]. intros i Hi. apply Hrows. lia. }
  split; [exact E|]. split; [exact E'|]. split.
  - rewrite E. apply wf_random_grid.
  - intros k. apply Hrd.
Qed.

Lemma generateData_seed_witness :
  let st := boot rnd0 in
  a (generateData st) = random_grid rnd0
  /\ mem (generateData st) = a (generateData st).
Proof.
  intros st.
  destruct (generateData_seed st) as (Ha & Hm & _); [reflexivity|reflexivity|].
  split; [exact Ha | exact Hm].
Defined.

(** ** Progressive scan *)

Lemma updateDisplayScan_out u st :
  out (updateDisplayScan u st)
  = out st ++ scan_writes (sint (map (refreshRate st) 42 1000 0 50)) u.
Proof.
  destruct st.
  cbv [updateDisplayScan scan_writes for_loop s Nat.sub seq fold_left flat_map
       mat_setRow do_delay set_out out refreshRate].
  rewrite <- !app_assoc. reflexivity.
Qed.

Lemma last_row_scan z u r c :
  (r < 16)%nat -> (c < 16)%nat ->
  last_row (scan_writes z u) (tile_of r c) (r mod 8)
  = Some (at2 u r (c / 8) mod 256).
Proof.
  intros Hr Hc.
  assert (Hc8 : (c / 8 = 0 \/ c / 8 = 1)%nat).
  { destruct (Nat.lt_ge_cases c 8).
    - left. now apply Nat.div_small.
    - right. assert (c / 8 < 2)%nat by (apply Nat.Div0.div_lt_upper_bound; lia).
      assert (1 <= c / 8)%nat by (apply (Nat.Div0.div_le_mono 8 c 8); lia).
      change (8 / 8)%nat with 1%nat in *. lia. }
  unfold tile_of.
  do 16 (destruct r as [|r]; [destruct Hc8 as [->| ->]; reflexivity|]).
  lia.
Qed.

Lemma lit_row_byte v r c u :
  (r < 16)%nat -> (c < 16)%nat ->
  v = at2 u r (c / 8) mod 256 ->
  Z.testbit v (Z.of_nat (7 - c mod 8)) = cell u r c.
Proof.
  intros Hr Hc ->. unfold cell. destruct (Nat.ltb_spec c 8) as [H8|H8].
  - rewrite (Nat.div_small c 8), (Nat.mod_small c 8) by lia.
    change 256 with (2 ^ 8). apply Z.mod_pow2_bits_low. lia.
  - assert (E : (c = 8 + c mod 8)%nat).
    { rewrite (Nat.div_mod_eq c 8) at 1.
      assert (c / 8 < 2)%nat by (apply Nat.Div0.div_lt_upper_bound; lia).
      assert (1 <= c / 8)%nat by (apply (Nat.Div0.div_le_mono 8 c 8); lia).
      change (8 / 8)%nat with 1%nat in *. lia. }
    assert (E1 : (c / 8 = 1)%nat).
    { rewrite E. rewrite (Nat.div_add_l 1 8) by lia.
      rewrite Nat.div_small by (apply Nat.mod_upper_bound; lia). reflexivity. }
    rewrite E1. replace (15 - c)%nat with (7 - c mod 8)%nat by lia.
    change 256 with (2 ^ 8). apply Z.mod_pow2_bits_low.
    pose proof (Nat.mod_upper_bound c 8). lia.
Qed.

Lemma lit_after_frame tr u r c :
  (r < 16)%nat -> (c < 16)%nat ->
  lit (tr ++ frame_writes u) (tile_of r c) (r mod 8) (c mod 8) = cell u r c.
Proof.
  intros Hr Hc. unfold lit.
  rewrite last_row_app, (last_row_frame u r c Hr Hc).
  now apply lit_row_byte.
Qed.

Lemma lit_after_scan tr z u r c :
  (r < 16)%nat -> (c < 16)%nat ->
  lit (tr ++ scan_writes z u) (tile_of r c) (r mod 8) (c mod 8) = cell u r c.
Proof.
  intros Hr Hc. unfold lit.
  rewrite last_row_app, (last_row_scan z u r c Hr Hc).
  now apply lit_row_byte.
Qed.

(** X2. The progressive scan leaves the panel as the instant driver
    does: whatever was shown before and whatever the scan pause, every
    logical cell [(r, c)] ends up in module [3 - (2 * (r / 8) + c / 8)],
    row [r mod 8], column [c mod 8]. *)
Theorem updateDisplayScan_shows_grid (u : grid) (st : state) (r c : nat) :
  (r < 16)%nat -> (c < 16)%nat ->
  lit (out (updateDisplayScan u st)) (3 - (2 * (r / 8) + c / 8)) (r mod 8) (c mod 8)
  = cell u r c
  /\ lit (out (updateDisplayScan u st)) (3 - (2 * (r / 8) + c / 8)) (r mod 8) (c mod 8)
     = lit (out (updateDisplay u st)) (3 - (2 * (r / 8) + c / 8)) (r mod 8) (c mod 8).
Proof.
  intros Hr Hc. fold (tile_of r c).
  rewrite updateDisplayScan_out, updateDisplay_out.
  rewrite lit_after_scan, lit_after_frame by assumption. now split.
Qed.

Lemma updateDisplayScan_shows_grid_witness :
  lit (out (updateDisplayScan p3 (boot rnd0))) 0 3 1 = cell p3 11 9
  /\ cell p3 11 9 = true.
Proof.
  split; [|reflexivity].
  apply (updateDisplayScan_shows_grid p3 (boot rnd0) 11 9); lia.
Defined.

Lemma pause_app tr1 tr2 : pause (tr1 ++ tr2) = pause tr1 + pause tr2.
Proof.
  induction tr1 as [|ev tr1 IH]; [reflexivity|].
  destruct ev; cbn [app pause]; rewrite IH; lia.
Qed.

Lemma scan_pause_value rate :
  42 <= rate <= 2500 ->
  sint (map rate 42 1000 0 50) = (rate - 42) * 50 / 958
  /\ 0 <= (rate - 42) * 50 / 958 <= 128.
Proof.
  intros H. unfold map.
  assert (Hq : 0 <= (rate - 42) * 50 / 958 <= 128).
  { split; [apply Z.div_pos; lia|].
    enough ((rate - 42) * 50 / 958 < 129) by lia.
    apply Z.div_lt_upper_bound; lia. }
  split; [|exact Hq].
  change (50 - 0) with 50. change (1000 - 42) with 958.
  rewrite (sint_small (rate - 42)) by lia.
  rewrite (sint_small 50) by lia. rewrite (sint_small 958) by lia.
  rewrite (sint_small ((rate - 42) * 50)) by lia.
  rewrite Z.quot_div_nonneg by lia. rewrite Z.add_0_r.
  set (q := (rate - 42) * 50 / 958) in *. clearbody q.
  rewrite !(sint_small q) by lia. reflexivity.
Qed.

(** X3. With the tick period in its range [42, 2500] ms, one progressive
    scan makes sixteen pauses of [((period - 42) * 50 / 958) / 2] ms each,
    none negative, and together they stay below the tick period. *)
Theorem updateDisplayScan_pause (u : grid) (st : state) :
  42 <= refreshRate st <= 2500 ->
  let z := (refreshRate st - 42) * 50 / 958 in
  pause (out (updateDisplayScan u st)) = pause (out st) + 16 * (z / 2)
  /\ 0 <= z / 2 <= 64
  /\ 16 * (z / 2) < refreshRate st.
Proof.
  intros H z. destruct (scan_pause_value _ H) as [Hz Hzr]. fold z in Hz, Hzr.
  assert (Hh : 0 <= z / 2 <= 64).
  { split; [apply Z.div_pos; lia|].
    enough (z / 2 < 65) by lia. apply Z.div_lt_upper_bound; lia. }
  assert (Hz2 : 2 * (z / 2) <= z).
  { apply Z.mul_div_le. lia. }
  assert (Hz958 : 958 * z <= (refreshRate st - 42) * 50).
  { unfold z. apply Z.mul_div_le. lia. }
  split; [|split; [exact Hh|lia]].
  rewrite updateDisplayScan_out, pause_app, Hz.
  generalize (pause (out st)). intros p0.
  unfold scan_writes. rewrite Z.quot_div_nonneg by lia.
  set (h := z / 2) in *. clearbody h.
  assert (Eh : uint h = h) by (apply uint_small; lia).
  cbv [s seq flat_map app pause]. rewrite Eh. lia.
Qed.

Lemma updateDisplayScan_pause_witness :
  let st := set_refreshRate 2500 (boot rnd0) in
  pause (out (updateDisplayScan p1 st)) = pause (out st) + 1024.
Proof.
  intros st.
  destruct (updateDisplayScan_pause p1 st) as (Hp & _).
  - change (refreshRate st) with 2500. lia.
  - exact Hp.
Defined.

(** ** Ripple animation *)

Lemma ripple_inner (f : nat -> Z) q i (rm : list (list (Z * Z))) :
  (q < length rm)%nat ->
  for_loop 0 x (fun j rm => <[q := set2 (rm !!! q) i j (f j)]> rm) rm
  = <[q := <[i := (f 0%nat, f 1%nat)]> (rm !!! q)]> rm.
Proof.
  intros Hq. cbv [for_loop x Nat.sub seq fold_left].
  rewrite list_lookup_total_insert_eq by exact Hq.
  rewrite list_insert_insert_eq. now rewrite set2_row.
Qed.

Lemma ripple_rows (g : nat -> Z * Z) q N : forall rm : list (list (Z * Z)),
  (q < length rm)%nat ->
  for_loop 0 N (fun i rm => <[q := <[i := g i]> (rm !!! q)]> rm) rm
  = <[q := for_loop 0 N (fun i gq => <[i := g i]> gq) (rm !!! q)]> rm.
Proof.
  induction N as [|N IH]; intros rm Hq.
  - rewrite !for_loop_empty. symmetry. apply list_insert_id.
    now apply list_lookup_lookup_total_lt.
  - rewrite !for_loop_S by lia. rewrite IH by exact Hq.
    rewrite list_lookup_total_insert_eq by exact Hq.
    apply list_insert_insert_eq.
Qed.

Lemma for_loop_ext {S : Type} lo hi (f g : nat -> S -> S) st :
  (forall i st', f i st' = g i st') -> for_loop lo hi f st = for_loop lo hi g st.
Proof.
  intros H. unfold for_loop. generalize (seq lo (hi - lo)). intros l. revert st.
  induction l as [|i l IH]; intros st; [reflexivity|]. simpl. now rewrite H, IH.
Qed.

(** The array [ripMem] after the first loop nest of [updateDisplayRipple]. *)
Lemma ripMem_frames (u : grid) q :
  (q < 15)%nat -> ripMem_of u !!! q = ripple_frame u q.
Proof.
  unfold ripMem_of.
  intros Hq.
  set (g := fun q i => (Z.land (at2 u i 0) (at2 (rip !!! q) i 0),
                        Z.land (at2 u i 1) (at2 (rip !!! q) i 1))).
  destruct (for_loop_rows
              (fun q gq => for_loop 0 n (fun i gq => <[i := g q i]> gq) gq)
              (fun q =>
                 for_loop 0 n
                   (fun i =>
                      for_loop 0 x
                        (fun j (ripMem : list (list (Z * Z))) =>
                           <[q := set2 (ripMem !!! q) i j
                                    (Z.land (at2 u i j) (at2 (rip !!! q) i j))]> ripMem)))
              (replicate 15 zero_grid) 15) as [_ Hget].
  - intros q' rm Hq' Hlen.
    rewrite <- ripple_rows by (rewrite Hlen; exact Hq').
    apply for_loop_ext. intros i rm'.
    destruct (Nat.lt_ge_cases q' (length rm')) as [Hl|Hl].
    + now rewrite (ripple_inner (fun j => Z.land (at2 u i j) (at2 (rip !!! q') i j)))
        by exact Hl.
    + cbv [for_loop x Nat.sub seq fold_left].
      now rewrite !list_insert_ge by (rewrite ?length_insert; lia).
  - reflexivity.
  - rewrite Hget. destruct (Nat.ltb_spec q 15); [|lia].
    destruct (for_loop_rows (fun i (_ : Z * Z) => g q i)
                (fun i gq => <[i := g q i]> gq)
                (replicate 15 zero_grid !!! q) n) as [Hlen' Hget'].
    + reflexivity.
    + rewrite lookup_total_replicate_2 by exact Hq. reflexivity.
    + apply list_eq_total.
      * rewrite Hlen'. rewrite lookup_total_replicate_2 by exact Hq. reflexivity.
      * intros i Hi. rewrite Hlen' in Hi.
        rewrite lookup_total_replicate_2 in Hi by exact Hq.
        change (length zero_grid) with 16%nat in Hi.
        rewrite Hget'. change n with 16%nat.
        destruct (Nat.ltb_spec i 16); [|lia].
        unfold ripple_frame, g. clear - Hi.
        do 16 (destruct i as [|i]; [reflexivity|]). lia.
Qed.

Lemma frames_loop (F : nat -> grid) (d : Z) N : forall st,
  writes_out_only st
    (for_loop 0 N (fun q st => do_delay d (updateDisplay (F q) st)) st)
  /\ out (for_loop 0 N (fun q st => do_delay d (updateDisplay (F q) st)) st)
     = out st ++ flat_map (fun q => frame_writes (F q) ++ [delay (uint d)]) (seq 0 N).
Proof.
  induction N as [|N IH]; intros st.
  - rewrite for_loop_empty. split; [apply writes_out_only_refl|].
    cbn [seq flat_map]. now rewrite app_nil_r.
  - rewrite for_loop_S by lia. destruct (IH st) as [[o Ho] Hout].
    rewrite Ho in Hout |- *. state_simpl_in Hout.
    destruct (updateDisplay_frame (F N) (set_out o st)) as [o' Ho'].
    pose proof (updateDisplay_out (F N) (set_out o st)) as Hf.
    rewrite Ho' in Hf |- *. state_simpl_in Hf.
    split; [now eexists|].
    unfold do_delay. state_simpl.
    rewrite Hf, Hout, seq_S, flat_map_app. cbn [flat_map Nat.add].
    now rewrite app_nil_r, <- !app_assoc.
Qed.

Lemma cell_rip_diamond q r c :
  (q < 15)%nat -> (r < 16)%nat -> (c < 16)%nat ->
  cell (rip !!! q) r c = in_diamond q r c.
Proof.
  intros Hq Hr Hc.
  assert (H : forallb (fun q => forallb (fun r => forallb (fun c =>
                Bool.eqb (cell (rip !!! q) r c) (in_diamond q r c))
                (seq 0 16)) (seq 0 16)) (seq 0 15) = true)
    by (vm_compute; reflexivity).
  rewrite forallb_forall in H. specialize (H q ltac:(apply in_seq; lia)).
  rewrite forallb_forall in H. specialize (H r ltac:(apply in_seq; lia)).
  rewrite forallb_forall in H. specialize (H c ltac:(apply in_seq; lia)).
  now apply Bool.eqb_prop.
Qed.

Lemma cell_ripple_frame u q r c :
  (r < 16)%nat -> (c < 16)%nat ->
  cell (ripple_frame u q) r c = cell u r c && cell (rip !!! q) r c.
Proof.
  intros Hr Hc.
  assert (E : forall j, at2 (ripple_frame u q) r j
                        = Z.land (at2 u r j) (at2 (rip !!! q) r j)).
  { intros j. unfold ripple_frame. clear Hc.
    do 16 (destruct r as [|r]; [destruct j; reflexivity|]). lia. }
  unfold cell. rewrite !E. destruct (c <? 8)%nat; apply Z.land_spec.
Qed.

Lemma lit_after_delay tr d addr row col :
  lit (tr ++ [delay d]) addr row col = lit tr addr row col.
Proof. unfold lit. rewrite last_row_app. reflexivity. Qed.

Lemma updateDisplayRipple_out u st :
  out (updateDisplayRipple u st)
  = out st
    ++ flat_map (fun q => frame_writes (ripple_frame u q)
                          ++ [delay (uint (sint (map (refreshRate st) 42 1000 0 20)))])
         (seq 0 15).
Proof.
  unfold updateDisplayRipple. cbv zeta.
  destruct (frames_loop (fun q => ripMem_of u !!! q)
              (sint (map (refreshRate st) 42 1000 0 20)) 15 st) as [_ H].
  unfold updateDisplay in H. rewrite H. apply (f_equal (app (out st))).
  cbv [seq flat_map]. rewrite !ripMem_frames by lia. reflexivity.
Qed.

(** X4. [updateDisplayRipple] shows fifteen instant frames, a pause
    after each: frame [q] is the grid restricted to the cells within
    diamond distance [q] of the centre of the panel, and after the last
    frame the panel shows the whole grid. *)
Theorem updateDisplayRipple_frames (u : grid) (st : state) (q r c : nat) :
  (q < 15)%nat -> (r < 16)%nat -> (c < 16)%nat ->
  out (updateDisplayRipple u st)
  = out st
    ++ flat_map (fun q => frame_writes (ripple_frame u q)
                          ++ [delay (uint (sint (map (refreshRate st) 42 1000 0 20)))])
         (seq 0 15)
  /\ cell (ripple_frame u q) r c = cell u r c && in_diamond q r c
  /\ lit (out (updateDisplayRipple u st)) (3 - (2 * (r / 8) + c / 8)) (r mod 8) (c mod 8)
     = cell u r c.
Proof.
  intros Hq Hr Hc. split; [apply updateDisplayRipple_out|]. split.
  - rewrite cell_ripple_frame, cell_rip_diamond by assumption. reflexivity.
  - rewrite updateDisplayRipple_out. fold (tile_of r c).
    change (seq 0 15) with (seq 0 14 ++ [14%nat]).
    rewrite flat_map_app. cbn [flat_map]. rewrite app_nil_r.
    match goal with
    | |- context [out st ++ ?pre ++ frame_writes ?F ++ [delay ?d]] =>
        replace (out st ++ pre ++ frame_writes F ++ [delay d])
          with (((out st ++ pre) ++ frame_writes F) ++ [delay d])
          by (now rewrite <- !app_assoc)
    end.
    rewrite lit_after_delay, lit_after_frame by assumption.
    rewrite cell_ripple_frame, cell_rip_diamond by (assumption || lia).
    assert (E : in_diamond 14 r c = true).
    { unfold in_diamond, centre_dist.
      destruct (Nat.ltb_spec r 8), (Nat.ltb_spec c 8); apply Nat.leb_le; lia. }
    rewrite E. apply andb_true_r.
Qed.

Lemma updateDisplayRipple_frames_witness :
  cell (ripple_frame p3 2) 7 6 = cell p3 7 6 && in_diamond 2 7 6
  /\ cell p3 7 6 = true /\ in_diamond 2 7 6 = true.
Proof.
  split; [|split; reflexivity].
  apply (updateDisplayRipple_frames p3 (boot rnd0) 2 7 6); lia.
Defined.

Lemma rippleTest_out st :
  out (rippleTest st)
  = out st ++ flat_map (fun q => frame_writes (rip !!! q) ++ [delay 50]) (seq 0 15).
Proof.
  destruct (frames_loop (fun q => rip !!! q) 50 15 st) as [_ H].
  unfold updateDisplay in H. exact H.
Qed.

(** X5. [rippleTest] makes the display calls of [updateDisplayRipple] on
    the fully lit grid, so it shows the growing diamonds themselves; it
    ends with every LED lit and pauses 15 x 50 = 750 ms in all. *)
Theorem rippleTest_animation (st : state) (r c : nat) :
  (r < 16)%nat -> (c < 16)%nat ->
  display_calls (out (rippleTest st))
  = display_calls (out (updateDisplayRipple full_grid st))
  /\ lit (out (rippleTest st)) (3 - (2 * (r / 8) + c / 8)) (r mod 8) (c mod 8) = true
  /\ pause (out (rippleTest st)) = pause (out st) + 750.
Proof.
  intros Hr Hc. rewrite rippleTest_out. split; [|split].
  - rewrite updateDisplayRipple_out. unfold display_calls.
    rewrite !List.filter_app. apply (f_equal (app _)).
    generalize (uint (sint (map (refreshRate st) 42 1000 0 20))). intros d.
    vm_compute. reflexivity.
  - fold (tile_of r c).
    change (seq 0 15) with (seq 0 14 ++ [14%nat]).
    rewrite flat_map_app. cbn [flat_map]. rewrite app_nil_r.
    match goal with
    | |- context [out st ++ ?pre ++ frame_writes ?F ++ [delay ?d]] =>
        replace (out st ++ pre ++ frame_writes F ++ [delay d])
          with (((out st ++ pre) ++ frame_writes F) ++ [delay d])
          by (now rewrite <- !app_assoc)
    end.
    rewrite lit_after_delay, lit_after_frame by assumption.
    rewrite cell_rip_diamond by lia.
    unfold in_diamond, centre_dist.
    destruct (Nat.ltb_spec r 8), (Nat.ltb_spec c 8); apply Nat.leb_le; lia.
  - rewrite pause_app. apply (f_equal (Z.add _)). vm_compute. reflexivity.
Qed.

Lemma rippleTest_animation_witness :
  lit (out (rippleTest (globals0 rnd0))) 3 0 0 = true
  /\ pause (out (rippleTest (globals0 rnd0))) = 750.
Proof.
  destruct (rippleTest_animation (globals0 rnd0) 0 0) as (_ & Hl & Hp); [lia|lia|].
  split; [exact Hl | exact Hp].
Defined.

(** X6. [updateDisplay], [updateDisplayScan] and [rippleTest] write
    nothing but the trace: the grid they are given, and every other
    global, is left as it was. *)
Theorem renderers_write_trace_only (u : grid) (st : state) :
  writes_out_only st (updateDisplay u st)
  /\ writes_out_only st (updateDisplayScan u st)
  /\ writes_out_only st (rippleTest st).
Proof.
  split; [apply updateDisplay_frame|]. split; [apply updateDisplayScan_frame|].
  destruct (frames_loop (fun q => rip !!! q) 50 15 st) as [H _].
  unfold updateDisplay in H. exact H.
Qed.

(** The first loop nest of [updateDisplayRipple] overwrites [ripMem] in
    full. *)
Lemma ripMem_fill_frames (u : grid) (rm : list (list (Z * Z))) :
  ripMem_shape rm -> ripMem_fill u rm = List.map (ripple_frame u) (seq 0 15).
Proof.
  intros [Hl Hf]. unfold ripMem_fill.
  set (g := fun q i => (Z.land (at2 u i 0) (at2 (rip !!! q) i 0),
                        Z.land (at2 u i 1) (at2 (rip !!! q) i 1))).
  destruct (for_loop_rows
              (fun q gq => for_loop 0 n (fun i gq => <[i := g q i]> gq) gq)
              (fun q =>
                 for_loop 0 n
                   (fun i =>
                      for_loop 0 x
                        (fun j (ripMem : list (list (Z * Z))) =>
                           <[q := set2 (ripMem !!! q) i j
                                    (Z.land (at2 u i j) (at2 (rip !!! q) i j))]> ripMem)))
              rm 15) as [Hlen Hget].
  - intros q' rm' Hq' Hlen.
    rewrite <- ripple_rows by (rewrite Hlen, Hl; exact Hq').
    apply for_loop_ext. intros i rm''.
    destruct (Nat.lt_ge_cases q' (length rm'')) as [Hlt|Hge].
    + now rewrite (ripple_inner (fun j => Z.land (at2 u i j) (at2 (rip !!! q') i j)))
        by exact Hlt.
    + cbv [for_loop x Nat.sub seq fold_left].
      now rewrite !list_insert_ge by (rewrite ?length_insert; lia).
  - rewrite Hl. reflexivity.
  - apply list_eq_total.
    + rewrite Hlen, Hl. reflexivity.
    + intros q Hq. rewrite Hlen, Hl in Hq. rewrite Hget.
      destruct (Nat.ltb_spec q 15); [|lia].
      assert (Hrow : length (rm !!! q) = 16%nat).
      { refine (Forall_lookup_total_1 _ _ _ Hf _). rewrite Hl. exact Hq. }
      assert (Hmap : List.map (ripple_frame u) (seq 0 15) !!! q = ripple_frame u q).
      { clear - Hq. do 15 (destruct q as [|q]; [reflexivity|]). lia. }
      rewrite Hmap.
      destruct (for_loop_rows (fun i (_ : Z * Z) => g q i)
                  (fun i gq => <[i := g q i]> gq) (rm !!! q) n) as [Hlen' Hget'].
      * reflexivity.
      * rewrite Hrow. reflexivity.
      * apply list_eq_total.
        -- rewrite Hlen', Hrow. reflexivity.
        -- intros i Hi. rewrite Hlen', Hrow in Hi.
           rewrite Hget'. change n with 16%nat.
           destruct (Nat.ltb_spec i 16); [|lia].
           unfold ripple_frame, g. clear - Hi.
           do 16 (destruct i as [|i]; [reflexivity|]). lia.
Qed.

Lemma ripple_frame_length u q : length (ripple_frame u q) = 16%nat.
Proof. unfold ripple_frame. now rewrite length_map, length_seq. Qed.

Lemma ripMem_of_fill u : ripMem_of u = ripMem_fill u (replicate 15 zero_grid).
Proof. unfold ripMem_of, ripMem_fill. reflexivity. Qed.

Lemma ripMem_shape_zero : ripMem_shape (replicate 15 zero_grid).
Proof.
  split; [reflexivity|]. apply Forall_forall. intros f Hin.
  apply elem_of_replicate in Hin as [-> _]. reflexivity.
Qed.

(** X21. [updateDisplayRipple] overwrites its scratch array [ripMem] in
    full: whatever the array held before the call, entry [q] is the grid
    masked by [rip[q]] afterwards, and this is the value the display loop
    of the same call reads.  Apart from [ripMem] and the trace the
    routine leaves every global as it was. *)
Theorem updateDisplayRipple_scratch (u : grid) (rm : list (list (Z * Z))) (st : state) :
  ripMem_shape rm ->
  ripMem_fill u rm = List.map (ripple_frame u) (seq 0 15)
  /\ ripMem_shape (ripMem_fill u rm)
  /\ ripMem_of u = ripMem_fill u rm
  /\ writes_out_only st (updateDisplayRipple u st).
Proof.
  intros Hs. pose proof (ripMem_fill_frames u rm Hs) as E.
  split; [exact E|]. split; [|split].
  - rewrite E. split; [now rewrite length_map, length_seq|].
    cbn [List.map seq]. repeat (constructor; [apply ripple_frame_length|]).
    constructor.
  - rewrite E, ripMem_of_fill. apply ripMem_fill_frames, ripMem_shape_zero.
  - unfold updateDisplayRipple. cbv zeta.
    destruct (frames_loop (fun q => ripMem_of u !!! q)
                (sint (map (refreshRate st) 42 1000 0 20)) 15 st) as [H _].
    unfold updateDisplay in H. exact H.
Qed.

Lemma updateDisplayRipple_scratch_witness :
  ripMem_shape (replicate 15 p1)
  /\ ripMem_fill p2 (replicate 15 p1) = List.map (ripple_frame p2) (seq 0 15).
Proof.
  assert (Hs : ripMem_shape (replicate 15 p1)).
  { split; [reflexivity|]. apply Forall_forall. intros f Hin.
    apply elem_of_replicate in Hin as [-> _]. reflexivity. }
  split; [exact Hs|].
  exact (proj1 (updateDisplayRipple_scratch p2 (replicate 15 p1) (boot rnd0) Hs)).
Defined.

(** ** Exact effect of the state transformers *)

Lemma updateDisplay_eq u st :
  updateDisplay u st = set_out (out st ++ frame_writes u) st.
Proof.
  pose proof (updateDisplay_out u st) as Ho.
  destruct (updateDisplay_frame u st) as [o H]. rewrite H in Ho |- *.
  state_simpl_in Ho. now rewrite Ho.
Qed.

Lemma updateDisplayScan_eq u st :
  updateDisplayScan u st
  = set_out (out st ++ scan_writes (sint (map (refreshRate st) 42 1000 0 50)) u) st.
Proof.
  pose proof (updateDisplayScan_out u st) as Ho.
  destruct (updateDisplayScan_frame u st) as [o H]. rewrite H in Ho |- *.
  state_simpl_in Ho. now rewrite Ho.
Qed.

Lemma rules_exact st :
  rules st
  = set_g (sint (g st + 1))
      (set_out (out st ++ scan_writes (sint (map (refreshRate st) 42 1000 0 50))
                            (step (a st)))
         (set_a (step (a st)) st)).
Proof. unfold rules. cbv zeta. now rewrite updateDisplayScan_eq. Qed.

Lemma generateData_exact st :
  length (a st) = 16%nat -> length (mem st) = 16%nat ->
  exists rd',
    generateData st
    = set_rand rd' (set_mem (random_grid (rand st)) (set_a (random_grid (rand st)) st))
    /\ forall k, rd' k = rand st (32 + k)%nat.
Proof.
  intros Ha Hm.
  destruct (generateData_rows n st (Nat.le_refl 16) Ha Hm)
    as (a1 & m1 & rd1 & H & [Ha1 Hm1] & Hrows & Hrd).
  assert (H' : generateData st = set_rand rd1 (set_mem m1 (set_a a1 st))) by exact H.
  clear H. change n with 16%nat in Hrows, Hrd.
  assert (E : a1 = random_grid (rand st)).
  { apply list_eq_total; [now rewrite Ha1|]. intros i Hi.
    rewrite random_grid_row by lia. apply Hrows. lia. }
  assert (E' : m1 = a1).
  { apply list_eq_total; [lia|]. intros i Hi. apply Hrows. lia. }
  exists rd1. rewrite H', E', E. split; [reflexivity|exact Hrd].
Qed.

Lemma patterns_random_exact st :
  patternSel st = 0 -> length (a st) = 16%nat -> length (mem st) = 16%nat ->
  exists rd',
    patterns st
    = set_previous (current st)
        (set_out (out st ++ frame_writes (random_grid (rand st)))
           (set_rand rd'
              (set_mem (random_grid (rand st))
                 (set_a (random_grid (rand st)) (set_periodic false st)))))
    /\ forall k, rd' k = rand st (32 + k)%nat.
Proof.
  intros Hp Ha Hm. unfold patterns. rewrite Hp. change (0 =? 0) with true.
  cbv iota zeta.
  destruct (generateData_exact (set_periodic false st) Ha Hm) as (rd' & -> & Hrd).
  exists rd'. split; [|exact Hrd].
  rewrite updateDisplay_eq. destruct st; reflexivity.
Qed.

Lemma patterns_load_exact st :
  1 <= patternSel st <= 6 ->
  patterns st
  = set_previous (current st)
      (set_periodic (if 3 <=? patternSel st then false else periodic st)
         (set_out (out st ++ frame_writes (page_grid st))
            (set_a (page_grid st) st))).
Proof.
  intros H. unfold patterns, page_grid.
  repeat match goal with
    | |- context [patternSel st =? ?k] =>
        destruct (Z.eqb_spec (patternSel st) k) as [E|]; [rewrite ?E|]
    end; try lia; cbv zeta; rewrite updateDisplay_eq;
    destruct st; reflexivity.
Qed.

Lemma readPot_exact reading pressedFor st :
  exists b l,
    readPot reading pressedFor st
    = set_out (out st ++ l)
        (set_brightness b
           (set_refreshRate (constrain (sint (map reading 970 10 minSpeed maxSpeed)) 42 2500)
              (set_potVal reading st)))
    /\ forall addr row, last_row l addr row = None.
Proof.
  unfold readPot. cbv zeta. state_simpl. destruct pressedFor.
  - eexists _, _. split.
    + destruct st.
      cbv [for_loop x y Nat.mul Nat.add Nat.sub seq fold_left mat_setIntensity].
      state_cbv. rewrite <- !app_assoc. reflexivity.
    + intros addr row. reflexivity.
  - exists (brightness st), []. split; [|reflexivity].
    rewrite app_nil_r. destruct st. state_cbv. reflexivity.
Qed.

Lemma tick_flagged now st :
  periodic st = true ->
  tick now st
  = if uint (now - timeoutPrevious st) >=? periodicTimeout
    then patterns (set_timeoutCurrent now (set_previous (current st) (rules st)))
    else set_timeoutCurrent now (set_previous (current st) (rules st)).
Proof.
  intros H. unfold tick. cbv zeta. rewrite rules_exact. state_simpl.
  rewrite H. reflexivity.
Qed.

Lemma tick_unflagged now st :
  periodic st = false ->
  tick now st
  = checkPeriodic (set_timeoutCurrent now (set_previous (current st) (rules st))).
Proof.
  intros H. unfold tick. cbv zeta. rewrite rules_exact. state_simpl.
  rewrite H. reflexivity.
Qed.

(** ** The button: saving a seed and leaving a page *)

(** A press on a page other than 0, in full: nothing is saved, the page
    becomes 0 and a new random grid is drawn, stored as seed and shown. *)
Lemma press_off_page_0 st :
  patternSel st <> 0 -> length (a st) = 16%nat -> length (mem st) = 16%nat ->
  exists rd',
    press st
    = set_previous (current st)
        (set_out (out st ++ frame_writes (random_grid (rand st)))
           (set_rand rd'
              (set_mem (random_grid (rand st))
                 (set_a (random_grid (rand st))
                    (set_periodic false (set_patternSel 0 st))))))
    /\ forall k, rd' k = rand st (32 + k)%nat.
Proof.
  intros Hp Ha Hm. unfold press, readButt.
  destruct (Z.eqb_spec (patternSel st) 0); [contradiction|].
  cbv iota zeta.
  destruct (patterns_random_exact (set_patternSel 0 st) eq_refl Ha Hm)
    as (rd' & E & Hrd).
  exists rd'. split; [exact E | exact Hrd].
Qed.

Lemma press_off_page_0_flag st :
  patternSel st <> 0 -> periodic (press st) = false.
Proof.
  intros Hp. unfold press, readButt.
  destruct (Z.eqb_spec (patternSel st) 0); [contradiction|].
  cbv iota zeta.
  destruct (patterns_random (set_patternSel 0 st)) as (a' & m' & r' & o & ->);
    [reflexivity|].
  reflexivity.
Qed.

(** C5 (as the sketch has it). A press on page 0 copies the stored seed
    grid [mem] (which the generation step does not touch) into the slot
    chosen by [counter mod 3], advances the counter and shows that slot.
    A press on any other page, whichever it is, saves nothing: slots and
    counter stay, the page becomes 0, the flag is cleared and a new
    random grid, drawn from the next 32 random values, becomes the grid,
    the stored seed and what the panel is sent.  So three saves, each
    made from page 0, fill slots 4, 5, 6 in this order and bring the
    cursor back to 0. *)
Theorem press_saves_seed (st : state) :
  (patternSel st = 0 -> 0 <= counter st < 2 ^ 31 - 3 ->
   (patternSel (press st) = 4 + counter st mod 3
    /\ counter (press st) = counter st + 1
    /\ a (press st) = mem st
    /\ p4 (press st) = (if counter st mod 3 =? 0 then mem st else p4 st)
    /\ p5 (press st) = (if counter st mod 3 =? 1 then mem st else p5 st)
    /\ p6 (press st) = (if counter st mod 3 =? 2 then mem st else p6 st))
   /\ mem (checkPeriodic (rules st)) = mem st
   /\ (patternSel (press (press st)) = 0
       /\ p4 (press (press st)) = p4 (press st)
       /\ p5 (press (press st)) = p5 (press st)
       /\ p6 (press (press st)) = p6 (press st)
       /\ counter (press (press st)) = counter (press st))
   /\ (counter st mod 3 = 0 ->
       let s1 := press st in
       let s2 := press s1 in
       let s3 := press s2 in
       let s4 := press s3 in
       let s5 := press s4 in
       (patternSel s1 = 4 /\ patternSel s2 = 0 /\ patternSel s3 = 5
        /\ patternSel s4 = 0 /\ patternSel s5 = 6)
       /\ (p4 s1 = mem st /\ p5 s3 = mem s2 /\ p6 s5 = mem s4)
       /\ (p4 s5 = mem st /\ p5 s5 = mem s2)
       /\ counter s5 mod 3 = 0))
  /\ (patternSel st <> 0 ->
      (patternSel (press st) = 0
       /\ p4 (press st) = p4 st /\ p5 (press st) = p5 st /\ p6 (press st) = p6 st
       /\ counter (press st) = counter st
       /\ periodic (press st) = false)
      /\ (length (a st) = 16%nat -> length (mem st) = 16%nat ->
          a (press st) = random_grid (rand st)
          /\ mem (press st) = random_grid (rand st)
          /\ (forall k, rand (press st) k = rand st (32 + k)%nat)
          /\ out (press st) = out st ++ frame_writes (random_grid (rand st)))).
Proof.
  split.
  - intros Hp Hc.
    assert (Hm : 0 <= counter st mod 3 < 3) by (apply Z.mod_pos_bound; lia).
    destruct (press_on_page_0 st Hp ltac:(lia)) as (P1 & C1 & A1 & M1 & S4 & S5 & S6).
    assert (Hp1 : patternSel (press st) <> 0) by lia.
    destruct (press_on_other_page (press st) Hp1) as (P2 & S42 & S52 & S62 & C2).
    split; [now repeat split|]. split; [apply mem_observation|].
    split; [now repeat split|].
    intros H0 s1 s2 s3 s4 s5.
    rewrite H0 in *. change (0 =? 0) with true in S4.
    change (0 =? 1) with false in S5. change (0 =? 2) with false in S6.
    cbv iota in S4, S5, S6.
    fold s1 in P1, C1, A1, M1, S4, S5, S6, Hp1, P2, S42, S52, S62, C2.
    fold s2 in P2, S42, S52, S62, C2.
    clearbody s1. clearbody s2.
    assert (Hm2 : counter s2 mod 3 = 1).
    { rewrite C2, C1. rewrite <- Z.add_mod_idemp_l, H0 by lia. reflexivity. }
    destruct (press_on_page_0 s2 P2 ltac:(lia)) as (P3 & C3 & A3 & M3 & S43 & S53 & S63).
    rewrite Hm2 in *. change (1 =? 0) with false in S43.
    change (1 =? 1) with true in S53. change (1 =? 2) with false in S63.
    cbv iota in S43, S53, S63.
    assert (Hp3 : patternSel (press s2) <> 0) by lia.
    destruct (press_on_other_page (press s2) Hp3) as (P4 & S44 & S54 & S64 & C4).
    fold s3 in P3, C3, A3, M3, S43, S53, S63, Hp3, P4, S44, S54, S64, C4.
    fold s4 in P4, S44, S54, S64, C4.
    clearbody s3. clearbody s4.
    assert (Hm4 : counter s4 mod 3 = 2).
    { rewrite C4, C3. rewrite <- Z.add_mod_idemp_l, Hm2 by lia. reflexivity. }
    destruct (press_on_page_0 s4 P4 ltac:(lia)) as (P5 & C5 & A5 & M5 & S45 & S55 & S65).
    rewrite Hm4 in *. change (2 =? 0) with false in S45.
    change (2 =? 1) with false in S55. change (2 =? 2) with true in S65.
    cbv iota in S45, S55, S65.
    fold s5 in P5, C5, A5, M5, S45, S55, S65. clearbody s5.
    repeat split; try assumption; try lia.
    + congruence.
    + congruence.
    + rewrite C5. rewrite <- Z.add_mod_idemp_l, Hm4 by lia. reflexivity.
  - intros Hp. split.
    + destruct (press_on_other_page st Hp) as (P & S4 & S5 & S6 & C).
      pose proof (press_off_page_0_flag st Hp) as F. now repeat split.
    + intros Ha Hm.
      destruct (press_off_page_0 st Hp Ha Hm) as (rd' & -> & Hrd).
      state_simpl. now repeat split.
Qed.

Lemma press_saves_seed_witness :
  let st := press (boot rnd0) in
  (patternSel st = 0
   /\ patternSel (press st) = 4
   /\ p4 (press st) = mem st)
  /\ (patternSel (boot rnd0) <> 0
      /\ patternSel st = 0
      /\ p4 st = p4 (boot rnd0) /\ counter st = counter (boot rnd0)
      /\ a st = random_grid (rand (boot rnd0))
      /\ mem st = random_grid (rand (boot rnd0))).
Proof.
  intros st. split.
  - assert (Hp : patternSel st = 0) by (vm_compute; reflexivity).
    assert (Hc0 : counter st = 0) by (vm_compute; reflexivity).
    assert (Hc : 0 <= counter st < 2 ^ 31 - 3) by (rewrite Hc0; lia).
    destruct (press_saves_seed st) as (H & _).
    destruct (H Hp Hc) as ((P1 & _ & _ & S4 & _) & _).
    rewrite Hc0 in P1, S4.
    assert (E1 : 4 + 0 mod 3 = 4) by reflexivity.
    assert (E2 : (0 mod 3 =? 0) = true) by reflexivity.
    rewrite E1 in P1. rewrite E2 in S4.
    split; [exact Hp|]. split; [exact P1 | exact S4].
  - assert (Hq : patternSel (boot rnd0) <> 0) by (vm_compute; discriminate).
    destruct (press_saves_seed (boot rnd0)) as (_ & H).
    destruct (H Hq) as ((P & S4 & _ & _ & C & _) & G).
    destruct G as (A & M & _); [reflexivity | reflexivity |].
    split; [exact Hq|]. split; [exact P|]. split; [exact S4|].
    split; [exact C|]. split; [exact A | exact M].
Defined.

(** C5, as stated, fails: of three presses in succession from page 0 the
    second one leaves the slot page for page 0 and saves nothing, so slot
    6 is still empty after the third and the page after the second press
    is no slot. *)
Lemma three_presses_skip_slot_6 :
  let st := press (boot rnd0) in
  let st3 := press (press (press st)) in
  patternSel st = 0 /\ counter st = 0
  /\ patternSel (press st) = 4
  /\ patternSel (press (press st)) = 0
  /\ patternSel st3 = 5
  /\ p4 st3 = mem st /\ p5 st3 <> mem st
  /\ p6 st3 = zero_grid /\ mem st <> zero_grid.
Proof.
  vm_compute. repeat split; discriminate.
Qed.

(** ** The state invariant *)

Lemma wf_zero_grid : wf_grid zero_grid.
Proof. split; [reflexivity|]. repeat (constructor; [cbn [fst snd]; lia|]). constructor. Qed.

Lemma wf_p1 : wf_grid p1.
Proof.
  split; [reflexivity|].
  unfold p1. repeat (constructor; [unfold B; cbn [fst snd]; lia|]). constructor.
Qed.

Lemma wf_p2 : wf_grid p2.
Proof.
  split; [reflexivity|].
  unfold p2. repeat (constructor; [unfold B; cbn [fst snd]; lia|]). constructor.
Qed.

Lemma wf_p3 : wf_grid p3.
Proof.
  split; [reflexivity|].
  unfold p3. repeat (constructor; [unfold B; cbn [fst snd]; lia|]). constructor.
Qed.

Lemma wf_zero_rows : wf_rows zero_rows.
Proof. split; [reflexivity|]. repeat (constructor; [lia|]). constructor. Qed.

Lemma wf_pack_rows u : wf_grid u -> wf_rows (pack_rows u).
Proof.
  intros Hwf. destruct (pack_rows_spec u) as [Hlen Hget]. split; [exact Hlen|].
  refine (Forall_lookup_total_2 _ _ _). intros i Hi. rewrite Hlen in Hi.
  rewrite Hget by exact Hi. now apply pack_wf.
Qed.

Lemma wf_page_grid st :
  wf_grid (p4 st) -> wf_grid (p5 st) -> wf_grid (p6 st) -> wf_grid (page_grid st).
Proof.
  intros H4 H5 H6. unfold page_grid.
  repeat match goal with
    | |- context [if ?c then _ else _] => destruct c
    end; auto using wf_p1, wf_p2, wf_p3.
Qed.

Lemma constrain_range amt : 42 <= constrain amt 42 2500 <= 2500.
Proof. rewrite constrain_clamp by lia. lia. Qed.

Ltac wf_fields :=
  unfold wf_state in *; state_simpl;
  repeat match goal with
    | H : _ /\ _ |- _ => destruct H
    end;
  repeat match goal with
    | |- _ /\ _ => split
    end;
  auto using wf_random_grid, wf_pack_rows, wf_grid_step, wf_page_grid,
    wf_p1, wf_p2, wf_p3, constrain_range; try lia.

Lemma wf_state_patterns st : wf_state st -> wf_state (patterns st).
Proof.
  intros Hwf.
  assert (Hp : 0 <= patternSel st <= 9) by apply Hwf.
  assert (Ha : length (a st) = 16%nat) by apply Hwf.
  assert (Hm : length (mem st) = 16%nat) by apply Hwf.
  assert (Hc : patternSel st = 0 \/ 1 <= patternSel st <= 6 \/ 7 <= patternSel st) by lia.
  destruct Hc as [Hc|[Hc|Hc]].
  - destruct (patterns_random_exact st Hc Ha Hm) as (rd' & -> & _). wf_fields.
  - rewrite (patterns_load_exact st Hc). wf_fields.
  - now rewrite patterns_inert.
Qed.

Lemma wf_state_rules st : wf_state st -> wf_state (rules st).
Proof. intros Hwf. rewrite rules_exact. wf_fields. Qed.

Lemma wf_state_checkPeriodic st : wf_state st -> wf_state (checkPeriodic st).
Proof.
  intros Hwf. rewrite checkPeriodic_eq. cbv zeta.
  destruct (Z.rem (g st) 64 =? 0); wf_fields.
Qed.

Lemma wf_state_timing now prev st :
  wf_state st -> wf_state (set_timeoutCurrent now (set_previous prev st)).
Proof. intros Hwf. wf_fields. Qed.

Lemma wf_state_tick now st : wf_state st -> wf_state (tick now st).
Proof.
  intros Hwf. destruct (periodic st) eqn:Hper.
  - rewrite (tick_flagged now st Hper).
    destruct (_ >=? _).
    + apply wf_state_patterns, wf_state_timing, wf_state_rules, Hwf.
    + apply wf_state_timing, wf_state_rules, Hwf.
  - rewrite (tick_unflagged now st Hper).
    apply wf_state_checkPeriodic, wf_state_timing, wf_state_rules, Hwf.
Qed.

Lemma wf_state_readPot reading pressedFor st :
  wf_state st -> wf_state (readPot reading pressedFor st).
Proof.
  intros Hwf. destruct (readPot_exact reading pressedFor st) as (b & l & -> & _).
  pose proof (constrain_range (sint (map reading 970 10 minSpeed maxSpeed))).
  wf_fields.
Qed.

Lemma wf_state_readButt wasPressed st :
  wf_state st -> wf_state (readButt wasPressed st).
Proof.
  intros Hwf. unfold readButt. destruct wasPressed; [|exact Hwf].
  destruct (patternSel st =? 0).
  - cbv zeta.
    repeat match goal with
      | |- context [if ?c then _ else _] => destruct c
      end; try exact Hwf; apply wf_state_patterns; wf_fields.
  - cbv zeta. apply wf_state_patterns. wf_fields.
Qed.

Lemma wf_state_pattern result st : wf_state st -> wf_state (pattern result st).
Proof.
  intros Hwf. destruct result; [exact Hwf| |]; unfold pattern; cbv zeta;
    apply wf_state_patterns; state_simpl;
    assert (Hp : 0 <= patternSel st <= 9) by apply Hwf;
    rewrite sint_small, constrain_clamp by (unfold lim; lia);
    unfold lim; wf_fields.
Qed.

Lemma wf_state_boot rnd : wf_state (boot rnd).
Proof.
  unfold boot, setup_end. cbv zeta. rewrite updateDisplay_eq.
  unfold globals0. wf_fields; auto using wf_zero_grid, wf_zero_rows;
    try apply wf_zero_grid; try apply wf_zero_rows.
Qed.

(** X7. Between passes of [loop()] and calls of the encoder handler the
    globals keep their shape: [a], [mem] and the three writable slots are
    16x16 grids of bytes, the five detector grids are sixteen 16-bit
    rows, the page is in [0, 9] and the tick period in [42, 2500]; this
    holds at the end of [setup()] and whatever the collaborators answer. *)
Theorem wf_state_invariant (st : state) (i : inputs) (result : enc_result) :
  wf_state st ->
  wf_state (loop i st) /\ wf_state (pattern result st)
  /\ forall rnd, wf_state (boot rnd).
Proof.
  intros Hwf. split; [|split].
  - unfold loop. cbv zeta.
    assert (H1 : wf_state (set_current (in_millis i)
                   (readButt (in_wasPressed i)
                      (readPot (in_analogRead i) (in_pressedFor i) st)))).
    { pose proof (wf_state_readButt (in_wasPressed i) _
                    (wf_state_readPot (in_analogRead i) (in_pressedFor i) st Hwf)) as H.
      revert H. generalize (readButt (in_wasPressed i)
                              (readPot (in_analogRead i) (in_pressedFor i) st)).
      intros s0 H. wf_fields. }
    revert H1. generalize (set_current (in_millis i)
                   (readButt (in_wasPressed i)
                      (readPot (in_analogRead i) (in_pressedFor i) st))).
    intros s1 H1.
    assert (H2 : wf_state (if uint (current s1 - previous s1) >=? uint (refreshRate s1)
                           then tick (in_millis_tick i) s1 else s1)).
    { destruct (_ >=? _); [now apply wf_state_tick|exact H1]. }
    revert H2. generalize (if uint (current s1 - previous s1) >=? uint (refreshRate s1)
                           then tick (in_millis_tick i) s1 else s1).
    intros s2 H2. unfold do_delay. wf_fields.
  - now apply wf_state_pattern.
  - apply wf_state_boot.
Qed.

Lemma wf_state_invariant_witness :
  let i := {| in_analogRead := 500; in_pressedFor := false; in_wasPressed := true;
              in_millis := 200; in_millis_tick := 201 |} in
  wf_state (loop i (boot rnd0)) /\ wf_state (pattern DIR_CW (boot rnd0)).
Proof.
  intros i.
  destruct (wf_state_invariant (boot rnd0) i DIR_CW (wf_state_boot rnd0)) as (H1 & H2 & _).
  split; [exact H1 | exact H2].
Defined.

(** ** The panel shows the grid *)

Lemma shows_same st st' : a st' = a st -> out st' = out st -> shows st -> shows st'.
Proof. intros Ha Ho H r c Hr Hc. rewrite Ha, Ho. now apply H. Qed.

Lemma shows_patterns st : wf_state st -> shows st -> shows (patterns st).
Proof.
  intros Hwf Hs.
  assert (Hp : 0 <= patternSel st <= 9) by apply Hwf.
  assert (Ha : length (a st) = 16%nat) by apply Hwf.
  assert (Hm : length (mem st) = 16%nat) by apply Hwf.
  assert (Hc : patternSel st = 0 \/ 1 <= patternSel st <= 6 \/ 7 <= patternSel st) by lia.
  destruct Hc as [Hc|[Hc|Hc]].
  - destruct (patterns_random_exact st Hc Ha Hm) as (rd' & -> & _).
    intros r c Hr Hc'. state_simpl. now apply lit_after_frame.
  - rewrite (patterns_load_exact st Hc).
    intros r c Hr Hc'. state_simpl. now apply lit_after_frame.
  - now rewrite patterns_inert.
Qed.

Lemma shows_rules st : shows (rules st).
Proof. rewrite rules_exact. intros r c Hr Hc. state_simpl. now apply lit_after_scan. Qed.

Lemma shows_tick now st : wf_state st -> shows (tick now st).
Proof.
  intros Hwf.
  pose proof (shows_rules st) as Hs0. pose proof (wf_state_rules st Hwf) as Hw0.
  destruct (periodic st) eqn:Hper.
  - rewrite (tick_flagged now st Hper).
    revert Hs0 Hw0. generalize (rules st). intros s0 Hs0 Hw0.
    assert (Hs : shows (set_timeoutCurrent now (set_previous (current st) s0)))
      by (revert Hs0; apply shows_same; reflexivity).
    destruct (_ >=? _); [|exact Hs].
    apply shows_patterns; [now apply wf_state_timing|exact Hs].
  - rewrite (tick_unflagged now st Hper).
    revert Hs0 Hw0. generalize (rules st). intros s0 Hs0 Hw0.
    rewrite checkPeriodic_eq. cbv zeta.
    revert Hs0. apply shows_same; reflexivity.
Qed.

Lemma shows_readPot reading pressedFor st :
  shows st -> shows (readPot reading pressedFor st).
Proof.
  intros Hs. destruct (readPot_exact reading pressedFor st) as (b & l & -> & Hl).
  intros r c Hr Hc. state_simpl. unfold lit. rewrite last_row_app, Hl.
  now apply Hs.
Qed.

Lemma shows_readButt wasPressed st :
  wf_state st -> shows st -> shows (readButt wasPressed st).
Proof.
  intros Hwf Hs. unfold readButt. destruct wasPressed; [|exact Hs].
  destruct (patternSel st =? 0).
  - cbv zeta.
    repeat match goal with
      | |- context [if ?c then _ else _] => destruct c
      end; try exact Hs;
      (apply shows_patterns;
       [wf_fields | revert Hs; apply shows_same; reflexivity]).
  - cbv zeta. apply shows_patterns;
      [wf_fields | revert Hs; apply shows_same; reflexivity].
Qed.

Lemma shows_pattern result st : wf_state st -> shows st -> shows (pattern result st).
Proof.
  intros Hwf Hs. pose proof (wf_state_pattern result st Hwf) as Hw.
  destruct result; [exact Hs| |]; unfold pattern in *; cbv zeta in *.
  - revert Hw. generalize (sint (patternSel st + 1)). intros v Hw.
    apply shows_patterns.
    + clear Hw. assert (Hp : 0 <= constrain v 0 lim <= 9)
        by (rewrite constrain_clamp; unfold lim; lia).
      state_simpl. wf_fields.
    + revert Hs. apply shows_same; reflexivity.
  - revert Hw. generalize (sint (patternSel st - 1)). intros v Hw.
    apply shows_patterns.
    + clear Hw. assert (Hp : 0 <= constrain v 0 lim <= 9)
        by (rewrite constrain_clamp; unfold lim; lia).
      state_simpl. wf_fields.
    + revert Hs. apply shows_same; reflexivity.
Qed.

Lemma shows_boot rnd : shows (boot rnd).
Proof.
  unfold boot, setup_end. cbv zeta. rewrite updateDisplay_eq.
  intros r c Hr Hc. state_simpl. now apply lit_after_frame.
Qed.

(** X8. Between passes of [loop()] and calls of the encoder handler the
    panel shows the grid [a]: logical cell [(r, c)] is the LED of module
    [3 - (2 * (r / 8) + c / 8)], row [r mod 8], column [c mod 8].  This
    holds at the end of [setup()] and is kept by every pass and every
    encoder event, also on the reserved pages, where nothing is redrawn
    and nothing is reloaded. *)
Theorem panel_shows_grid (st : state) (i : inputs) (result : enc_result) :
  wf_state st -> shows st ->
  shows (loop i st) /\ shows (pattern result st) /\ forall rnd, shows (boot rnd).
Proof.
  intros Hwf Hs. split; [|split].
  - unfold loop. cbv zeta.
    pose proof (wf_state_readPot (in_analogRead i) (in_pressedFor i) st Hwf) as Hw1.
    pose proof (shows_readPot (in_analogRead i) (in_pressedFor i) st Hs) as Hs1.
    revert Hw1 Hs1. generalize (readPot (in_analogRead i) (in_pressedFor i) st).
    intros s1 Hw1 Hs1.
    pose proof (wf_state_readButt (in_wasPressed i) s1 Hw1) as Hw2.
    pose proof (shows_readButt (in_wasPressed i) s1 Hw1 Hs1) as Hs2.
    revert Hw2 Hs2. generalize (readButt (in_wasPressed i) s1).
    intros s2 Hw2 Hs2.
    assert (Hw3 : wf_state (set_current (in_millis i) s2)) by wf_fields.
    assert (Hs3 : shows (set_current (in_millis i) s2))
      by (revert Hs2; apply shows_same; reflexivity).
    revert Hw3 Hs3. generalize (set_current (in_millis i) s2).
    intros s3 Hw3 Hs3.
    assert (Hs4 : shows (if uint (current s3 - previous s3) >=? uint (refreshRate s3)
                         then tick (in_millis_tick i) s3 else s3)).
    { destruct (_ >=? _); [now apply shows_tick|exact Hs3]. }
    revert Hs4. generalize (if uint (current s3 - previous s3) >=? uint (refreshRate s3)
                            then tick (in_millis_tick i) s3 else s3).
    intros s4 Hs4 r c Hr Hc. unfold do_delay. state_simpl.
    rewrite lit_after_delay. now apply Hs4.
  - now apply shows_pattern.
  - apply shows_boot.
Qed.

Lemma panel_shows_grid_witness :
  let i := {| in_analogRead := 500; in_pressedFor := true; in_wasPressed := true;
              in_millis := 200; in_millis_tick := 201 |} in
  shows (loop i (boot rnd0)) /\ shows (pattern DIR_CCW (boot rnd0)).
Proof.
  intros i.
  destruct (panel_shows_grid (boot rnd0) i DIR_CCW (wf_state_boot rnd0) (shows_boot rnd0))
    as (H1 & H2 & _).
  split; [exact H1 | exact H2].
Defined.

(** ** More on the detector *)

(** X9. From a still life the flag is raised by the second observation
    at the latest, and there by the ring: the newest grid equals the one
    before it. *)
Theorem still_life_flagged (st : state) (t1 t2 : Z) :
  periodic st = false ->
  step (a st) = a st ->
  periodic (tick t1 st) = true
  \/ (periodic (tick t2 (tick t1 st)) = true
      /\ r1 (tick t2 (tick t1 st)) = r2 (tick t2 (tick t1 st))).
Proof.
  intros H0 H1.
  destruct (tick_observation t1 st H0) as (A1 & _ & R11 & _ & _ & _ & _ & _).
  set (st1 := tick t1 st) in *. clearbody st1.
  destruct (periodic st1) eqn:P1; [now left|right].
  destruct (tick_observation t2 st1 P1) as (A2 & _ & R12 & R22 & _ & _ & _ & P2).
  set (st2 := tick t2 st1) in *. clearbody st2.
  assert (E : pack_rows (step (a st1)) = r1 st1) by congruence.
  split; [|congruence].
  rewrite P2, (bool_decide_eq_true_2 _ E). reflexivity.
Qed.

Lemma still_life_flagged_witness :
  let st := set_a block (globals0 rnd0) in
  step block = block
  /\ (periodic (tick 10 st) = true
      \/ (periodic (tick 20 (tick 10 st)) = true
          /\ r1 (tick 20 (tick 10 st)) = r2 (tick 20 (tick 10 st)))).
Proof.
  intros st.
  assert (H : step block = block) by (vm_compute; reflexivity).
  split; [exact H|].
  apply (still_life_flagged st 10 20); [reflexivity|exact H].
Defined.

(** X10. From a grid of period three the flag is raised by the fourth
    observation at the latest, and there by the ring: the newest grid
    equals the oldest entry, three generations back. *)
Theorem period_three_flagged (st : state) (t1 t2 t3 t4 : Z) :
  periodic st = false ->
  step (step (step (a st))) = a st ->
  let st1 := tick t1 st in
  let st2 := tick t2 st1 in
  let st3 := tick t3 st2 in
  let st4 := tick t4 st3 in
  periodic st1 = true \/ periodic st2 = true \/ periodic st3 = true
  \/ (periodic st4 = true /\ r1 st4 = r4 st4).
Proof.
  intros H0 H3 st1 st2 st3 st4.
  destruct (tick_observation t1 st H0) as (A1 & _ & R11 & _ & _ & _ & _ & _).
  fold st1 in A1, R11. clearbody st1.
  destruct (periodic st1) eqn:P1; [now left|right].
  destruct (tick_observation t2 st1 P1) as (A2 & _ & R12 & R22 & _ & _ & _ & _).
  fold st2 in A2, R12, R22. clearbody st2.
  destruct (periodic st2) eqn:P2; [now left|right].
  destruct (tick_observation t3 st2 P2) as (A3 & _ & R13 & R23 & R33 & _ & _ & _).
  fold st3 in A3, R13, R23, R33. clearbody st3.
  destruct (periodic st3) eqn:P3; [now left|right].
  destruct (tick_observation t4 st3 P3) as (A4 & _ & R14 & R24 & R34 & R44 & _ & P4).
  fold st4 in A4, R14, R24, R34, R44, P4. clearbody st4.
  assert (E : pack_rows (step (a st3)) = r3 st3).
  { rewrite R33, R22, R11, A3, A2, A1, H3. reflexivity. }
  split; [|congruence].
  rewrite P4, (bool_decide_eq_true_2 _ E), orb_true_r. reflexivity.
Qed.

Lemma period_three_flagged_witness :
  let st := set_a pulsar (globals0 rnd0) in
  (step pulsar <> pulsar /\ step (step pulsar) <> pulsar)
  /\ (periodic (tick 1 st) = true \/ periodic (tick 2 (tick 1 st)) = true
      \/ periodic (tick 3 (tick 2 (tick 1 st))) = true
      \/ (periodic (tick 4 (tick 3 (tick 2 (tick 1 st)))) = true
          /\ r1 (tick 4 (tick 3 (tick 2 (tick 1 st))))
             = r4 (tick 4 (tick 3 (tick 2 (tick 1 st)))))).
Proof.
  intros st. split; [split; vm_compute; discriminate|].
  apply (period_three_flagged st 1 2 3 4); [reflexivity|].
  vm_compute. reflexivity.
Defined.

Lemma pack_inj u v i :
  wf_grid u -> wf_grid v -> (i < 16)%nat -> pack u i = pack v i -> u !!! i = v !!! i.
Proof.
  intros Hu Hv Hi E.
  destruct (pack_wf u i Hu Hi) as [Eu _]. destruct (pack_wf v i Hv Hi) as [Ev _].
  destruct (wf_grid_row u i Hu Hi) as [Hu0 Hu1].
  destruct (wf_grid_row v i Hv Hi) as [Hv0 Hv1].
  rewrite Eu, Ev in E. unfold at2 in *. cbn [Nat.eqb] in *.
  destruct (u !!! i) as [u0 u1], (v !!! i) as [v0 v1]. cbn [fst snd] in *.
  f_equal; lia.
Qed.

Lemma pack_rows_inj u v :
  wf_grid u -> wf_grid v -> pack_rows u = pack_rows v -> u = v.
Proof.
  intros Hu Hv E. pose proof Hu as [Lu _]. pose proof Hv as [Lv _].
  apply list_eq_total; [lia|]. intros i Hi. rewrite Lu in Hi.
  apply pack_inj; try assumption.
  destruct (pack_rows_spec u) as [_ Gu]. destruct (pack_rows_spec v) as [_ Gv].
  rewrite <- Gu, <- Gv by exact Hi. now rewrite E.
Qed.

(** X11. Once the ring holds three grids of the current run, the ring
    comparison is exact: away from the multiples of 64, the fourth
    observation raises the flag if and only if the new generation equals
    one of the three generations before it, that is, if and only if the
    run has closed a cycle of length 1, 2 or 3. *)
Theorem ring_detection_exact (st : state) (t1 t2 t3 t4 : Z) :
  let st1 := tick t1 st in
  let st2 := tick t2 st1 in
  let st3 := tick t3 st2 in
  let st4 := tick t4 st3 in
  wf_grid (a st) ->
  periodic st = false -> periodic st1 = false -> periodic st2 = false ->
  periodic st3 = false ->
  Z.rem (sint (g st3 + 1)) 64 <> 0 ->
  (periodic st4 = true <-> a st4 = a st3 \/ a st4 = a st2 \/ a st4 = a st1)
  /\ a st4 = step (a st3) /\ a st3 = step (a st2) /\ a st2 = step (a st1).
Proof.
  intros st1 st2 st3 st4 Hwf P0 P1 P2 P3 Hg.
  destruct (tick_observation t1 st P0) as (A1 & _ & R11 & _ & _ & _ & _ & _).
  fold st1 in A1, R11. clearbody st1.
  destruct (tick_observation t2 st1 P1) as (A2 & _ & R12 & R22 & _ & _ & _ & _).
  fold st2 in A2, R12, R22. clearbody st2.
  destruct (tick_observation t3 st2 P2) as (A3 & _ & R13 & R23 & R33 & _ & _ & _).
  fold st3 in A3, R13, R23, R33. clearbody st3.
  destruct (tick_observation t4 st3 P3) as (A4 & _ & _ & _ & _ & _ & _ & P4).
  fold st4 in A4, P4. clearbody st4.
  assert (W1 : wf_grid (a st1)) by (rewrite A1; now apply wf_grid_step).
  assert (W2 : wf_grid (a st2)) by (rewrite A2; now apply wf_grid_step).
  assert (W3 : wf_grid (a st3)) by (rewrite A3; now apply wf_grid_step).
  assert (W4 : wf_grid (a st4)) by (rewrite A4; now apply wf_grid_step).
  split; [|now repeat split].
  apply Z.eqb_neq in Hg. rewrite P4, Hg. cbn [andb]. rewrite orb_false_r.
  rewrite <- A4.
  assert (E1 : r1 st3 = pack_rows (a st3)) by congruence.
  assert (E2 : r2 st3 = pack_rows (a st2)) by congruence.
  assert (E3 : r3 st3 = pack_rows (a st1)) by congruence.
  rewrite E1, E2, E3, !orb_true_iff, !bool_decide_eq_true.
  split.
  - intros [[H|H]|H]; [left|right; left|right; right]; now apply pack_rows_inj.
  - intros [H|[H|H]]; rewrite H; tauto.
Qed.

Lemma ring_detection_exact_witness :
  let st := boot rnd0 in
  let st3 := tick 3 (tick 2 (tick 1 st)) in
  let st4 := tick 4 st3 in
  periodic st4 = true <->
  a st4 = a st3 \/ a st4 = a (tick 2 (tick 1 st)) \/ a st4 = a (tick 1 st).
Proof.
  intros st st3 st4.
  apply (ring_detection_exact st 1 2 3 4).
  - apply wf_p1.
  - reflexivity.
  - vm_compute. reflexivity.
  - vm_compute. reflexivity.
  - vm_compute. reflexivity.
  - vm_compute. discriminate.
Defined.

(** ** After settlement *)

Lemma geb_false x y : x < y -> (x >=? y) = false.
Proof. intros H. rewrite Z.geb_leb. now apply Z.leb_gt. Qed.

Lemma geb_true x y : y <= x -> (x >=? y) = true.
Proof. intros H. rewrite Z.geb_leb. now apply Z.leb_le. Qed.

(** X12. While the flag is up and the timeout has not elapsed, a pass
    through the refresh block still computes and counts the next
    generation, but leaves the detector alone: ring, checkpoint, flag and
    settlement time keep their values, and so does the seed. *)
Theorem flagged_tick_freezes_detector (st : state) (now : Z) :
  periodic st = true ->
  uint (now - timeoutPrevious st) < periodicTimeout ->
  a (tick now st) = step (a st)
  /\ g (tick now st) = sint (g st + 1)
  /\ (r1 (tick now st) = r1 st /\ r2 (tick now st) = r2 st /\ r3 (tick now st) = r3 st
      /\ r4 (tick now st) = r4 st /\ r64 (tick now st) = r64 st)
  /\ periodic (tick now st) = true
  /\ timeoutPrevious (tick now st) = timeoutPrevious st
  /\ mem (tick now st) = mem st.
Proof.
  intros Hp Ht. rewrite (tick_flagged now st Hp), (geb_false _ _ Ht), rules_exact.
  state_simpl. now repeat split.
Qed.

Lemma flagged_tick_freezes_detector_witness :
  let st := Nat.iter 128 (tick 0) (boot rnd0) in
  periodic st = true
  /\ r1 (tick 4999 st) = r1 st /\ a (tick 4999 st) = step (a st).
Proof.
  intros st.
  assert (Hp : periodic st = true) by (vm_compute; reflexivity).
  destruct (flagged_tick_freezes_detector st 4999 Hp) as (Ha & _ & (H1 & _) & _).
  - vm_compute. reflexivity.
  - split; [exact Hp|]. split; [exact H1 | exact Ha].
Defined.

(** X13. On page 0, the first pass after the timeout starts a new run:
    the flag is cleared, grid and seed both become the grid drawn from
    the next 32 random values, while the generation just computed is
    dropped and the detector keeps ring and checkpoint of the old run. *)
Theorem timeout_restarts_random_run (st : state) (now : Z) :
  length (a st) = 16%nat -> length (mem st) = 16%nat ->
  periodic st = true -> patternSel st = 0 ->
  periodicTimeout <= uint (now - timeoutPrevious st) ->
  periodic (tick now st) = false
  /\ a (tick now st) = random_grid (rand st)
  /\ mem (tick now st) = random_grid (rand st)
  /\ (forall k, rand (tick now st) k = rand st (32 + k)%nat)
  /\ g (tick now st) = sint (g st + 1)
  /\ (r1 (tick now st) = r1 st /\ r2 (tick now st) = r2 st /\ r3 (tick now st) = r3 st
      /\ r4 (tick now st) = r4 st /\ r64 (tick now st) = r64 st).
Proof.
  intros Ha Hm Hp H0 Ht.
  rewrite (tick_flagged now st Hp), (geb_true _ _ Ht), rules_exact.
  pose proof (step_length (a st) Ha) as Hs.
  revert Hs. generalize (step (a st)). intros a1 Hs.
  match goal with
  | |- context [patterns ?s0] =>
      destruct (patterns_random_exact s0) as (rd' & -> & Hrd);
        [exact H0 | exact Hs | exact Hm |]
  end.
  state_simpl. state_simpl_in Hrd. now repeat split.
Qed.

Lemma timeout_restarts_random_run_witness :
  let st := set_timeoutPrevious 0 (set_periodic true (press (boot rnd0))) in
  patternSel st = 0
  /\ periodic (tick 5000 st) = false
  /\ a (tick 5000 st) = random_grid (rand st).
Proof.
  intros st.
  assert (H0 : patternSel st = 0) by (vm_compute; reflexivity).
  destruct (timeout_restarts_random_run st 5000) as (Hp & Ha & _).
  - vm_compute. reflexivity.
  - vm_compute. reflexivity.
  - reflexivity.
  - exact H0.
  - vm_compute. discriminate.
  - split; [exact H0|]. split; [exact Hp | exact Ha].
Defined.

Lemma tick_reload now st :
  periodic st = true -> 1 <= patternSel st <= 2 ->
  periodicTimeout <= uint (now - timeoutPrevious st) ->
  a (tick now st) = page_grid st
  /\ periodic (tick now st) = true
  /\ patternSel (tick now st) = patternSel st
  /\ timeoutPrevious (tick now st) = timeoutPrevious st.
Proof.
  intros Hp Hs Ht.
  rewrite (tick_flagged now st Hp), (geb_true _ _ Ht), rules_exact.
  generalize (step (a st)). intros a1.
  rewrite patterns_load_exact by (state_simpl; lia).
  unfold page_grid. state_simpl.
  destruct (Z.leb_spec 3 (patternSel st)); [lia|]. now repeat split.
Qed.

Lemma fold_left_cons_eq {A B : Type} (f : A -> B -> A) x0 l s0 :
  fold_left f (x0 :: l) s0 = fold_left f l (f s0 x0).
Proof. reflexivity. Qed.

(** X14. On pages 1 and 2 a settled pattern never runs again: after the
    timeout every pass reloads the pre-loaded grid and leaves the flag
    up and the settlement time unchanged, so the grid is back at its
    first generation after each pass, however many follow. *)
Theorem settled_fixed_page_reloads_forever (st : state) (nows : list Z) :
  periodic st = true -> 1 <= patternSel st <= 2 ->
  Forall (fun t => periodicTimeout <= uint (t - timeoutPrevious st)) nows ->
  nows <> [] ->
  a (run_ticks nows st) = (if patternSel st =? 1 then p1 else p2)
  /\ periodic (run_ticks nows st) = true.
Proof.
  intros Hp Hs Hall Hne.
  assert (Hgrid : page_grid st = if patternSel st =? 1 then p1 else p2).
  { unfold page_grid.
    destruct (Z.eqb_spec (patternSel st) 1); [reflexivity|].
    destruct (Z.eqb_spec (patternSel st) 2); [reflexivity|lia]. }
  rewrite <- Hgrid. clear Hgrid. unfold run_ticks.
  enough (H : forall s, periodic s = true -> patternSel s = patternSel st ->
                        timeoutPrevious s = timeoutPrevious st ->
                        a (fold_left (fun st t => tick t st) nows s) = page_grid st
                        /\ periodic (fold_left (fun st t => tick t st) nows s) = true)
    by (now apply H).
  induction nows as [|t nows IH]; [contradiction|].
  intros s Hps Hsel Htp. apply Forall_cons_1 in Hall. destruct Hall as [Ht Hall].
  destruct (tick_reload t s Hps) as (A1 & P1 & S1 & T1);
    [lia | now rewrite Htp|].
  assert (G1 : page_grid s = page_grid st).
  { unfold page_grid. rewrite Hsel.
    destruct (Z.eqb_spec (patternSel st) 1); [reflexivity|].
    destruct (Z.eqb_spec (patternSel st) 2); [reflexivity|lia]. }
  rewrite !fold_left_cons_eq.
  revert A1 P1 S1 T1. generalize (tick t s). intros s1 A1 P1 S1 T1.
  destruct nows as [|t' nows'].
  - cbn [fold_left]. split; [congruence|exact P1].
  - apply IH; [exact Hall|discriminate|exact P1|congruence|congruence].
Qed.

Lemma settled_fixed_page_reloads_forever_witness :
  let st := Nat.iter 128 (tick 0) (boot rnd0) in
  patternSel st = 1
  /\ a (run_ticks [5000; 5100; 5200] st) = p1
  /\ periodic (run_ticks [5000; 5100; 5200] st) = true.
Proof.
  intros st.
  assert (Hs : patternSel st = 1) by (vm_compute; reflexivity).
  assert (Ht : timeoutPrevious st = 0) by (vm_compute; reflexivity).
  destruct (settled_fixed_page_reloads_forever st [5000; 5100; 5200]) as (Ha & Hp).
  - vm_compute. reflexivity.
  - rewrite Hs. lia.
  - rewrite Ht. repeat constructor; vm_compute; discriminate.
  - discriminate.
  - rewrite Hs in Ha. split; [exact Hs|]. split; [exact Ha | exact Hp].
Defined.

(** ** Potentiometer: speed and brightness curves *)

Lemma readPot_refreshRate reading pressedFor st :
  refreshRate (readPot reading pressedFor st)
  = constrain (sint (map reading 970 10 minSpeed maxSpeed)) 42 2500.
Proof. destruct (readPot_exact reading pressedFor st) as (b & l & -> & _). reflexivity. Qed.

Lemma readPot_brightness reading st :
  brightness (readPot reading true st) = sint (map reading 0 970 0 15).
Proof.
  destruct st.
  cbv [readPot for_loop x y Nat.mul Nat.add Nat.sub seq fold_left mat_setIntensity].
  state_cbv. reflexivity.
Qed.

(** X15. The potentiometer curves are monotone and saturate: a larger
    reading never gives a longer tick period nor a lower brightness;
    readings up to 10 give the slowest period, 2500 ms, readings from 970
    on give the fastest, 42 ms, and full brightness 15; reading 0 gives
    brightness 0. *)
Theorem readPot_monotone (ra rb : Z) (ha hb : bool) (sa sb : state) :
  0 <= ra -> ra <= rb -> rb <= 1023 ->
  refreshRate (readPot rb hb sb) <= refreshRate (readPot ra ha sa)
  /\ brightness (readPot ra true sa) <= brightness (readPot rb true sb)
  /\ (ra <= 10 -> refreshRate (readPot ra ha sa) = 2500)
  /\ (970 <= rb -> refreshRate (readPot rb hb sb) = 42
                   /\ brightness (readPot rb true sb) = 15)
  /\ (ra = 0 -> brightness (readPot ra true sa) = 0).
Proof.
  intros H0 Hab Hb.
  rewrite !readPot_refreshRate, !readPot_brightness.
  rewrite !map_speed, !map_brightness, !constrain_clamp by lia.
  change (2500 - 42) with 2458. change (10 - 970) with (- (960)).
  rewrite !Z.quot_opp_r by lia.
  pose proof (Z.quot_le_mono ((ra - 970) * 2458) ((rb - 970) * 2458) 960
                ltac:(lia) ltac:(lia)) as Hq.
  pose proof (Z.div_le_mono (ra * 15) (rb * 15) 970 ltac:(lia) ltac:(lia)) as Hd.
  split; [lia|]. split; [exact Hd|]. split; [|split].
  - intros H10.
    pose proof (Z.quot_le_mono ((ra - 970) * 2458) (-960 * 2458) 960
                  ltac:(lia) ltac:(lia)) as Hlo.
    change (-960 * 2458 ÷ 960) with (-2458) in Hlo. lia.
  - intros H970.
    pose proof (Z.quot_le_mono 0 ((rb - 970) * 2458) 960 ltac:(lia) ltac:(lia)) as Hhi.
    change (0 ÷ 960) with 0 in Hhi.
    pose proof (Z.div_le_mono (970 * 15) (rb * 15) 970 ltac:(lia) ltac:(lia)) as H15.
    change (970 * 15 / 970) with 15 in H15.
    assert (rb * 15 / 970 < 16) by (apply Z.div_lt_upper_bound; lia).
    lia.
  - intros ->. reflexivity.
Qed.

Lemma readPot_monotone_witness :
  refreshRate (readPot 600 false (boot rnd0)) <= refreshRate (readPot 300 true (boot rnd0))
  /\ brightness (readPot 300 true (boot rnd0)) <= brightness (readPot 600 true (boot rnd0)).
Proof.
  destruct (readPot_monotone 300 600 true false (boot rnd0) (boot rnd0))
    as (H1 & H2 & _); [lia|lia|lia|].
  split; [exact H1 | exact H2].
Defined.

(** ** Pages, slots and the encoder *)

Lemma pattern_CW_exact st :
  0 <= patternSel st <= 9 ->
  pattern DIR_CW st = patterns (set_patternSel (Z.min 9 (patternSel st + 1)) st).
Proof.
  intros H. unfold pattern. cbv zeta. state_simpl.
  rewrite sint_small, constrain_clamp by (unfold lim; lia). unfold lim.
  replace (Z.max 0 (Z.min 9 (patternSel st + 1))) with (Z.min 9 (patternSel st + 1))
    by lia.
  destruct st; reflexivity.
Qed.

Lemma pattern_CCW_exact st :
  0 <= patternSel st <= 9 ->
  pattern DIR_CCW st = patterns (set_patternSel (Z.max 0 (patternSel st - 1)) st).
Proof.
  intros H. unfold pattern. cbv zeta. state_simpl.
  rewrite sint_small, constrain_clamp by (unfold lim; lia). unfold lim.
  replace (Z.max 0 (Z.min 9 (patternSel st - 1))) with (Z.max 0 (patternSel st - 1))
    by lia.
  destruct st; reflexivity.
Qed.

Lemma slots_patterns st : slots (patterns st) = slots st.
Proof. destruct (patterns_frame st) as (? & ? & ? & ? & ? & ? & ->). reflexivity. Qed.

Lemma patterns_load_fields st :
  1 <= patternSel st <= 6 ->
  a (patterns st) = page_grid st
  /\ patternSel (patterns st) = patternSel st
  /\ page_grid (patterns st) = page_grid st.
Proof. intros H. rewrite (patterns_load_exact st H). now repeat split. Qed.

(** X16. Turning the encoder onto one of the pages 1..6 loads the grid
    of that page, pre-loaded or saved; turning it onto a reserved page
    7..9 changes the page number only, so the grid that was running goes
    on; a step clockwise followed by a step back returns to the page the
    knob started from, except from the last page. *)
Theorem encoder_loads_page (st : state) :
  0 <= patternSel st <= 9 ->
  (patternSel st <= 5 ->
   patternSel (pattern DIR_CW st) = patternSel st + 1
   /\ a (pattern DIR_CW st) = page_grid (pattern DIR_CW st))
  /\ (2 <= patternSel st <= 7 ->
      patternSel (pattern DIR_CCW st) = patternSel st - 1
      /\ a (pattern DIR_CCW st) = page_grid (pattern DIR_CCW st))
  /\ (6 <= patternSel st ->
      pattern DIR_CW st = set_patternSel (Z.min 9 (patternSel st + 1)) st)
  /\ (patternSel st <= 8 ->
      patternSel (pattern DIR_CCW (pattern DIR_CW st)) = patternSel st)
  /\ slots (pattern DIR_CW st) = slots st /\ slots (pattern DIR_CCW st) = slots st.
Proof.
  intros H. rewrite (pattern_CW_exact st H), (pattern_CCW_exact st H).
  split; [|split; [|split; [|split; [|split]]]].
  - intros H5.
    destruct (patterns_load_fields (set_patternSel (Z.min 9 (patternSel st + 1)) st))
      as (Ha & Hp & Hg); [state_simpl; lia|].
    rewrite Ha, Hp, Hg. state_simpl. split; [lia|reflexivity].
  - intros H27.
    destruct (patterns_load_fields (set_patternSel (Z.max 0 (patternSel st - 1)) st))
      as (Ha & Hp & Hg); [state_simpl; lia|].
    rewrite Ha, Hp, Hg. state_simpl. split; [lia|reflexivity].
  - intros H6. apply patterns_inert. state_simpl. lia.
  - intros H8.
    assert (Hp : patternSel (patterns (set_patternSel (Z.min 9 (patternSel st + 1)) st))
                 = patternSel st + 1)
      by (rewrite patternSel_patterns; state_simpl; lia).
    revert Hp. generalize (patterns (set_patternSel (Z.min 9 (patternSel st + 1)) st)).
    intros s1 Hp.
    rewrite pattern_CCW_exact by lia. rewrite patternSel_patterns. state_simpl. lia.
  - rewrite slots_patterns. reflexivity.
  - rewrite slots_patterns. reflexivity.
Qed.

Lemma encoder_loads_page_witness :
  let st := boot rnd0 in
  a (pattern DIR_CW st) = p2
  /\ patternSel (pattern DIR_CCW (pattern DIR_CW st)) = patternSel st.
Proof.
  intros st.
  assert (Hp : patternSel st = 1) by reflexivity.
  destruct (encoder_loads_page st) as (H1 & _ & _ & H4 & _); [rewrite Hp; lia|].
  destruct H1 as (_ & Ha); [rewrite Hp; lia|].
  split; [|apply H4; rewrite Hp; lia].
  rewrite Ha. vm_compute. reflexivity.
Defined.

(** X17. A saved grid can be called up again: after a press on page 0,
    one step of the encoder away from the slot page and one step back
    shows the seed that was saved. *)
Theorem saved_seed_is_reloaded (st : state) :
  patternSel st = 0 -> 0 <= counter st < 2 ^ 31 - 1 ->
  a (pattern DIR_CCW (pattern DIR_CW (press st))) = mem st
  /\ patternSel (pattern DIR_CCW (pattern DIR_CW (press st))) = 4 + counter st mod 3.
Proof.
  intros Hp Hc.
  assert (Hm : 0 <= counter st mod 3 < 3) by (apply Z.mod_pos_bound; lia).
  destruct (press_on_page_0 st Hp Hc) as (P1 & _ & _ & _ & S4 & S5 & S6).
  assert (G1 : page_grid (press st) = mem st).
  { unfold page_grid. rewrite P1, S4, S5, S6.
    assert (Hk : counter st mod 3 = 0 \/ counter st mod 3 = 1 \/ counter st mod 3 = 2)
      by lia.
    destruct Hk as [->|[->| ->]]; reflexivity. }
  revert P1 G1. clear S4 S5 S6. generalize (press st). intros s1 P1 G1.
  rewrite (pattern_CW_exact s1) by lia.
  assert (P2 : patternSel (patterns (set_patternSel (Z.min 9 (patternSel s1 + 1)) s1))
               = patternSel s1 + 1)
    by (rewrite patternSel_patterns; state_simpl; lia).
  pose proof (slots_patterns (set_patternSel (Z.min 9 (patternSel s1 + 1)) s1)) as S2.
  revert P2 S2. generalize (patterns (set_patternSel (Z.min 9 (patternSel s1 + 1)) s1)).
  intros s2 P2 S2.
  rewrite (pattern_CCW_exact s2) by lia.
  destruct (patterns_load_fields (set_patternSel (Z.max 0 (patternSel s2 - 1)) s2))
    as (Ha & Hq & _); [state_simpl; lia|].
  rewrite Ha, Hq. state_simpl.
  replace (Z.max 0 (patternSel s2 - 1)) with (patternSel s1) by lia.
  split; [|exact P1].
  rewrite <- G1. unfold page_grid. state_simpl.
  unfold slots in S2. state_simpl_in S2.
  injection S2 as E4 E5 E6 _. now rewrite E4, E5, E6.
Qed.

Lemma saved_seed_is_reloaded_witness :
  let st := press (boot rnd0) in
  patternSel st = 0
  /\ a (pattern DIR_CCW (pattern DIR_CW (press st))) = mem st.
Proof.
  intros st.
  assert (Hp : patternSel st = 0) by (vm_compute; reflexivity).
  assert (Hc : counter st = 0) by (vm_compute; reflexivity).
  destruct (saved_seed_is_reloaded st Hp) as (Ha & _); [rewrite Hc; lia|].
  split; [exact Hp | exact Ha].
Defined.

(** ** One pass of [loop()] *)

Lemma loop_no_press i st :
  in_wasPressed i = false ->
  exists b l,
    loop i st
    = do_delay 1
        (if uint (in_millis i - previous st)
            >=? constrain (sint (map (in_analogRead i) 970 10 minSpeed maxSpeed)) 42 2500
         then tick (in_millis_tick i)
                (set_current (in_millis i)
                   (set_out (out st ++ l)
                      (set_brightness b
                         (set_refreshRate
                            (constrain
                               (sint (map (in_analogRead i) 970 10 minSpeed maxSpeed))
                               42 2500)
                            (set_potVal (in_analogRead i) st)))))
         else set_current (in_millis i)
                (set_out (out st ++ l)
                   (set_brightness b
                      (set_refreshRate
                         (constrain
                            (sint (map (in_analogRead i) 970 10 minSpeed maxSpeed))
                            42 2500)
                         (set_potVal (in_analogRead i) st))))).
Proof.
  intros Hb. unfold loop. cbv zeta. rewrite Hb.
  destruct (readPot_exact (in_analogRead i) (in_pressedFor i) st) as (b & l & -> & _).
  exists b, l. unfold readButt. state_simpl.
  rewrite (uint_small (constrain _ 42 2500))
    by (pose proof (constrain_range (sint (map (in_analogRead i) 970 10 minSpeed maxSpeed)));
        lia).
  reflexivity.
Qed.

Lemma patterns_previous st :
  previous st = current st -> previous (patterns st) = current st.
Proof.
  intros H. unfold patterns. cbv zeta.
  repeat match goal with
         | |- context [if ?c then _ else _] => destruct c
         end; use_frames; state_simpl; auto.
Qed.

Lemma tick_counts now st :
  g (tick now st) = sint (g st + 1) /\ previous (tick now st) = current st
  /\ slots (tick now st) = slots st /\ patternSel (tick now st) = patternSel st.
Proof.
  destruct (periodic st) eqn:Hp.
  - rewrite (tick_flagged now st Hp), rules_exact.
    destruct (uint (now - timeoutPrevious st) >=? periodicTimeout).
    + match goal with
      | |- context [patterns ?s] =>
          pose proof (patterns_previous s eq_refl) as Hq;
          destruct (patterns_frame s) as (per & a' & mem' & prev & o & rand' & E);
          rewrite E in Hq |- *
      end.
      state_simpl_in Hq. unfold slots. state_simpl. now repeat split.
    + unfold slots. state_simpl. now repeat split.
  - rewrite (tick_unflagged now st Hp), checkPeriodic_eq, rules_exact. cbv zeta.
    unfold slots. state_simpl. now repeat split.
Qed.

(** X18. The refresh gate of [loop()].  In a pass without a button press,
    when less than 42 ms have gone by since the last generation nothing
    is computed: grid, generation count, detector state and the time of
    the last generation stay; when 2500 ms or more have gone by a
    generation is computed whatever the potentiometer reads: the count
    goes up by one, the time of the last generation becomes the [millis()]
    reading of this pass and, unless the run was flagged as settled, the
    grid is the next generation.  In both cases the saved slots and the
    page stay. *)
Theorem loop_refresh_gate (i : inputs) (st : state) :
  in_wasPressed i = false ->
  (uint (in_millis i - previous st) < 42 ->
   a (loop i st) = a st /\ g (loop i st) = g st
   /\ previous (loop i st) = previous st /\ periodic (loop i st) = periodic st
   /\ (r1 (loop i st), r2 (loop i st), r3 (loop i st), r4 (loop i st), r64 (loop i st))
      = (r1 st, r2 st, r3 st, r4 st, r64 st))
  /\ (2500 <= uint (in_millis i - previous st) ->
      g (loop i st) = sint (g st + 1) /\ previous (loop i st) = in_millis i
      /\ (periodic st = false -> a (loop i st) = step (a st)))
  /\ slots (loop i st) = slots st /\ patternSel (loop i st) = patternSel st.
Proof.
  intros Hb. destruct (loop_no_press i st Hb) as (b & l & ->).
  pose proof (constrain_range (sint (map (in_analogRead i) 970 10 minSpeed maxSpeed)))
    as Hc.
  revert Hc. generalize (constrain (sint (map (in_analogRead i) 970 10 minSpeed maxSpeed))
                           42 2500).
  intros rr Hc.
  split; [|split].
  - intros He. rewrite geb_false by lia. unfold do_delay. state_simpl. now repeat split.
  - intros He. rewrite geb_true by lia.
    match goal with |- context [tick ?n ?s] =>
      pose proof (tick_counts n s) as (Hg & Hq & _);
      assert (Ha : periodic st = false -> a (tick n s) = step (a st))
    end.
    { intros Hp. rewrite tick_unflagged by exact Hp.
      rewrite checkPeriodic_eq, rules_exact. reflexivity. }
    state_simpl_in Hg. state_simpl_in Hq.
    revert Hg Hq Ha.
    match goal with |- context [tick ?n ?s] => generalize (tick n s) end.
    intros s Hg Hq Ha. unfold do_delay. state_simpl. now repeat split.
  - destruct (uint (in_millis i - previous st) >=? rr).
    + match goal with |- context [tick ?n ?s] =>
        pose proof (tick_counts n s) as (_ & _ & Hs & Hq)
      end.
      unfold slots in *. state_simpl_in Hs. state_simpl_in Hq.
      revert Hs Hq.
      match goal with |- context [tick ?n ?s] => generalize (tick n s) end.
      intros s Hs Hq. unfold do_delay. state_simpl. now split.
    + unfold do_delay, slots. state_simpl. now split.
Qed.

Lemma loop_refresh_gate_witness :
  let i := {| in_analogRead := 500; in_pressedFor := false; in_wasPressed := false;
              in_millis := 3000; in_millis_tick := 3000 |} in
  let st := boot rnd0 in
  g (loop i st) = 1 /\ a (loop i st) = step p1.
Proof.
  intros i st.
  destruct (loop_refresh_gate i st eq_refl) as (_ & H & _).
  destruct H as (Hg & _ & Ha); [vm_compute; discriminate|].
  split; [rewrite Hg; reflexivity | exact (Ha eq_refl)].
Defined.

(** X19. The three writable slots and the save counter are written by a
    button press on page 0 and by nothing else: a pass of [loop()]
    without a press, a pass with a press on any other page, and every
    encoder event leave them as they are.  The generation counter is
    not reset either: such a pass leaves it or adds one, an encoder
    event leaves it. *)
Theorem slots_written_by_save_only (i : inputs) (result : enc_result) (st : state) :
  in_wasPressed i = false \/ patternSel st <> 0 ->
  slots (loop i st) = slots st
  /\ slots (pattern result st) = slots st
  /\ (g (loop i st) = g st \/ g (loop i st) = sint (g st + 1))
  /\ g (pattern result st) = g st.
Proof.
  intros H.
  assert (Hpat : slots (pattern result st) = slots st /\ g (pattern result st) = g st).
  { unfold pattern. cbv zeta. destruct result; [now split| |];
      match goal with |- context [patterns ?s] =>
        destruct (patterns_frame s) as (per & a' & mem' & prev & o & rand' & ->)
      end; unfold slots; state_simpl; now split. }
  destruct Hpat as (Hps & Hpg).
  assert (Hloop : slots (loop i st) = slots st
                  /\ (g (loop i st) = g st \/ g (loop i st) = sint (g st + 1))).
  { unfold loop. cbv zeta.
    destruct (readPot_exact (in_analogRead i) (in_pressedFor i) st) as (b & l & -> & _).
    match goal with |- context [readButt ?w ?s] =>
      assert (Hs : slots (readButt w s) = slots st /\ g (readButt w s) = g st)
    end.
    { unfold readButt. destruct (in_wasPressed i) eqn:Hw; [|now split].
      state_simpl. destruct H as [H|H]; [discriminate|].
      apply Z.eqb_neq in H. rewrite H. cbv zeta.
      match goal with |- context [patterns ?s] =>
        destruct (patterns_frame s) as (per & a' & mem' & prev & o & rand' & ->)
      end. unfold slots. state_simpl. now split. }
    revert Hs.
    match goal with |- context [readButt ?w ?s] => generalize (readButt w s) end.
    intros s1 (Hs & Hg).
    match goal with |- context [if ?c then _ else _] => destruct c end.
    - match goal with |- context [tick ?n ?s] =>
        pose proof (tick_counts n s) as (Hg2 & _ & Hs2 & _)
      end.
      unfold slots in *. state_simpl_in Hg2. state_simpl_in Hs2.
      revert Hg2 Hs2.
      match goal with |- context [tick ?n ?s] => generalize (tick n s) end.
      intros s2 Hg2 Hs2. unfold do_delay. state_simpl.
      split; [congruence | right; congruence].
    - unfold do_delay, slots in *. state_simpl. split; [exact Hs | now left]. }
  destruct Hloop as (Hls & Hlg). now repeat split.
Qed.

Lemma slots_written_by_save_only_witness :
  let i := {| in_analogRead := 500; in_pressedFor := false; in_wasPressed := true;
              in_millis := 3000; in_millis_tick := 3000 |} in
  let st := boot rnd0 in
  patternSel st <> 0 /\ slots (loop i st) = slots st.
Proof.
  intros i st.
  assert (Hp : patternSel st <> 0) by (vm_compute; discriminate).
  split; [exact Hp|].
  exact (proj1 (slots_written_by_save_only i DIR_NONE st (or_intror Hp))).
Defined.

(** ** The rule on the torus *)

Lemma cell_step_life u r c :
  wf_grid u -> (r < 16)%nat -> (c < 16)%nat ->
  cell (step u) r c = life (cell u r c) (live_neighbours u r c).
Proof.
  intros Hwf Hr Hc. rewrite cell_step by assumption. unfold next_bit, life.
  rewrite snapshot_bit, total_live_neighbours by assumption.
  set (k := live_neighbours u r c).
  assert (E2 : (Z.of_nat k =? 2) = (k =? 2)%nat)
    by (destruct (Z.eqb_spec (Z.of_nat k) 2), (Nat.eqb_spec k 2); lia || reflexivity).
  assert (E3 : (Z.of_nat k =? 3) = (k =? 3)%nat)
    by (destruct (Z.eqb_spec (Z.of_nat k) 3), (Nat.eqb_spec k 3); lia || reflexivity).
  now rewrite E2, E3.
Qed.

Lemma wrap16_shift z d : wrap16 (Z.of_nat (wrap16 z) + d) = wrap16 (z + d).
Proof.
  unfold wrap16. rewrite Z2Nat.id by (apply Z.mod_pos_bound; lia).
  now rewrite Zplus_mod_idemp_l.
Qed.

Lemma wrap16_id k : (k < 16)%nat -> wrap16 (Z.of_nat k) = k.
Proof. intros H. unfold wrap16. rewrite Z.mod_small by lia. apply Nat2Z.id. Qed.

Lemma wrap16_shift_sub z d : wrap16 (Z.of_nat (wrap16 z) - d) = wrap16 (z - d).
Proof.
  unfold wrap16. rewrite Z2Nat.id by (apply Z.mod_pos_bound; lia).
  now rewrite Zminus_mod_idemp_l.
Qed.

Lemma live_neighbours_shift dr dc u v r c :
  shifted dr dc u v -> (r < 16)%nat -> (c < 16)%nat ->
  live_neighbours v r c
  = live_neighbours u (wrap16 (Z.of_nat r + dr)) (wrap16 (Z.of_nat c + dc)).
Proof.
  intros H Hr Hc. apply Nat2Z.inj. unfold live_neighbours, neighbours. cbv zeta.
  rewrite !count_cons. cbn [fst snd].
  rewrite !H by (apply wrap16_lt || assumption).
  rewrite !wrap16_shift, !wrap16_shift_sub.
  replace (Z.of_nat r - 1 + dr) with (Z.of_nat r + dr - 1) by lia.
  replace (Z.of_nat r + 1 + dr) with (Z.of_nat r + dr + 1) by lia.
  replace (Z.of_nat c - 1 + dc) with (Z.of_nat c + dc - 1) by lia.
  replace (Z.of_nat c + 1 + dc) with (Z.of_nat c + dc + 1) by lia.
  reflexivity.
Qed.

(** X20. The generation rule treats every cell alike, the cells on the
    edges included: when a 16x16 grid is moved on the torus by any number
    of rows and columns, its next generation is the next generation of
    the original moved the same way. *)
Theorem step_commutes_with_shift (dr dc : Z) (u v : grid) :
  wf_grid u -> wf_grid v -> shifted dr dc u v ->
  shifted dr dc (step u) (step v).
Proof.
  intros Hu Hv H r c Hr Hc.
  rewrite !cell_step_life by (apply wrap16_lt || assumption).
  rewrite (H r c Hr Hc). f_equal. now apply live_neighbours_shift.
Qed.

Lemma p1_rows_moved : shifted 3 0 p1 (drop 3 p1 ++ take 3 p1).
Proof.
  assert (E : forallb (fun r => forallb (fun c =>
                 Bool.eqb (cell (drop 3 p1 ++ take 3 p1) r c)
                          (cell p1 (wrap16 (Z.of_nat r + 3)) (wrap16 (Z.of_nat c + 0))))
                 (seq 0 16)) (seq 0 16) = true) by (vm_compute; reflexivity).
  intros r c Hr Hc.
  rewrite forallb_forall in E. specialize (E r). rewrite in_seq in E.
  specialize (E ltac:(lia)). rewrite forallb_forall in E. specialize (E c).
  rewrite in_seq in E. specialize (E ltac:(lia)). now apply Bool.eqb_prop.
Qed.

Lemma step_commutes_with_shift_witness :
  shifted 3 0 (step p1) (step (drop 3 p1 ++ take 3 p1)).
Proof.
  apply step_commutes_with_shift.
  - apply wf_p1.
  - split; [reflexivity|].
    repeat (constructor; [unfold B; cbn [fst snd]; lia|]). constructor.
  - exact p1_rows_moved.
Defined.
